(** * pingcode-mcp: the work-item presentation pipeline of [src/tools/work-items.ts]

    A shallow embedding of the field formatter, the rich-text renderer, the
    record projector and the directive generator, followed by the properties
    the specification states about them.

    Conventions of the embedding.
    - A JavaScript string is a Rocq [string] holding its UTF-8 bytes.
      Concatenation, equality, [join] and [split] do not depend on the
      encoding; the regular expressions of the source only name ASCII
      characters, and the Unicode white space of [\s] and [trim] is matched
      as the byte sequences that encode it.
    - A value of type [any] is a piece of JSON data (plus [undefined]);
      numbers are integers.
    - An exception is the [Throw] outcome of the [result] monad. *)

From Stdlib Require Import String Ascii List ZArith Bool Arith Lia DecimalString.
From Stdlib Require Import Relations Wellfounded.
From Stdlib Require Import Permutation.
Import ListNotations.
Open Scope string_scope.

(** ** Characters and strings *)

Definition LF : ascii := ascii_of_nat 10.
Definition DQ : ascii := ascii_of_nat 34.
Definition nl : string := String LF "".
Definition dq : string := String DQ "".

(** [lines.join(sep)] on an array of strings. *)
Definition join (sep : string) (parts : list string) : string :=
  String.concat sep parts.

(** [s.split('\n')]: the empty string splits into one empty line. *)
Fixpoint split_lines (s : string) : list string :=
  match s with
  | "" => [""]
  | String c s' =>
      if Ascii.eqb c LF then "" :: split_lines s'
      else match split_lines s' with
           | l :: ls => String c l :: ls
           | [] => [String c ""]
           end
  end.

(** [prefix_of s rest]: what [s] has in front of its suffix [rest]. *)
Definition prefix_of (s rest : string) : string :=
  substring 0 (String.length s - String.length rest) s.

(** ** White space ([\s] of a regular expression, and [String.prototype.trim])

    ECMAScript white space and line terminators: TAB, LF, VT, FF, CR, SP,
    U+00A0, U+1680, U+2000..U+200A, U+2028, U+2029, U+202F, U+205F, U+3000
    and U+FEFF, the last ten groups by their UTF-8 bytes. *)

Definition ascii_space (a : ascii) : bool :=
  let n := nat_of_ascii a in (((9 <=? n) && (n <=? 13)) || (n =? 32))%nat.

Definition space2 (a b : ascii) : bool :=
  ((nat_of_ascii a =? 194) && (nat_of_ascii b =? 160))%nat.

Definition space3 (a b c : ascii) : bool :=
  let x := nat_of_ascii a in
  let y := nat_of_ascii b in
  let z := nat_of_ascii c in
  (((x =? 225) && (y =? 154) && (z =? 128))
   || ((x =? 226) && (y =? 128)
       && (((128 <=? z) && (z <=? 138)) || (z =? 168) || (z =? 169) || (z =? 175)))
   || ((x =? 226) && (y =? 129) && (z =? 159))
   || ((x =? 227) && (y =? 128) && (z =? 128))
   || ((x =? 239) && (y =? 187) && (z =? 191)))%nat.

(** The rest of [s] after one leading white-space character, if it has one. *)
Definition space_rest (s : string) : option string :=
  match s with
  | String a s1 =>
      if ascii_space a then Some s1 else
      match s1 with
      | String b s2 =>
          if space2 a b then Some s2 else
          match s2 with
          | String c s3 => if space3 a b c then Some s3 else None
          | "" => None
          end
      | "" => None
      end
  | "" => None
  end.

Fixpoint trimStart (s : string) : string :=
  match s with
  | String a s1 =>
      if ascii_space a then trimStart s1 else
      match s1 with
      | String b s2 =>
          if space2 a b then trimStart s2 else
          match s2 with
          | String c s3 => if space3 a b c then trimStart s3 else s
          | "" => s
          end
      | "" => s
      end
  | "" => ""
  end.

(** [trimEnd] cuts at the first position from which only white space follows. *)
Fixpoint trimEnd (s : string) : string :=
  match s with
  | String a s1 => if trimStart s =? "" then "" else String a (trimEnd s1)
  | "" => ""
  end.

Definition trim (s : string) : string := trimEnd (trimStart s).

(** ** Regular expressions

    The patterns of [stripHtml] are sequences of quantified one-character
    sets; one of them carries the capture group.  Matching is greedy with
    backtracking, as in ECMAScript. *)

Module Regex.

Inductive charset : Type :=
| Only (c : ascii)       (* a literal character *)
| AnyBut (c : ascii)     (* [^c] *)
| Space.                 (* \s *)

Record piece : Type := Piece
  { set : charset;
    lo : nat;              (* least number of repetitions *)
    hi : option nat;       (* greatest number, [None] when unbounded *)
    group : bool }.        (* is this piece capture group 1? *)

Record regex : Type := Regex
  { pieces : list piece;
    ignoreCase : bool }.   (* the [i] flag *)

Definition one (cs : charset) : piece := Piece cs 1 (Some 1) false.
Definition star (cs : charset) : piece := Piece cs 0 None false.
Definition plus (cs : charset) : piece := Piece cs 1 None false.
Definition opt (cs : charset) : piece := Piece cs 0 (Some 1) false.
Definition atLeast (n : nat) (cs : charset) : piece := Piece cs n None false.
Definition captured (p : piece) : piece := Piece (set p) (lo p) (hi p) true.
Definition lit (s : string) : list piece :=
  map (fun c => one (Only c)) (list_ascii_of_string s).

(** Case folding of the [i] flag: only ASCII letters fold onto ASCII. *)
Definition upcase (c : ascii) : ascii :=
  let n := nat_of_ascii c in
  if ((97 <=? n) && (n <=? 122))%nat then ascii_of_nat (n - 32) else c.

Definition same (ic : bool) (x c : ascii) : bool :=
  if ic then Ascii.eqb (upcase x) (upcase c) else Ascii.eqb x c.

(** One character of the set at the front of [s]: what follows it. *)
Definition eat (ic : bool) (cs : charset) (s : string) : option string :=
  match cs with
  | Only c =>
      match s with
      | String x s' => if same ic x c then Some s' else None
      | "" => None
      end
  | AnyBut c =>
      match s with
      | String x s' => if same ic x c then None else Some s'
      | "" => None
      end
  | Space => space_rest s
  end.

Definition below (n : nat) (bound : option nat) : bool :=
  match bound with
  | Some m => (n <? m)%nat
  | None => true
  end.

Section Greedy.
Context {R : Type} (ic : bool) (cs : charset) (lo : nat) (hi : option nat).
(** the rest of the pattern, run on what is left *)
Context (k : string -> option R).

(** [n] repetitions are taken; take as many more as possible and give
    them back one at a time while the rest of the pattern fails.
    [fuel] bounds the repetitions still to take: every repetition eats at
    least one byte, so the length of the string is enough. *)
Fixpoint greedy (fuel n : nat) (s : string) : option R :=
  let stop := if (lo <=? n)%nat then k s else None in
  match fuel with
  | 0 => stop
  | S fuel' =>
      if below n hi then
        match eat ic cs s with
        | Some s' =>
            match greedy fuel' (S n) s' with
            | Some r => Some r
            | None => stop
            end
        | None => stop
        end
      else stop
  end.
End Greedy.

(** A match of the pieces at the front of [s]: the capture and the rest. *)
Fixpoint match_pieces (ic : bool) (ps : list piece) (cap : option string)
         (s : string) : option (option string * string) :=
  match ps with
  | [] => Some (cap, s)
  | p :: ps' =>
      greedy ic (set p) (lo p) (hi p)
        (fun s' =>
           match_pieces ic ps' (if group p then Some (prefix_of s s') else cap) s')
        (String.length s) 0 s
  end.

Definition match_at (re : regex) (s : string) : option (option string * string) :=
  match_pieces (ignoreCase re) (pieces re) None s.

Section Replace.
Context (re : regex) (repl : option string -> string).

(** [s.replace(re, repl)] with the [g] flag, scanning from the left.
    [skip] counts the characters of the last match still to pass over. *)
Fixpoint replace_from (skip : nat) (s : string) : string :=
  match s with
  | "" =>
      match skip, match_at re "" with
      | 0, Some (cap, _) => repl cap
      | _, _ => ""
      end
  | String c s' =>
      match skip with
      | S n => replace_from n s'
      | 0 =>
          match match_at re s with
          | Some (cap, rest) =>
              match String.length s - String.length rest with
              | 0 => repl cap ++ String c (replace_from 0 s')
              | S n => repl cap ++ replace_from n s'
              end
          | None => String c (replace_from 0 s')
          end
      end
  end.

Definition replace (s : string) : string := replace_from 0 s.
End Replace.

End Regex.

(** ** [stripHtml] *)

Import Regex.

(** [/<img[^>]*src=Q([^Q]* )Q[^>]*>/gi], where Q stands for the double quote *)
Definition re_img : regex :=
  Regex (lit "<img" ++ [star (AnyBut ">")] ++ lit "src=" ++ [one (Only DQ)]
           ++ [captured (star (AnyBut DQ))] ++ [one (Only DQ)]
           ++ [star (AnyBut ">")] ++ lit ">") true.

(** [/<br\s*\/?>/gi] *)
Definition re_br : regex :=
  Regex (lit "<br" ++ [star Space; opt (Only "/")] ++ lit ">") true.

(** [/<\/p>/gi] *)
Definition re_p_close : regex := Regex (lit "</p>") true.

(** [/<[^>]+>/g] *)
Definition re_tag : regex := Regex (lit "<" ++ [plus (AnyBut ">")] ++ lit ">") false.

(** [/&nbsp;/g], [/&lt;/g], [/&gt;/g], [/&amp;/g] *)
Definition re_nbsp : regex := Regex (lit "&nbsp;") false.
Definition re_lt : regex := Regex (lit "&lt;") false.
Definition re_gt : regex := Regex (lit "&gt;") false.
Definition re_amp : regex := Regex (lit "&amp;") false.

(** [/\n{3,}/g] *)
Definition re_newlines : regex := Regex [atLeast 3 (Only LF)] false.

(** The replacement function of the image pattern: [(_, src) => `[图片](${src})`]. *)
Definition img_marker (cap : option string) : string :=
  "[图片](" ++ match cap with Some src => src | None => "undefined" end ++ ")".

Definition const (s : string) : option string -> string := fun _ => s.

(** [stripHtml] (work-items.ts, lines 35-49): the chain of replacements,
    then [trim]. *)
Definition stripHtml (html : string) : string :=
  if html =? "" then "" else
  let s1 := replace re_img img_marker html in
  let s2 := replace re_br (const nl) s1 in
  let s3 := replace re_p_close (const nl) s2 in
  let s4 := replace re_tag (const "") s3 in
  let s5 := replace re_nbsp (const " ") s4 in
  let s6 := replace re_lt (const "<") s5 in
  let s7 := replace re_gt (const ">") s6 in
  let s8 := replace re_amp (const "&") s7 in
  let s9 := replace re_newlines (const (nl ++ nl)) s8 in
  trim s9.

(** ** Outcomes: a value, or an exception *)

Inductive error : Type :=
| TypeError                      (* raised by the engine *)
| Rejected (message : string).   (* raised by the tracker client *)

Inductive result (A : Type) : Type :=
| Ok (a : A)
| Throw (e : error).
Arguments Ok {A} a.
Arguments Throw {A} e.

Definition bind {A B : Type} (c : result A) (k : A -> result B) : result B :=
  match c with
  | Ok a => k a
  | Throw e => Throw e
  end.

Notation "x <- c ;; k" := (bind c (fun x => k))
  (at level 61, c at next level, right associativity).

Section Traverse.
Context {A B : Type}.

(** [array.map(f)], stopping at the first exception. *)
Section MapM.
Context (f : A -> result B).
Fixpoint mapM (l : list A) : result (list B) :=
  match l with
  | [] => Ok []
  | x :: r => y <- f x ;; ys <- mapM r ;; Ok (y :: ys)
  end.
End MapM.

(** [array.map((x, index) => f index x)], counting from [i]. *)
Section MapMi.
Context (f : nat -> A -> result B).
Fixpoint mapMi (i : nat) (l : list A) : result (list B) :=
  match l with
  | [] => Ok []
  | x :: r => y <- f i x ;; ys <- mapMi (S i) r ;; Ok (y :: ys)
  end.
End MapMi.
End Traverse.

(** ** Loosely typed data: the [any] of the source

    The data the tracker client hands over, as [JSON.parse] builds it, plus
    [undefined].  A number is an integer (a safe integer of the source;
    fractions, [NaN] and the infinities are left out).  An object lists its
    own properties, and the first entry of a name is the property.  Data
    holds no functions: [VFun name] is a built-in function of the engine,
    known by its name, which the program meets only as a member that its
    lookup tables inherit from [Object.prototype]. *)

Unset Elimination Schemes.
Inductive any : Type :=
| VUndef
| VNull
| VBool (b : bool)
| VNum (n : Z)
| VStr (s : string)
| VArr (items : list any)
| VObj (fields : list (string * any))
| VFun (name : string).
Set Elimination Schemes.

(** Structural induction that reaches the elements of arrays and the values
    of properties. *)
Definition any_ind (P : any -> Prop)
    (Hundef : P VUndef) (Hnull : P VNull)
    (Hbool : forall b, P (VBool b)) (Hnum : forall n, P (VNum n))
    (Hstr : forall s, P (VStr s))
    (Harr : forall items, Forall P items -> P (VArr items))
    (Hobj : forall fields, Forall (fun kv => P (snd kv)) fields -> P (VObj fields))
    (Hfun : forall name, P (VFun name))
  : forall v, P v :=
  fix go (v : any) : P v :=
    match v with
    | VUndef => Hundef
    | VNull => Hnull
    | VBool b => Hbool b
    | VNum n => Hnum n
    | VStr s => Hstr s
    | VArr items =>
        Harr items
          ((fix all (l : list any) : Forall P l :=
              match l with
              | [] => Forall_nil P
              | x :: r => Forall_cons x (go x) (all r)
              end) items)
    | VObj fields =>
        Hobj fields
          ((fix all (l : list (string * any)) : Forall (fun kv => P (snd kv)) l :=
              match l with
              | [] => Forall_nil _
              | kv :: r => Forall_cons kv (go (snd kv)) (all r)
              end) fields)
    | VFun name => Hfun name
    end.

(** [!!v] *)
Definition truthy (v : any) : bool :=
  match v with
  | VUndef | VNull => false
  | VBool b => b
  | VNum n => negb (n =? 0)%Z
  | VStr s => negb (s =? "")
  | VArr _ | VObj _ | VFun _ => true
  end.

(** [a || b] *)
Definition or_else (a b : any) : any := if truthy a then a else b.
Infix "|||" := or_else (at level 50, left associativity).

(** [v === 'text'] *)
Definition is_text (v : any) (text : string) : bool :=
  match v with
  | VStr s => s =? text
  | _ => false
  end.

(** [v == null] *)
Definition is_nullish (v : any) : bool :=
  match v with
  | VUndef | VNull => true
  | _ => false
  end.

Section WithField.
Context {A : Type} (k : string) (found : any -> A).
(** Reads property [k] of an object with the properties [fs] and hands it
    to [found]; [undefined] when the object has no such property.  The
    recursive renderers reach the children of a node through it. *)
Fixpoint with_field (fs : list (string * any)) : A :=
  match fs with
  | [] => found VUndef
  | (k', v) :: fs' => if k' =? k then found v else with_field fs'
  end.
End WithField.

(** The property [k] of an object with the properties [fs]. *)
Definition field (k : string) (fs : list (string * any)) : any :=
  with_field k (fun v => v) fs.

(** Has the object a property [k] of its own? *)
Definition has_field (k : string) (fs : list (string * any)) : bool :=
  existsb (fun kv => fst kv =? k) fs.

Arguments field : simpl never.
Arguments has_field : simpl never.

(** [v.k] for a [v] that is neither [null] nor [undefined].  The property
    names this program reads ([type], [text], [children], [name], ...) are
    no members of strings, numbers, booleans or arrays, and of a function
    only [name] is; so only an object, and a function asked for its name,
    answer with something else than [undefined]. *)
Definition prop (v : any) (k : string) : any :=
  match v with
  | VObj fs => field k fs
  | VFun name => if k =? "name" then VStr name else VUndef
  | _ => VUndef
  end.

(** [v.k]: reading a property of [null] or [undefined] throws. *)
Definition get (v : any) (k : string) : result any :=
  if is_nullish v then Throw TypeError else Ok (prop v k).

(** [v?.k] *)
Definition get_opt (v : any) (k : string) : any :=
  if is_nullish v then VUndef else prop v k.

(** [String(n)] for an integer, which as a safe integer of the source prints
    with all its digits. *)
Definition decimal (n : Z) : string := NilZero.string_of_int (Z.to_int n).

(** [String(v)], as template literals, [join] and property keys apply it.
    A data object prints as [[object Object]]; one that shadows [toString]
    with a property of its own cannot be converted.  A built-in function
    prints as Node.js shows its source. *)
Fixpoint to_string (v : any) : result string :=
  match v with
  | VUndef => Ok "undefined"
  | VNull => Ok "null"
  | VBool b => Ok (if b then "true" else "false")
  | VNum n => Ok (decimal n)
  | VStr s => Ok s
  | VArr items =>
      parts <- mapM (fun x => if is_nullish x then Ok "" else to_string x) items ;;
      Ok (join "," parts)
  | VObj fs => if has_field "toString" fs then Throw TypeError else Ok "[object Object]"
  | VFun name => Ok ("function " ++ name ++ "() { [native code] }")
  end.

(** [items.join(sep)]: [null] and [undefined] elements print as nothing. *)
Definition join_any (sep : string) (items : list any) : result string :=
  parts <- mapM (fun x => if is_nullish x then Ok "" else to_string x) items ;;
  Ok (join sep parts).

(** ** The lookup tables

    A table is an object literal of the source: the entries it lists, keyed
    by strings, are its own properties, and like every object literal it
    inherits the members of [Object.prototype]. *)

Definition table : Type := list (string * string).

(** The methods of [Object.prototype], by property name. *)
Definition OBJECT_METHODS : list string :=
  ["constructor"; "hasOwnProperty"; "isPrototypeOf"; "propertyIsEnumerable";
   "toLocaleString"; "toString"; "valueOf";
   "__defineGetter__"; "__defineSetter__"; "__lookupGetter__"; "__lookupSetter__"].

(** [Object.prototype[key]]: [constructor] is the function [Object], each
    other method is a function of its own name, and [__proto__] answers
    for an object literal with [Object.prototype] itself, an object none of
    whose properties this program reads and which prints as
    [[object Object]]. *)
Definition inherited (key : string) : any :=
  if key =? "constructor" then VFun "Object"
  else if existsb (String.eqb key) OBJECT_METHODS then VFun key
  else if key =? "__proto__" then VObj []
  else VUndef.

(** [TABLE[key]]: the entry of the table, or else the inherited member, or
    else [undefined]. *)
Definition table_get (t : table) (key : string) : any :=
  match find (fun kv => fst kv =? key) t with
  | Some kv => VStr (snd kv)
  | None => inherited key
  end.

(** [TABLE[v]]: the key is [v] converted to a string. *)
Definition index (t : table) (v : any) : result any :=
  key <- to_string v ;; Ok (table_get t key).

Definition STATE_TYPE_MAP : table :=
  [("1", "待处理"); ("2", "进行中"); ("3", "已完成"); ("4", "已关闭")].

Definition WORK_ITEM_TYPE_MAP : table :=
  [("2", "需求"); ("3", "用户故事"); ("4", "任务"); ("5", "缺陷"); ("6", "史诗")].

(** [PRIORITY_MAP] of [src/api/pingcode-client.ts] *)
Definition PRIORITY_MAP : table :=
  [("5cb9466afda1ce4ca0090001", "紧急");
   ("5cb9466afda1ce4ca0090002", "高");
   ("5cb9466afda1ce4ca0090003", "中");
   ("5cb9466afda1ce4ca0090004", "低")].

(** ** The host

    What the JavaScript engine and the tracker client contribute and this
    development does not look into. *)
Record Host : Type :=
  { (** [new Date(ms).toLocaleString('zh-CN', {year, month, day, hour, minute})]:
        the text depends on the time zone of the process *)
    toLocaleString : Z -> string;
    (** the outcome of [formatTimestamp] for a non-empty string, which the
        engine converts to a number first: a date and time, or the text of
        an invalid date; the conversion of a string never throws *)
    formatText : string -> string;
    (** the outcome of [formatTimestamp] for an array, an object or a
        function, after the engine's coercions *)
    formatCoerced : any -> result string;
    (** [error.message] *)
    messageOf : error -> string }.

(** ** The rich-text renderer *)

(** [`[图片](${url || ''})`] *)
Definition image_marker (url : any) : result any :=
  u <- to_string (url ||| VStr "") ;; Ok (VStr ("[图片](" ++ u ++ ")")).

(** [children.map(render).join(sep)] for a truthy [children]: calling [map]
    on anything but an array throws. *)
Definition map_join (render : any -> result any) (sep : string) (children : any)
  : result string :=
  match children with
  | VArr items => parts <- mapM render items ;; join_any sep parts
  | _ => Throw TypeError
  end.

(** [parseInlineElement] (lines 227-254).  The case of an object follows
    the source line by line; on [null] and [undefined] the first property
    read throws; on the other values every property read is [undefined]. *)
Fixpoint parseInlineElement (child : any) : result any :=
  match child with
  | VUndef | VNull => Throw TypeError
  | VObj fs =>
      let type := field "type" fs in
      if negb (truthy type) then Ok (field "text" fs ||| VStr "")
      else if is_text type "link" then
        joined <-
          match field "children" fs with
          | VUndef | VNull => Ok VUndef
          | VArr items =>
              texts <- mapM (fun c => t <- get c "text" ;; Ok (t ||| VStr "")) items ;;
              s <- join_any "" texts ;; Ok (VStr s)
          | _ => Throw TypeError
          end ;;
        linkText <- to_string (joined ||| field "url" fs) ;;
        url <- to_string (field "url" fs) ;;
        Ok (VStr ("[" ++ linkText ++ "](" ++ url ++ ")"))
      else if is_text type "mention" then
        who <- to_string (field "display_name" fs ||| field "text" fs ||| VStr "用户") ;;
        Ok (VStr ("@" ++ who))
      else if is_text type "image" then image_marker (field "url" fs)
      else
        with_field "children"
          (fun children =>
             if truthy children then
               match children with
               | VArr items =>
                   parts <- mapM parseInlineElement items ;;
                   s <- join_any "" parts ;; Ok (VStr s)
               | _ => Throw TypeError
               end
             else Ok (field "text" fs ||| VStr ""))
          fs
  | VBool _ | VNum _ | VStr _ | VArr _ | VFun _ =>
      (* every property read is [undefined]: [child.text || ''] *)
      Ok (VStr "")
  end.

(** The prefix of the list item at [index]. *)
Definition item_prefix (type : any) (index : nat) : string :=
  if is_text type "numbered-list" then decimal (Z.of_nat index + 1) ++ ". " else "- ".

(** [parseBlockElement] (lines 257-314). *)
Fixpoint parseBlockElement (block : any) : result any :=
  match block with
  | VUndef | VNull => Throw TypeError
  | VObj fs =>
      let type := field "type" fs in
      if negb (truthy type) then Ok (field "text" fs ||| VStr "")
      else if is_text type "paragraph" then
        if truthy (field "children" fs) then
          s <- map_join parseInlineElement "" (field "children" fs) ;; Ok (VStr s)
        else Ok (VStr "")
      else if is_text type "code" then
        lang <- to_string (field "language" fs ||| VStr "") ;;
        code <- to_string (field "content" fs ||| VStr "") ;;
        Ok (VStr ("```" ++ lang ++ nl ++ code ++ nl ++ "```"))
      else if is_text type "image" then image_marker (field "url" fs)
      else if is_text type "blockquote" then
        with_field "children"
          (fun children =>
             if truthy children then
               match children with
               | VArr items =>
                   parts <- mapM parseBlockElement items ;;
                   quoteContent <- join_any nl parts ;;
                   Ok (VStr (join nl (map (fun line => "> " ++ line)
                                          (split_lines quoteContent))))
               | _ => Throw TypeError
               end
             else Ok (VStr ""))
          fs
      else if is_text type "bulleted-list" || is_text type "numbered-list" then
        with_field "children"
          (fun children =>
             if truthy children then
               match children with
               | VArr items =>
                   lines <-
                     mapMi
                       (fun index item =>
                          let prefix := item_prefix type index in
                          match item with
                          | VUndef | VNull => Throw TypeError
                          | VObj ifs =>
                              with_field "children"
                                (fun grandchildren =>
                                   match grandchildren with
                                   | VUndef | VNull => Ok (prefix ++ "")
                                   | VArr subitems =>
                                       parts <- mapM parseBlockElement subitems ;;
                                       itemContent <- join_any "" parts ;;
                                       Ok (prefix ++ itemContent)
                                   | _ => Throw TypeError
                                   end)
                                ifs
                          | _ => Ok (prefix ++ "")
                          end)
                       0 items ;;
                   Ok (VStr (join nl lines))
               | _ => Throw TypeError
               end
             else Ok (VStr ""))
          fs
      else if is_text type "list-item" then
        with_field "children"
          (fun children =>
             if truthy children then
               match children with
               | VArr items =>
                   parts <- mapM parseBlockElement items ;;
                   s <- join_any "" parts ;; Ok (VStr s)
               | _ => Throw TypeError
               end
             else Ok (VStr ""))
          fs
      else
        if truthy (field "children" fs) then
          s <- map_join parseInlineElement "" (field "children" fs) ;; Ok (VStr s)
        else Ok (field "text" fs ||| field "content" fs ||| VStr "")
  | VBool _ | VNum _ | VStr _ | VArr _ | VFun _ =>
      (* every property read is [undefined]: [block.text || ''] *)
      Ok (VStr "")
  end.

(** [parseCommentContent] (lines 317-321): [Array.isArray(content)] fails
    for everything but an array, which is always truthy. *)
Definition parseCommentContent (content : any) : result string :=
  match content with
  | VArr blocks =>
      parts <- mapM parseBlockElement blocks ;;
      s <- join_any nl parts ;; Ok (trim s)
  | _ => Ok ""
  end.

(** ** The formatted record *)

Record FieldData : Type := { label : string; value : any }.

Record Attachment : Type := { name : any; url : any }.

Record Comment : Type := { author : any; time : string; content : string }.

Record WorkItemData : Type :=
  { id : FieldData;
    title : FieldData;
    type : FieldData;
    state : FieldData;
    priority : FieldData;
    assignee : FieldData;
    createdBy : FieldData;
    createdAt : FieldData;
    updatedAt : FieldData;
    description : FieldData;
    attachments : list Attachment;
    comments : list Comment }.

(** The ten label/value pairs of a formatted record. *)
Definition entries (data : WorkItemData) : list FieldData :=
  [id data; title data; type data; state data; priority data; assignee data;
   createdBy data; createdAt data; updatedAt data; description data].

(** [html.replace(...)] exists on strings only. *)
Definition stripHtml_any (html : any) : result string :=
  match html with
  | VStr s => Ok (stripHtml s)
  | _ => if truthy html then Throw TypeError else Ok ""
  end.

(** [(v || []).map(f)] *)
Definition map_or_empty {B : Type} (f : any -> result B) (v : any) : result (list B) :=
  match v ||| VArr [] with
  | VArr items => mapM f items
  | _ => Throw TypeError
  end.

Section Formatter.
Context (host : Host).

(** [formatTimestamp] (lines 22-32) *)
Definition formatTimestamp (ts : any) : result string :=
  if negb (truthy ts) then Ok "" else
  match ts with
  | VNum n =>
      let ms := if (n >? 10 ^ 12)%Z then n else (n * 1000)%Z in
      Ok (toLocaleString host ms)
  | VBool b =>
      (* [true] counts as the number 1, [false] as 0 *)
      Ok (toLocaleString host (if b then 1000 else 0)%Z)
  | VStr s => Ok (formatText host s)
  | _ => formatCoerced host ts
  end.

(** The local constants of [formatWorkItem] (lines 116-174): [id],
    [typeName], [stateName], [priorityName] and [assigneeName]. *)
Definition idOf (item : any) : result any :=
  if truthy (prop item "whole_identifier" ||| prop item "identifier")
  then Ok (prop item "whole_identifier" ||| prop item "identifier")
  else s <- to_string (prop item "identifier") ;; Ok (VStr ("#" ++ s)).

Definition typeName (item : any) : result any :=
  match prop item "type" with
  | VNum n => t <- index WORK_ITEM_TYPE_MAP (VNum n) ;; Ok (t ||| VStr "工作项")
  | t => Ok (get_opt t "display_name" ||| get_opt t "name" ||| VStr "未知")
  end.

Definition stateName (item : any) : result any :=
  let named := get_opt (prop item "state") "display_name"
               ||| get_opt (prop item "state") "name" in
  if truthy named then Ok named
  else t <- index STATE_TYPE_MAP (prop item "state_type") ;; Ok (t ||| VStr "未知").

Definition priorityName (item : any) : result any :=
  let p := prop item "priority" in
  if truthy p
  then t <- index PRIORITY_MAP p ;; Ok (t ||| get_opt p "name" ||| VStr "未设置")
  else Ok (VStr "未设置").

Definition assigneeName (item : any) : any :=
  if truthy (prop item "assignee_name") then prop item "assignee_name"
  else
    match prop item "assignee" with
    | (VObj _ | VArr _) as a => prop a "display_name" ||| prop a "name" ||| VStr "未设置"
    | _ => VStr "未设置"
    end.

(** The functions mapped over the attachments and the comments. *)
Definition formatAttachment (att : any) : result Attachment :=
  n <- get att "name" ;;
  Ok {| name := n ||| prop att "filename" ||| VStr "附件";
        url := prop att "url" ||| prop att "download_url" ||| VStr "" |}.

Definition formatComment (comment : any) : result Comment :=
  by_name <- get comment "created_by_name" ;;
  t <- formatTimestamp (prop comment "created_at") ;;
  c <- parseCommentContent (prop comment "content") ;;
  Ok {| author := by_name ||| VStr "用户"; time := t; content := c |}.

(** [formatWorkItem] (lines 116-174) *)
Definition formatWorkItem (item : any) : result WorkItemData :=
  if is_nullish item then Throw TypeError else
  idValue <- idOf item ;;
  typeValue <- typeName item ;;
  stateValue <- stateName item ;;
  priorityValue <- priorityName item ;;
  let assigneeValue := assigneeName item in
  let createdByName := prop item "created_by_name" ||| VStr "" in
  descriptionText <-
    (if truthy (prop item "description")
     then stripHtml_any (prop item "description") else Ok "") ;;
  attachmentList <- map_or_empty formatAttachment (prop item "attachments") ;;
  commentList <- map_or_empty formatComment (prop item "comments") ;;
  created <-
    (if truthy (prop item "created_at")
     then formatTimestamp (prop item "created_at") else Ok "") ;;
  updated <-
    (if truthy (prop item "updated_at")
     then formatTimestamp (prop item "updated_at") else Ok "") ;;
  Ok {| id := {| label := "编号"; value := idValue |};
        title := {| label := "标题"; value := prop item "title" ||| VStr "" |};
        type := {| label := "类型"; value := typeValue |};
        state := {| label := "状态"; value := stateValue |};
        priority := {| label := "优先级"; value := priorityValue |};
        assignee := {| label := "负责人"; value := assigneeValue |};
        createdBy := {| label := "创建人"; value := createdByName |};
        createdAt := {| label := "创建时间"; value := VStr created |};
        updatedAt := {| label := "更新时间"; value := VStr updated |};
        description := {| label := "描述"; value := VStr descriptionText |};
        attachments := attachmentList;
        comments := commentList |}.
End Formatter.

(** ** The record projector: one markdown document *)

(** [`- **${f.label}**: ${f.value}`] *)
Definition bullet (f : FieldData) : result string :=
  v <- to_string (value f) ;; Ok ("- **" ++ label f ++ "**: " ++ v).

(** The line pushed for [f] when its value is truthy. *)
Definition bullet_if_set (f : FieldData) : result (list string) :=
  if truthy (value f) then l <- bullet f ;; Ok [l] else Ok [].

Definition attachment_line (att : Attachment) : result string :=
  n <- to_string (name att) ;;
  if truthy (url att)
  then u <- to_string (url att) ;; Ok ("- [" ++ n ++ "](" ++ u ++ ")")
  else Ok ("- " ++ n).

Definition comment_lines (index : nat) (comment : Comment) : result (list string) :=
  a <- to_string (author comment) ;;
  Ok ["**" ++ decimal (Z.of_nat index + 1) ++ ". " ++ a ++ "** (" ++ time comment ++ "):";
      "> " ++ content comment;
      ""].

(** [getWorkItemString] (lines 179-224): the pushed lines, joined. *)
Definition getWorkItemString (data : WorkItemData) : result string :=
  idText <- to_string (value (id data)) ;;
  titleText <- to_string (value (title data)) ;;
  typeLine <- bullet (type data) ;;
  stateLine <- bullet (state data) ;;
  priorityLine <- bullet (priority data) ;;
  assigneeLine <- bullet (assignee data) ;;
  createdByLine <- bullet_if_set (createdBy data) ;;
  createdAtLine <- bullet_if_set (createdAt data) ;;
  updatedAtLine <- bullet_if_set (updatedAt data) ;;
  descriptionLines <-
    (if truthy (value (description data))
     then d <- to_string (value (description data)) ;;
          Ok [""; "### " ++ label (description data); ""; d]
     else Ok []) ;;
  attachmentLines <-
    (match attachments data with
     | [] => Ok []
     | atts => ls <- mapM attachment_line atts ;; Ok (List.app [""; "### 附件"; ""] ls)
     end) ;;
  commentLines <-
    (match comments data with
     | [] => Ok []
     | cs =>
         ls <- mapMi comment_lines 0 cs ;;
         Ok (List.app
               [""; "### 评论 (" ++ decimal (Z.of_nat (List.length cs)) ++ ")"; ""]
               (List.concat ls))
     end) ;;
  Ok (join nl
        (List.concat
           [["## " ++ idText ++ " - " ++ titleText; "";
             typeLine; stateLine; priorityLine; assigneeLine];
            createdByLine; createdAtLine; updatedAtLine;
            descriptionLines; attachmentLines; commentLines])).

(** ** The directive generator and the tool entry point *)

Inductive Mode : Type := single_task | none.

Inductive CommitOption : Type := use_suggested | user_provided | skip.

Record CommitDirective : Type :=
  { suggested_message : string;
    options : list CommitOption }.

Record AiDirectives : Type :=
  { mode : Mode;
    work_item_id : any;
    stop_after_fix : bool;
    ask_commit_after_fix : bool;
    wait_user_reply_before_next_item : bool;
    forbidden_actions : list string;
    required_first_output : string;
    commit : CommitDirective }.

Inductive ActionType : Type := announce_single_task_mode | commit_decision_after_fix.

Record NextRequiredAction : Type :=
  { action_type : ActionType;
    blocked_until_user_reply : bool;
    required_output : option string }.

(** What [getWorkItem] resolves to; an absent property is [None]. *)
Record GetWorkItemResult : Type :=
  { success : bool;
    data : option string;
    workItem : option WorkItemData;
    aiDirectives : option AiDirectives;
    nextRequiredAction : option NextRequiredAction;
    error_text : option string }.

Definition failure (message : string) : GetWorkItemResult :=
  {| success := false; data := None; workItem := None; aiDirectives := None;
     nextRequiredAction := None; error_text := Some message |}.

(** [typeMap] of [getWorkItem]: the commit type suggested for a type label. *)
Definition typeMap : table :=
  [("缺陷", "fix"); ("需求", "feat"); ("用户故事", "feat"); ("任务", "chore");
   ("史诗", "feat")].

(** The lines of the root-cause-analysis protocol. *)
Definition BUG_ANALYSIS_LINES : list string :=
  ["";
   "🐛 **[缺陷分析流程 - 强制执行]**";
   "";
   "## 核心原则：证据驱动，禁止假设";
   "";
   "### 第一步：穷举现象 → 提取搜索词";
   "从标题/截图/日志/描述/评论中提取**所有**异常（不能只看最明显的）。";
   "每个现象提取 1-2 个**代码搜索关键词**（函数名、错误信息、变量名等）。";
   "";
   "### 第二步：筛选相关现象";
   "问自己：这个异常**是否会导致**用户最终看到的问题？";
   "- 如果能建立因果链 → 保留，继续分析";
   "- 如果只是时间上巧合 → 标记为" ++ dq ++ "疑似无关" ++ dq ++ "，暂时跳过";
   "- 不确定 → 先分析最明显相关的，再回头验证";
   "";
   "### 第三步：定位直接代码";
   "用筛选后的关键词搜索代码，找到**直接产生**该现象的代码行。";
   "搜索范围要足够广，不要局限在你假设的位置。";
   "";
   "### 第四步：向上追溯调用链";
   "从第三步的代码向上追溯：谁调用了它？在什么条件下触发？";
   "直到找到**用户操作**或**外部输入**为止。";
   "";
   "### 第五步：验证因果关系";
   "**关键验证**：这条调用链走到底，是否**真的会产生**用户看到的最终现象？";
   "- 如果是 → 进入修复";
   "- 如果不是 → 回到第一步，分析其他现象";
   "";
   "### 第六步：确定阻断点并修复";
   "在调用链中选择**最合适的阻断点**进行修复。";
   "";
   "---";
   "";
   "## 追踪链强制输出（修复前必须完成）";
   "";
   "```";
   "最终现象：[用户实际看到的问题是什么]";
   "相关异常：[哪些日志/报错与最终现象有因果关系]";
   "排除异常：[哪些报错判断为无关，为什么]";
   "搜索词：[用于代码搜索的关键词]";
   "直接代码：[file:line - 哪行代码产生了这个现象]";
   "调用链：[调用者1] → [调用者2] → [直接代码]";
   "因果验证：[这条链如何导致最终现象]";
   "阻断点：[在哪里修复，为什么选这里]";
   "```";
   "";
   "⛔ **禁止**：";
   "- 追踪链未完成就给修复方案";
   "- 追踪链中出现" ++ dq ++ "可能" ++ dq ++ "、" ++ dq ++ "也许" ++ dq ++ "、" ++ dq ++ "应该是" ++ dq;
   "- 跳过搜索直接假设问题位置";
   "- 把时间上巧合的报错当作原因";
   ""].

(** [bugAnalysisPrompt]: the protocol for a bug, nothing otherwise. *)
Definition bugAnalysisPrompt (isBug : bool) : string :=
  if isBug then join nl BUG_ANALYSIS_LINES else "".

(** [aiPrompt]: the directive block in front of the formatted record. *)
Definition aiPrompt (isBug : bool) (requiredFirstOutput suggestedMsg : string) : string :=
  join nl
    ["---";
     "🛑🛑🛑 **[AI 强制指令 - 必须首先执行]** 🛑🛑🛑";
     "";
     "以下规则是 pingcode-mcp 的交互协议（不是普通备注）。";
     bugAnalysisPrompt isBug;
     "**单任务模式已激活，违反以下规则将导致工作流失败：**";
     "1. **STOP**：完成本工作项的代码修改后，必须立即停止所有操作";
     "2. **ASK**：停止后必须询问用户是否创建 commit（提供：使用建议 / 用户输入 / 不提交）";
     "3. **WAIT**：必须等待用户回复后，才能处理下一个工作项";
     "4. **禁止**：禁止同时修改多个工作项；禁止批量完成后统一询问；禁止在用户回复前获取下一个工作项";
     "";
     "**开始前确认**：AI 必须先输出 " ++ dq ++ requiredFirstOutput ++ dq;
     "";
     "**内容解析**：描述与评论冲突以评论为准；多条更新按时间倒序；图片可能包含关键信息";
     "";
     "**Commit 信息**：";
     "- 建议 commit：" ++ suggestedMsg;
     "---";
     ""].

Section Tool.
Context (host : Host).

(** The body of the [try] block once the client has answered with [item]. *)
Definition present (identifier : string) (item : any) : result GetWorkItemResult :=
if negb (truthy item)
then Ok (failure ("未找到编号为 " ++ identifier ++ " 的工作项"))
else
  workItem <- formatWorkItem host item ;;
  mapped <- index typeMap (value (type workItem)) ;;
  suggestedType <- to_string (mapped ||| VStr "chore") ;;
  idText <- to_string (value (id workItem)) ;;
  titleText <- to_string (value (title workItem)) ;;
  let suggestedMsg := "#" ++ idText ++ " " ++ suggestedType ++ ": " ++ titleText in
  let requiredFirstOutput :=
    "🔒 单任务模式：处理 " ++ idText ++ "，完成后立即询问 commit" in
  let directives :=
    {| mode := single_task;
       work_item_id := value (id workItem);
       stop_after_fix := true;
       ask_commit_after_fix := true;
       wait_user_reply_before_next_item := true;
       forbidden_actions :=
         ["get_other_work_item_before_commit_decision";
          "batch_fetch_multiple_work_items_in_parallel";
          "modify_multiple_work_items"];
       required_first_output := requiredFirstOutput;
       commit := {| suggested_message := suggestedMsg;
                    options := [use_suggested; user_provided; skip] |} |} in
  let isBug := is_text (value (type workItem)) "缺陷" in
  document <- getWorkItemString workItem ;;
  Ok {| success := true;
        data := Some (aiPrompt isBug requiredFirstOutput suggestedMsg ++ document);
        workItem := Some workItem;
        aiDirectives := Some directives;
        nextRequiredAction :=
          Some {| action_type := announce_single_task_mode;
                  blocked_until_user_reply := false;
                  required_output := Some requiredFirstOutput |};
        error_text := None |}.

(** [getWorkItem(identifier)], given what
  [pingcodeClient.getWorkItemWithDetails(identifier)] came back with: every
  exception ends in the [catch] clause. *)
Definition getWorkItem (fetched : result any) (identifier : string) : GetWorkItemResult :=
match item <- fetched ;; present identifier item with
| Ok r => r
| Throw e => failure (messageOf host e)
end.
End Tool.

(** * The other tools, the tracker client and the stored credentials

    The tools of [src/tools/work-items.ts] beside [getWorkItem], the methods
    of [PingCodeClient] ([src/api/pingcode-client.ts]) that prepare their
    data, the validity rules of [src/utils/credentials.js] and the
    credentials that [login] ([src/tools/login.ts]) stores.  What a function
    learns from the network, the clock, the browser or the credentials file
    is a parameter of its embedding; an array that the source declares as
    one ([WorkItem[]], [any[]], [CookieData[]]) is a list. *)

(** ** Substrings and identifiers *)

(** [s.includes(sub)] *)
Fixpoint includes (s sub : string) : bool :=
  prefix sub s
  || match s with
     | String _ rest => includes rest sub
     | "" => false
     end.

(** [identifier.replace(/^#/, '').trim()], the [cleanId] of the client's
    methods (lines 56, 426, 452 and 478): one [#] goes, and only from the
    very start. *)
Definition cleanId (identifier : string) : string :=
  trim (match identifier with
        | String c rest => if Ascii.eqb c "#" then rest else identifier
        | "" => ""
        end).

(** [s.split('-')[0]]: what [s] has in front of its first [-]. *)
Fixpoint before_dash (s : string) : string :=
  match s with
  | String c rest => if Ascii.eqb c "-" then "" else String c (before_dash rest)
  | "" => ""
  end.

(** The [projectIdentifier] of [getWorkItemWithDetails] (lines 338-340). *)
Definition projectIdentifierOf (identifier : string) : string :=
  if includes identifier "-" then before_dash identifier else "LFY".

(** ** The stored credentials: the interfaces [Credentials] and [CookieData] *)

Module CookieData.
Inductive SameSite : Type := Strict | Lax | NoRestriction.

(** An optional property is an [option]; [expires] counts whole seconds. *)
Record t : Type :=
  { name : string;
    value : string;
    domain : string;
    path : string;
    expires : option Z;
    httpOnly : option bool;
    secure : option bool;
    sameSite : option SameSite }.
End CookieData.

Module Credentials.
Record User : Type := { id : string; name : string }.

Record t : Type :=
  { cookies : list CookieData.t;
    domain : string;
    saved_at : Z;
    expires_at : option Z;
    user : option User }.
End Credentials.

(** Is [name] the name of a key cookie?  (The predicate of [some], line 65.) *)
Definition key_cookie (c : CookieData.t) : bool :=
  includes (CookieData.name c) "pingcode"
  || includes (CookieData.name c) "session"
  || includes (CookieData.name c) "token".

(** [isCredentialsValid] ([src/utils/credentials.js], lines 62-76), where
    [now] is what [Date.now()] reads and [None] is [null]. *)
Definition isCredentialsValid (now : Z) (credentials : option Credentials.t) : bool :=
  match credentials with
  | None => false
  | Some c =>
      if (List.length (Credentials.cookies c) =? 0)%nat then false
      else if negb (existsb key_cookie (Credentials.cookies c)) then false
      else
        match Credentials.expires_at c with
        | Some e => if negb (e =? 0)%Z && (now >? e)%Z then false else true
        | None => true
        end
  end.

(** [cookiesToHeader] (lines 80-82) *)
Definition cookiesToHeader (cookies : list CookieData.t) : string :=
  join "; " (map (fun c => CookieData.name c ++ "=" ++ CookieData.value c) cookies).

(** ** The credentials that [login] stores ([src/tools/login.ts]) *)

(** [expiresAt] (lines 130-136): the [reduce] over the cookies, started at
    seven days from [now]. *)
Definition expiresAtOf (now : Z) (pingcodeCookies : list CookieData.t) : Z :=
  fold_left
    (fun min c =>
       match CookieData.expires c with
       | Some e =>
           if negb (e =? 0)%Z && (e >? 0)%Z
           then let expMs := (e * 1000)%Z in if (expMs <? min)%Z then expMs else min
           else min
       | None => min
       end)
    pingcodeCookies
    (now + 7 * 24 * 60 * 60 * 1000)%Z.

(** Lines 108-147 of [login]: what is stored once the browser has handed
    over its [cookies], or [None] when the function gives up with
    [未能获取有效的登录凭证].  [now] and [savedAt] are the two readings of the
    clock; the [map] of line 111 copies the eight properties of a cookie. *)
Definition loginCredentials (PINGCODE_DOMAIN : string) (now savedAt : Z)
    (currentUser : option Credentials.User) (cookies : list CookieData.t)
  : option Credentials.t :=
  let pingcodeCookies :=
    filter (fun c => includes (CookieData.domain c) "pingcode.com") cookies in
  if (List.length pingcodeCookies =? 0)%nat then None
  else Some {| Credentials.cookies := pingcodeCookies;
               Credentials.domain := PINGCODE_DOMAIN;
               Credentials.saved_at := savedAt;
               Credentials.expires_at := Some (expiresAtOf now pingcodeCookies);
               Credentials.user := currentUser |}.

(** ** What a tool answers: [{ success, data?, error? }] *)

Module Reply.
Record t : Type :=
  { success : bool;
    data : option string;
    error : option string }.
End Reply.

Definition succeed (text : string) : Reply.t :=
  {| Reply.success := true; Reply.data := Some text; Reply.error := None |}.

Definition fail (message : string) : Reply.t :=
  {| Reply.success := false; Reply.data := None; Reply.error := Some message |}.

(** [items.filter(p)] and [items.find(p)] for a predicate that may throw;
    [find] answers [undefined] when nothing passes. *)
Section Select.
Context (p : any -> result bool).

Fixpoint filterM (l : list any) : result (list any) :=
  match l with
  | [] => Ok []
  | x :: r =>
      keep <- p x ;; rest <- filterM r ;; Ok (if keep then x :: rest else rest)
  end.

Fixpoint findM (l : list any) : result any :=
  match l with
  | [] => Ok VUndef
  | x :: r => hit <- p x ;; if hit then Ok x else findM r
  end.
End Select.

(** ** [Map]: the member directory

    The entries in the order of their insertion.  Keys are compared as
    [Map] does; an object or an array is a key by identity, and the data of
    two answers of the tracker shares no object, so such a key equals no
    other; a built-in function is the same wherever it is met. *)
Definition Map : Type := list (any * any).

Definition same_value (a b : any) : bool :=
  match a, b with
  | VUndef, VUndef | VNull, VNull => true
  | VBool x, VBool y => Bool.eqb x y
  | VNum x, VNum y => (x =? y)%Z
  | VStr x, VStr y => x =? y
  | VFun x, VFun y => x =? y
  | _, _ => false
  end.

(** [m.get(k)] *)
Definition map_get (m : Map) (k : any) : any :=
  match find (fun kv => same_value (fst kv) k) m with
  | Some kv => snd kv
  | None => VUndef
  end.

(** [m.set(k, v)] *)
Fixpoint map_set (m : Map) (k v : any) : Map :=
  match m with
  | [] => [(k, v)]
  | (k', v') :: rest =>
      if same_value k' k then (k', v) :: rest else (k', v') :: map_set rest k v
  end.

(** [o.k = v] on the properties of an object. *)
Fixpoint assign (k : string) (v : any) (fs : list (string * any)) : list (string * any) :=
  match fs with
  | [] => [(k, v)]
  | (k', v') :: rest =>
      if k' =? k then (k', v) :: rest else (k', v') :: assign k v rest
  end.

(** [item.k = v]; this program assigns to objects only. *)
Definition set_prop (item : any) (k : string) (v : any) : any :=
  match item with
  | VObj fs => VObj (assign k v fs)
  | _ => item
  end.

(** ** The tracker client ([src/api/pingcode-client.ts]) *)

(** An exchange with the tracker: the response of axios, or the error it
    rejects with and the [error.response?.status] of that error. *)
Inductive http : Type :=
| Answered (response : any)
| Refused (status : option Z) (e : error).

(** [error.response?.status === code] *)
Definition status_is (code : Z) (status : option Z) : bool :=
  match status with
  | Some n => (n =? code)%Z
  | None => false
  end.

Module ItemType.
Inductive t : Type := bug | story | all.
End ItemType.

Module PingCodeClient.

(** The predicate of the [filter] of [getReleaseWorkItems] (lines 132-142);
    [toLowerCase] is the engine's. *)
Section FilterByType.
Context (toLowerCase : string -> string).

Definition keeps (itemType : ItemType.t) (item : any) : result bool :=
  typeNum <- get item "type" ;;
  typeName <-
    match get_opt typeNum "name" with
    | VUndef | VNull => Ok VUndef
    | VStr s => Ok (VStr (toLowerCase s))
    | _ => Throw TypeError
    end ;;
  match itemType with
  | ItemType.bug =>
      Ok (same_value typeNum (VNum 5) || is_text typeName "bug" || is_text typeName "缺陷")
  | ItemType.story =>
      Ok (same_value typeNum (VNum 3) || is_text typeName "story"
          || is_text typeName "需求" || is_text typeName "用户故事")
  | ItemType.all => Ok true
  end.

(** Lines 131-143: the items that [getReleaseWorkItems] hands on. *)
Definition filterByType (itemType : option ItemType.t) (items : list any)
  : result (list any) :=
  match itemType with
  | Some ItemType.all | None => Ok items
  | Some t => filterM (keeps t) items
  end.
End FilterByType.

(** The loop of [getProjectMembers] (lines 315-319).  When reading a member
    throws, the [catch] of line 320 keeps what the map holds by then. *)
Fixpoint collect (memberMap : Map) (members : list any) : Map :=
  match members with
  | [] => memberMap
  | m :: rest =>
      match get m "uid" with
      | Throw _ => memberMap
      | Ok uid =>
          if truthy uid && truthy (prop m "display_name")
          then collect (map_set memberMap uid (prop m "display_name")) rest
          else collect memberMap rest
      end
  end.

(** [item.to = members.get(item.from) || null] when [item.from] is a
    non-empty string (lines 346-348, 351-353 and 358-360). *)
Definition fill_name (members : Map) (from to : string) (item : any) : any :=
  match prop item from with
  | VStr s =>
      if truthy (VStr s)
      then set_prop item to (map_get members (VStr s) ||| VNull)
      else item
  | _ => item
  end.

(** The methods, for a reading [now] of the clock, the [credentials] that
    [loadCredentials] finds ([None] for [null]) and the tracker, which
    answers the [GET] of a path under a [Cookie] header. *)
Section Client.
Context (now : Z) (credentials : option Credentials.t)
        (request : string -> string -> http).

(** [getAuthHeaders] (lines 38-46): the [Cookie] header. *)
Definition getAuthHeaders : result string :=
  match credentials with
  | Some c =>
      if negb (isCredentialsValid now credentials)
      then Throw (Rejected "未登录，请先调用 login 工具进行登录")
      else Ok (cookiesToHeader (Credentials.cookies c))
  | None => Throw (Rejected "未登录，请先调用 login 工具进行登录")
  end.

(** [getWorkItem] (lines 52-79) *)
Definition getWorkItem (identifier : string) : result any :=
  headers <- getAuthHeaders ;;
  match request ("/api/agile/work-items/" ++ cleanId identifier) headers with
  | Answered response =>
      d <- get response "data" ;;
      let item := get_opt (get_opt d "data") "value" ||| get_opt d "value" ||| d in
      if truthy item && truthy (prop item "_id") then Ok item else Ok VNull
  | Refused status e =>
      if status_is 401 status
      then Throw (Rejected "登录已过期，请重新调用 login 工具登录")
      else if status_is 404 status then Ok VNull
      else Throw e
  end.

(** [getProjectId] (lines 84-97) *)
Definition getProjectId (identifier : string) : result any :=
  headers <- getAuthHeaders ;;
  match request ("/api/agile/projects/" ++ identifier) headers with
  | Answered response =>
      match get response "data" with
      | Ok d =>
          Ok (get_opt (get_opt (get_opt d "data") "value") "_id"
              ||| get_opt d "_id" ||| VNull)
      | Throw _ => Ok VNull
      end
  | Refused _ _ => Ok VNull
  end.

(** [getCurrentUser] (lines 202-209) *)
Definition getCurrentUser : option Credentials.User :=
  match credentials with
  | Some c => Credentials.user c
  | None => None
  end.

(** [getProjectMembers] (lines 301-325).  Only an array is iterated to any
    effect: a string yields characters, which have no [uid], and nothing
    else can be iterated. *)
Definition getProjectMembers (projectIdentifier : string) : result Map :=
  headers <- getAuthHeaders ;;
  match
    (projectId <- getProjectId projectIdentifier ;;
     if negb (truthy projectId) then Ok [] else
     pid <- to_string projectId ;;
     match request ("/api/agile/projects/" ++ pid ++ "/members") headers with
     | Answered response =>
         d <- get response "data" ;;
         match get_opt (get_opt d "data") "value" ||| VArr [] with
         | VArr members => Ok (collect [] members)
         | VStr _ => Ok []
         | _ => Throw TypeError
         end
     | Refused _ e => Throw e
     end)
  with
  | Ok memberMap => Ok memberMap
  | Throw _ => Ok []
  end.

(** [getWorkItemWithDetails] (lines 330-370); [processDescriptionImages]
    downloads the images of a description and answers with the description
    that points to the copies. *)
Definition getWorkItemWithDetails
    (processDescriptionImages : string -> string -> result string)
    (identifier : string) : result any :=
  item <- getWorkItem identifier ;;
  if negb (truthy item) then Ok VNull else
  members <- getProjectMembers (projectIdentifierOf identifier) ;;
  let item := fill_name members "assignee" "assignee_name" item in
  let item := fill_name members "created_by" "created_by_name" item in
  item <-
    match prop item "comments" with
    | VArr cs =>
        cs' <- mapM (fun comment =>
                       _ <- get comment "created_by" ;;
                       Ok (fill_name members "created_by" "created_by_name" comment))
                    cs ;;
        Ok (set_prop item "comments" (VArr cs'))
    | _ => Ok item
    end ;;
  if truthy (prop item "description") then
    match prop item "description" with
    | VStr d =>
        d' <- processDescriptionImages d identifier ;;
        Ok (set_prop item "description" (VStr d'))
    | _ => Throw TypeError
    end
  else Ok item.
End Client.

End PingCodeClient.

(** ** The release listing: [getReleaseItems] (lines 482-565) *)

(** [i.type === n] *)
Definition type_is (n : Z) (i : any) : result bool :=
  t <- get i "type" ;; Ok (same_value t (VNum n)).

(** The predicates of the three groups (lines 511-513). *)
Definition isBug (i : any) : result bool := type_is 5 i.

Definition isStory (i : any) : result bool :=
  three <- type_is 3 i ;; if three then Ok true else type_is 2 i.

Definition isOther (i : any) : result bool :=
  five <- type_is 5 i ;;
  if five then Ok false else
  three <- type_is 3 i ;;
  if three then Ok false else
  two <- type_is 2 i ;; Ok (negb two).

(** [bugs], [stories] and [others] *)
Definition groups (items : list any) : result (list any * list any * list any) :=
  bugs <- filterM isBug items ;;
  stories <- filterM isStory items ;;
  others <- filterM isOther items ;;
  Ok (bugs, stories, others).

(** [getId] (line 518) *)
Definition getId (item : any) : result any :=
  whole <- get item "whole_identifier" ;;
  if truthy whole then Ok whole
  else s <- to_string (prop item "identifier") ;; Ok (VStr ("#" ++ s)).

(** [getState] (lines 520-525) *)
Definition getState (item : any) : result any :=
  st <- get item "state" ;;
  if truthy (get_opt st "display_name" ||| get_opt st "name")
  then Ok (prop st "display_name" ||| prop st "name")
  else t <- index STATE_TYPE_MAP (prop item "state_type") ;; Ok (t ||| VStr "未知").

(** [currentUser?.id || ''] (line 507) *)
Definition currentUserIdOf (currentUser : option Credentials.User) : string :=
  match currentUser with
  | Some u => if Credentials.id u =? "" then "" else Credentials.id u
  | None => ""
  end.

Section Assignee.
Context (members : Map) (currentUserId : string).

(** [getAssignee] (lines 527-534) *)
Definition getAssignee (item : any) : result any :=
  a <- get item "assignee" ;;
  let assigneeId :=
    match a with
    | VStr _ => a
    | _ => get_opt a "_id" ||| get_opt a "id"
    end in
  if negb (truthy assigneeId) then Ok (VStr "未分配") else
  let name := map_get members assigneeId ||| VStr "未知" in
  if is_text assigneeId currentUserId
  then n <- to_string name ;; Ok (VStr (n ++ "(我)"))
  else Ok name.

(** [formatItem] (lines 536-538) *)
Definition formatItem (item : any) : result string :=
  i <- getId item ;;
  iText <- to_string i ;;
  titleText <- to_string (prop item "title") ;;
  s <- getState item ;;
  sText <- to_string s ;;
  a <- getAssignee item ;;
  aText <- to_string a ;;
  Ok ("- **" ++ iText ++ "** " ++ titleText ++ " | " ++ sText ++ " | " ++ aText).

(** The lines pushed for a group that is not empty (lines 540-553). *)
Definition group_lines (heading : string) (group : list any) : result (list string) :=
  if (0 <? List.length group)%nat then
    rendered <- mapM formatItem group ;;
    Ok (List.app
          [""; "## " ++ heading ++ " (" ++ decimal (Z.of_nat (List.length group)) ++ ")"; ""]
          rendered)
  else Ok [].
End Assignee.

Section Tools.
Context (host : Host).

(** [getReleaseItems], given what [getReleaseWorkItems], [getCurrentUser]
    and [getProjectMembers] came back with. *)
Definition getReleaseItems (items : result (list any))
    (currentUser : option Credentials.User) (members : result Map) : Reply.t :=
  match
    (all <- items ;;
     if (List.length all =? 0)%nat then Ok (succeed "该发布版本没有关联的工作项") else
     let currentUserId := currentUserIdOf currentUser in
     directory <- members ;;
     grouped <- groups all ;;
     let '(bugs, stories, others) := grouped in
     bugLines <- group_lines directory currentUserId "缺陷" bugs ;;
     storyLines <- group_lines directory currentUserId "需求" stories ;;
     otherLines <- group_lines directory currentUserId "其他" others ;;
     Ok (succeed
           (join nl
              (List.concat
                 [["# 发布版本工作项列表"; "";
                   "共 " ++ decimal (Z.of_nat (List.length all)) ++ " 项"];
                  bugLines; storyLines; otherLines]))))
  with
  | Ok r => r
  | Throw e => fail (messageOf host e)
  end.

(** ** Changing the state of a work item: [updateWorkItemState] (lines 707-755) *)

(** [v?.includes(stateName)]: strings and arrays have the method. *)
Definition includes_opt (v : any) (stateName : string) : result any :=
  match v with
  | VUndef | VNull => Ok VUndef
  | VStr s => Ok (VBool (includes s stateName))
  | VArr items => Ok (VBool (existsb (fun x => is_text x stateName) items))
  | _ => Throw TypeError
  end.

(** The predicate of [find] (lines 727-732). *)
Definition state_matches (stateName : string) (s : any) : result bool :=
  name <- get s "name" ;;
  if is_text name stateName then Ok true else
  if is_text (prop s "display_name") stateName then Ok true else
  byName <- includes_opt name stateName ;;
  if truthy byName then Ok true else
  byDisplayName <- includes_opt (prop s "display_name") stateName ;;
  Ok (truthy byDisplayName).

(** [states.map(s => s.display_name || s.name).join('、')] *)
Definition availableStates (states : list any) : result string :=
  labels <- mapM (fun s => d <- get s "display_name" ;; Ok (d ||| prop s "name")) states ;;
  join_any "、" labels.

(** [updateWorkItemState], given the states that [getSelectableStates] came
    back with and, for a state id, the outcome of the client's update.  The
    result comes with the ids the client was asked to set, in order. *)
Definition updateWorkItemState (states : result (list any)) (update : any -> result any)
    (workItemId stateName : string) : list any * Reply.t :=
  match states with
  | Throw e => ([], fail (messageOf host e))
  | Ok all =>
      if (List.length all =? 0)%nat
      then ([], fail ("工作项 " ++ workItemId ++ " 没有可用的状态选项"))
      else
        match findM (state_matches stateName) all with
        | Throw e => ([], fail (messageOf host e))
        | Ok targetState =>
            if negb (truthy targetState) then
              match availableStates all with
              | Throw e => ([], fail (messageOf host e))
              | Ok labels =>
                  ([], fail ("未找到名为 " ++ dq ++ stateName ++ dq
                             ++ " 的状态。可用状态: " ++ labels))
              end
            else
              let stateId := prop targetState "_id" in
              match update stateId with
              | Throw e => ([stateId], fail (messageOf host e))
              | Ok _ =>
                  match to_string (prop targetState "display_name"
                                   ||| prop targetState "name") with
                  | Throw e => ([stateId], fail (messageOf host e))
                  | Ok label =>
                      ([stateId],
                       succeed ("✅ 工作项 " ++ workItemId ++ " 状态已更新为 "
                                ++ dq ++ label ++ dq))
                  end
              end
        end
  end.
End Tools.

(** * Vocabulary of the properties *)

(** ** Well-typed inputs *)

(** A property that is absent or holds a string. *)
Definition opt_text (v : any) : bool :=
  match v with
  | VUndef | VNull | VStr _ => true
  | _ => false
  end.

(** A property that is absent or holds a number. *)
Definition opt_num (v : any) : bool :=
  match v with
  | VUndef | VNull | VNum _ => true
  | _ => false
  end.

(** A timestamp: absent, a number, or a string, as the interface [WorkItem]
    declares [created_at] and [updated_at]. *)
Definition opt_time (v : any) : bool :=
  match v with
  | VUndef | VNull | VNum _ | VStr _ => true
  | _ => false
  end.

(** Does [key] name a member of [Object.prototype]? *)
Definition inherits (key : string) : bool := truthy (inherited key).

(** An id that names no member of [Object.prototype] (anything but a string
    is no id). *)
Definition own_id (v : any) : bool :=
  match v with
  | VStr s => negb (inherits s)
  | _ => true
  end.

(** The properties of a node that the renderers read as text. *)
Definition TEXT_FIELDS : list string :=
  ["type"; "text"; "content"; "url"; "language"; "display_name"].

(** A Block (or InlineSpan) tree: an object whose textual properties are
    absent or strings, of whatever kind, and whose [children], when it has
    any, is an array of such trees. *)
Fixpoint block_tree (v : any) : bool :=
  match v with
  | VObj fs =>
      forallb (fun k => opt_text (field k fs)) TEXT_FIELDS
      && with_field "children"
           (fun children =>
              match children with
              | VUndef | VNull => true
              | VArr items => forallb block_tree items
              | _ => false
              end)
           fs
  | _ => false
  end.

(** Nothing, or an object whose names are absent or strings. *)
Definition named (v : any) : bool :=
  match v with
  | VUndef | VNull => true
  | VObj fs => opt_text (field "display_name" fs) && opt_text (field "name" fs)
  | _ => false
  end.

(** A type: a numeric code or a named object. *)
Definition type_ok (v : any) : bool :=
  match v with
  | VNum _ => true
  | _ => named v
  end.

(** A priority: an id, or an object that may carry a name. *)
Definition priority_ok (v : any) : bool :=
  match v with
  | VUndef | VNull | VStr _ => true
  | VObj fs => opt_text (field "name" fs) && negb (has_field "toString" fs)
  | _ => false
  end.

(** An assignee: a member id or a named object. *)
Definition assignee_ok (v : any) : bool :=
  match v with
  | VStr _ => true
  | _ => named v
  end.

Definition attachment_ok (v : any) : bool :=
  match v with
  | VObj fs =>
      forallb (fun k => opt_text (field k fs)) ["name"; "filename"; "url"; "download_url"]
  | _ => false
  end.

Definition opt_array (ok : any -> bool) (v : any) : bool :=
  match v with
  | VUndef | VNull => true
  | VArr items => forallb ok items
  | _ => false
  end.

Definition comment_ok (v : any) : bool :=
  match v with
  | VObj fs =>
      opt_text (field "created_by_name" fs)
      && opt_time (field "created_at" fs)
      && opt_array block_tree (field "content" fs)
  | _ => false
  end.

(** A record whose properties, where present, have the types the tracker
    gives them. *)
Definition tracker_record (item : any) : bool :=
  match item with
  | VObj fs =>
      forallb (fun k => opt_text (field k fs))
        ["whole_identifier"; "identifier"; "title"; "assignee_name";
         "created_by_name"; "description"]
      && type_ok (field "type" fs)
      && named (field "state" fs)
      && opt_num (field "state_type" fs)
      && priority_ok (field "priority" fs)
      && assignee_ok (field "assignee" fs)
      && opt_time (field "created_at" fs)
      && opt_time (field "updated_at" fs)
      && opt_array attachment_ok (field "attachments" fs)
      && opt_array comment_ok (field "comments" fs)
  | _ => false
  end.




Definition is_text_value (v : any) : Prop := exists s, v = VStr s.

(** [String(v)] returns. *)
Definition printable (v : any) : Prop := exists s, to_string v = Ok s.

(** ** Nodes and their descendants *)

(** [child x v]: [x] is an element of the array [v] or the value of a
    property of the object [v]. *)
Inductive child : any -> any -> Prop :=
| child_item x items : In x items -> child x (VArr items)
| child_field k x fs : In (k, x) fs -> child x (VObj fs).

Definition renders (v : any) : Prop :=
  (exists s, parseInlineElement v = Ok (VStr s))
  /\ (exists s, parseBlockElement v = Ok (VStr s)).

(** ** The two parts of the directive block *)

(** The directive block up to the place of the protocol text, and from there on. *)
Definition directive_head : string :=
  join nl
    ["---";
     "🛑🛑🛑 **[AI 强制指令 - 必须首先执行]** 🛑🛑🛑";
     "";
     "以下规则是 pingcode-mcp 的交互协议（不是普通备注）。"] ++ nl.

Definition directive_tail (requiredFirstOutput suggestedMsg : string) : string :=
  nl ++ join nl
    ["**单任务模式已激活，违反以下规则将导致工作流失败：**";
     "1. **STOP**：完成本工作项的代码修改后，必须立即停止所有操作";
     "2. **ASK**：停止后必须询问用户是否创建 commit（提供：使用建议 / 用户输入 / 不提交）";
     "3. **WAIT**：必须等待用户回复后，才能处理下一个工作项";
     "4. **禁止**：禁止同时修改多个工作项；禁止批量完成后统一询问；禁止在用户回复前获取下一个工作项";
     "";
     "**开始前确认**：AI 必须先输出 " ++ dq ++ requiredFirstOutput ++ dq;
     "";
     "**内容解析**：描述与评论冲突以评论为准；多条更新按时间倒序；图片可能包含关键信息";
     "";
     "**Commit 信息**：";
     "- 建议 commit：" ++ suggestedMsg;
     "---";
     ""].

(** ** Text without markup *)

(** Does the character [c] occur in [s]? *)
Fixpoint occurs (c : ascii) (s : string) : bool :=
  match s with
  | "" => false
  | String x s' => Ascii.eqb x c || occurs c s'
  end.

(** The number of line feeds [s] starts with, and [s] without them. *)
Fixpoint lead (s : string) : nat :=
  match s with
  | String x s' => if Ascii.eqb x LF then S (lead s') else 0
  | "" => 0
  end.

Fixpoint drop_lead (s : string) : string :=
  match s with
  | String x s' => if Ascii.eqb x LF then drop_lead s' else s
  | "" => ""
  end.

(** [s] has nowhere three line feeds in a row. *)
Fixpoint no3 (s : string) : bool :=
  match s with
  | String _ s' => (lead s <? 3)%nat && no3 s'
  | "" => true
  end.

Fixpoint drop (n : nat) (s : string) : string :=
  match n, s with
  | S n', String _ s' => drop n' s'
  | _, _ => s
  end.

(** [s.replace(/\n{3,}/g, '\n\n')] *)
Definition collapse (s : string) : string :=
  replace re_newlines (const (nl ++ nl)) s.

Definition starts_with (c : ascii) (re : regex) : Prop :=
  exists ps, pieces re = one (Only c) :: ps.

(** ** Sample inputs *)

(** A host for the closed examples below: its formatter prints the epoch
    milliseconds it is given. *)
Definition demo_host : Host :=
  {| toLocaleString := fun ms => decimal ms;
     formatText := fun _ => "Invalid Date";
     formatCoerced := fun _ => Ok "Invalid Date";
     messageOf := fun _ => "TypeError" |}.

(** Hosts that differ in their time zone. *)





Definition sample_link : any :=
  VObj [("type", VStr "link"); ("url", VStr "http://u");
        ("children", VArr [VObj [("text", VStr "a")]; VObj [("text", VStr "b")]])].

Definition bare_node : any := VObj [].

Definition sample_tree : any :=
  VObj [("type", VStr "numbered-list");
        ("children",
         VArr [VObj [("type", VStr "list-item");
                     ("children",
                      VArr [VObj [("type", VStr "paragraph");
                                  ("children",
                                   VArr [VObj [("text", VStr "see ")];
                                         sample_link;
                                         VObj [("type", VStr "mention")];
                                         VObj [("type", VStr "sparkle")]])];
                            VObj [("type", VStr "blockquote");
                                  ("children", VArr [bare_node])]])];
               VObj [("type", VStr "mystery"); ("children", VArr [bare_node])]])].




Definition bug_item : any :=
  VObj [("identifier", VStr "LFY-42");
        ("title", VStr "crash on save");
        ("type", VNum 5);
        ("state_type", VNum 2);
        ("priority", VStr "5cb9466afda1ce4ca0090001");
        ("created_at", VNum 1700000000);
        ("description", VStr "<p>boom</p>");
        ("comments",
         VArr [VObj [("created_by_name", VStr "Ann");
                     ("created_at", VNum 1700000100);
                     ("content",
                      VArr [VObj [("type", VStr "paragraph");
                                  ("children", VArr [VObj [("text", VStr "seen too")]])]])]])].

Definition task_item : any :=
  VObj [("identifier", VStr "LFY-43"); ("title", VStr "tidy up"); ("type", VNum 4)].

Definition sparse_item : any := VObj [("identifier", VStr "LFY-1")].


(** A record whose dates are strings. *)
Definition text_dated_item : any :=
  VObj [("identifier", VStr "LFY-45"); ("title", VStr "dated"); ("type", VNum 4);
        ("created_at", VStr "2023-11-14T22:13:20Z");
        ("updated_at", VStr "1700000000")].


Definition sample_html : string :=
  "<p>Hello&nbsp;<b>world</b></p><br/>" ++ nl ++ nl ++ nl ++ nl ++ "<p>bye</p>  ".

Definition sample_plain : string :=
  "  two" ++ nl ++ nl ++ nl ++ nl ++ "paragraphs  ".

(** ** Samples for the other tools *)

(** A cookie as the browser hands it over. *)
Definition session_cookie : CookieData.t :=
  {| CookieData.name := "pingcode_session"; CookieData.value := "abc";
     CookieData.domain := ".pingcode.com"; CookieData.path := "/";
     CookieData.expires := Some 1700000600%Z; CookieData.httpOnly := Some true;
     CookieData.secure := Some true; CookieData.sameSite := Some CookieData.Lax |}.

(** A cookie of the tracker whose name is none of the key names. *)
Definition plain_cookie : CookieData.t :=
  {| CookieData.name := "sid"; CookieData.value := "xyz";
     CookieData.domain := "neuralgalaxy.pingcode.com"; CookieData.path := "/";
     CookieData.expires := Some (-1)%Z; CookieData.httpOnly := Some true;
     CookieData.secure := Some false; CookieData.sameSite := None |}.

(** ** Selectable states *)

(** A state as the tracker lists it: an object whose names are absent or
    strings. *)
Definition state_ok (s : any) : bool :=
  match s with
  | VObj fs => opt_text (field "name" fs) && opt_text (field "display_name" fs)
  | _ => false
  end.

(** Is [v] a string that contains [sub]? *)
Definition text_contains (v : any) (sub : string) : bool :=
  match v with
  | VStr s => includes s sub
  | _ => false
  end.

(** Does the name or the display name of the state [s] contain [stateName]? *)
Definition names_contain (stateName : string) (s : any) : bool :=
  text_contains (prop s "name") stateName
  || text_contains (prop s "display_name") stateName.

(** The label of a state in the list of the available ones. *)
Definition state_label (s : any) : string :=
  match prop s "display_name" ||| prop s "name" with
  | VStr t => t
  | _ => ""
  end.

Definition sample_states : list any :=
  [VObj [("_id", VStr "s1"); ("name", VStr "todo"); ("display_name", VStr "待处理")];
   VObj [("_id", VStr "s2"); ("name", VStr "not_done"); ("display_name", VStr "未完成")];
   VObj [("_id", VStr "s3"); ("name", VStr "done"); ("display_name", VStr "完成")]].

(** ** The items of a release *)

(** [i.type === n] for an item that can be read. *)
Definition has_type (n : Z) (i : any) : bool := same_value (prop i "type") (VNum n).

(** What a predicate that may throw says where it answers. *)
Definition holds (p : any -> result bool) (x : any) : bool :=
  match p x with
  | Ok b => b
  | Throw _ => false
  end.

Definition sample_release : list any :=
  [VObj [("identifier", VStr "LFY-1"); ("title", VStr "a"); ("type", VNum 3)];
   VObj [("identifier", VStr "LFY-2"); ("title", VStr "b"); ("type", VNum 5)];
   VObj [("identifier", VStr "LFY-3"); ("title", VStr "c");
         ("type", VObj [("name", VStr "Bug")])];
   VObj [("identifier", VStr "LFY-4"); ("title", VStr "d"); ("type", VNum 2)];
   VObj [("identifier", VStr "LFY-5"); ("title", VStr "e"); ("type", VNum 5)]].

(** The type of the item [i] is an object whose [name], in lower case, is
    one of [names]. *)
Definition type_named (toLowerCase : string -> string) (names : list string) (i : any) : Prop :=
  exists n, get_opt (prop i "type") "name" = VStr n /\ In (toLowerCase n) names.

(** ASCII lower case, for the examples. *)
Fixpoint ascii_lower (s : string) : string :=
  match s with
  | String c rest =>
      let n := nat_of_ascii c in
      String (if ((65 <=? n) && (n <=? 90))%nat then ascii_of_nat (n + 32) else c)
             (ascii_lower rest)
  | "" => ""
  end.

(** The items of [sample_release] that the client keeps for [bug]. *)
Definition sample_bugs : list any :=
  [VObj [("identifier", VStr "LFY-2"); ("title", VStr "b"); ("type", VNum 5)];
   VObj [("identifier", VStr "LFY-3"); ("title", VStr "c");
         ("type", VObj [("name", VStr "Bug")])];
   VObj [("identifier", VStr "LFY-5"); ("title", VStr "e"); ("type", VNum 5)]].

(** ** Lists and quotes of the rich text *)

(** The item of a list shows [content]: what the block renderer makes of
    its children, one after the other, or nothing when it has none. *)
Definition item_content (item : any) (content : string) : Prop :=
  is_nullish item = false
  /\ ((is_nullish (prop item "children") = true /\ content = "")
      \/ exists subitems texts,
           prop item "children" = VArr subitems
           /\ Forall2 (fun x t => parseBlockElement x = Ok (VStr t)) subitems texts
           /\ content = join "" texts).

(** The lines of a numbered list whose first item is at [index]. *)
Fixpoint numbered (index : nat) (contents : list string) : list string :=
  match contents with
  | [] => []
  | c :: rest => (decimal (Z.of_nat index + 1) ++ ". " ++ c) :: numbered (S index) rest
  end.

Definition sample_list (kind : string) : list (string * any) :=
  [("type", VStr kind);
   ("children",
    VArr [VObj [("type", VStr "list-item");
                ("children",
                 VArr [VObj [("type", VStr "paragraph");
                             ("children", VArr [VObj [("text", VStr "one")]])]])];
          VObj [("type", VStr "list-item")];
          VObj [("type", VStr "list-item");
                ("children", VArr [VObj [("text", VStr "th")]; VObj [("text", VStr "ree")]])]])].

(** ** The member directory *)

(** Does the member [m] enter the directory under the id [uid]? *)
Definition listed_as (uid : string) (m : any) : bool :=
  is_text (prop m "uid") uid && truthy (prop m "display_name").

Definition sample_members : list any :=
  [VObj [("uid", VStr "u1"); ("display_name", VStr "Ann")];
   VObj [("uid", VStr "u2"); ("display_name", VStr "Bob")];
   VObj [("uid", VStr "u1"); ("display_name", VStr "Anna")];
   VObj [("uid", VStr "u3")]].

(** ** A tracker for the examples *)

(** The properties that [getWorkItemWithDetails] writes. *)
Definition DETAIL_FIELDS : list string :=
  ["assignee_name"; "created_by_name"; "comments"; "description"].

Definition sample_credentials : Credentials.t :=
  {| Credentials.cookies := [session_cookie];
     Credentials.domain := "neuralgalaxy.pingcode.com";
     Credentials.saved_at := 1700000000000;
     Credentials.expires_at := Some 1700000600000%Z;
     Credentials.user := Some {| Credentials.id := "u2"; Credentials.name := "Bob" |} |}.

Definition fetched_item : any :=
  VObj [("_id", VStr "64f0"); ("identifier", VStr "LFY-7"); ("title", VStr "slow list");
        ("type", VNum 4); ("assignee", VStr "u1"); ("assignee_name", VStr "stale");
        ("created_by", VStr "u9")].

(** A tracker that knows the item [LFY-7] and the project [LFY] with the
    members of [sample_members], and nothing else. *)
Definition sample_tracker (path cookie : string) : http :=
  if path =? "/api/agile/work-items/LFY-7"
  then Answered (VObj [("data", VObj [("data", VObj [("value", fetched_item)])])])
  else if path =? "/api/agile/projects/LFY"
  then Answered (VObj [("data", VObj [("data", VObj [("value", VObj [("_id", VStr "p1")])])])])
  else if path =? "/api/agile/projects/p1/members"
  then Answered (VObj [("data", VObj [("data", VObj [("value", VArr sample_members)])])])
  else Refused (Some 404%Z) (Rejected "Request failed with status code 404").

(** Descriptions without images stay as they are. *)
Definition no_images (description workItemId : string) : result string := Ok description.

(** ** The greedy star and an image tag *)

(** No character of [u] is [c], up to the case folding [ic]. *)
Fixpoint avoids (ic : bool) (c : ascii) (u : string) : bool :=
  match u with
  | String x u' => negb (same ic x c) && avoids ic c u'
  | "" => true
  end.

(** The rest [k] of a pattern after a star that can take all of [u] and
    nothing of [tail]: tried behind the whole of [u] first, then one
    character earlier, and so on. *)
Fixpoint last_hit {R : Type} (k : string -> option R) (u tail : string) : option R :=
  match u with
  | String x u' =>
      match last_hit k u' tail with
      | Some r => Some r
      | None => k (u ++ tail)
      end
  | "" => k tail
  end.

(** [<img src="url">] *)
Definition img_tag (url : string) : string := "<img src=" ++ dq ++ url ++ dq ++ ">".

(** Text without markup: neither [<] nor [&] occurs in it. *)
Definition plain (s : string) : bool := negb (occurs "<" s) && negb (occurs "&" s).

(** * Properties *)

(** ** Reading properties *)

Lemma with_field_field {A : Type} (k : string) (found : any -> A) fs :
  with_field k found fs = found (field k fs).
Proof.
  unfold field.
  induction fs as [|[k' v] fs IH]; simpl; [reflexivity|].
  destruct (k' =? k); [reflexivity | exact IH].
Qed.

Lemma is_text_eq v text : is_text v text = true -> v = VStr text.
Proof.
  destruct v; simpl; try discriminate.
  intros H. apply String.eqb_eq in H. now subst.
Qed.

Lemma to_string_obj fs :
  to_string (VObj fs)
  = if has_field "toString" fs then Throw TypeError else Ok "[object Object]".
Proof. reflexivity. Qed.

Ltac field_rewrite :=
  repeat match goal with
         | H : field _ _ = _ |- _ => rewrite !H
         end.

(** ** Code blocks *)

(** C9: a [code] block renders to a fenced block of three parts: the opening
    fence with the language tag (no tag when the language is absent), the
    content as it is, and the closing fence. *)
Theorem code_block_fenced :
  parseBlockElement
    (VObj [("type", VStr "code"); ("language", VStr "go"); ("content", VStr "x:=1")])
  = Ok (VStr (join nl ["```go"; "x:=1"; "```"]))
  /\ (forall fs lang code,
         field "type" fs = VStr "code" ->
         field "language" fs = VStr lang ->
         field "content" fs = VStr code ->
         parseBlockElement (VObj fs) = Ok (VStr (join nl ["```" ++ lang; code; "```"])))
  /\ (forall fs code,
         field "type" fs = VStr "code" ->
         is_nullish (field "language" fs) = true ->
         field "content" fs = VStr code ->
         parseBlockElement (VObj fs) = Ok (VStr (join nl ["```"; code; "```"]))).
Proof.
  split; [reflexivity|]. split.
  - intros fs lang code Ht Hl Hc. simpl. field_rewrite. simpl.
    unfold or_else.
    destruct lang as [|a lang], code as [|b code]; reflexivity.
  - intros fs code Ht Hl Hc. simpl. field_rewrite. simpl.
    unfold or_else.
    destruct (field "language" fs); try discriminate;
      destruct code as [|b code]; reflexivity.
Qed.

Lemma code_block_fenced_witness :
  parseBlockElement
    (VObj [("content", VStr "let y = 2"); ("language", VStr "ts"); ("type", VStr "code")])
  = Ok (VStr (join nl ["```ts"; "let y = 2"; "```"]))
  /\ parseBlockElement (VObj [("type", VStr "code"); ("content", VStr "plain")])
     = Ok (VStr (join nl ["```"; "plain"; "```"])).
Proof.
  split.
  - apply (proj1 (proj2 code_block_fenced)); reflexivity.
  - apply (proj2 (proj2 code_block_fenced)); reflexivity.
Defined.

(** ** Block quotes *)

(** C10: a [blockquote] whose list of children is present but empty renders
    to the quote prefix alone, the two characters [> ]; one without a
    [children] property renders to the empty string. *)
Theorem blockquote_without_children :
  forall fs,
    field "type" fs = VStr "blockquote" ->
    (field "children" fs = VArr [] ->
     parseBlockElement (VObj fs) = Ok (VStr "> ") /\ String.length "> " = 2)
    /\ (field "children" fs = VUndef -> parseBlockElement (VObj fs) = Ok (VStr "")).
Proof.
  intros fs Ht. split; intros Hc; [split; [|reflexivity]|]; simpl; rewrite Ht; simpl;
    rewrite with_field_field, Hc; reflexivity.
Qed.

Lemma blockquote_without_children_witness :
  (parseBlockElement (VObj [("type", VStr "blockquote"); ("children", VArr [])])
   = Ok (VStr "> ")
   /\ String.length "> " = 2)
  /\ parseBlockElement (VObj [("type", VStr "blockquote")]) = Ok (VStr "").
Proof.
  split.
  - apply (blockquote_without_children
             [("type", VStr "blockquote"); ("children", VArr [])]); reflexivity.
  - apply (blockquote_without_children [("type", VStr "blockquote")]); reflexivity.
Defined.

(** ** Traversals that meet no exception *)

Lemma mapM_Forall2 {A B : Type} (f : A -> result B) l ys :
  Forall2 (fun x y => f x = Ok y) l ys -> mapM f l = Ok ys.
Proof.
  induction 1 as [|x y l ys Hx _ IH]; simpl; [reflexivity|].
  now rewrite Hx, IH.
Qed.

Lemma mapM_texts (f : any -> result any) l texts :
  Forall2 (fun x text => f x = Ok (VStr text)) l texts ->
  mapM f l = Ok (map VStr texts).
Proof.
  intros H. apply mapM_Forall2.
  induction H; simpl; constructor; assumption.
Qed.

Lemma join_any_texts sep texts : join_any sep (map VStr texts) = Ok (join sep texts).
Proof.
  unfold join_any.
  rewrite (mapM_Forall2 _ (map VStr texts) texts); [reflexivity|].
  induction texts; simpl; constructor; auto.
Qed.

(** ** List items *)

(** C4, against the claim as stated: the inline renderer turns the link into
    [[ab](http://u)], but under a [list-item] the same link comes out as
    [ab], without brackets and without its url. *)
Lemma list_item_link_loses_url :
  parseInlineElement sample_link = Ok (VStr "[ab](http://u)")
  /\ parseBlockElement (VObj [("type", VStr "list-item"); ("children", VArr [sample_link])])
     = Ok (VStr "ab").
Proof. split; reflexivity. Qed.

(** C4, as amended: a [list-item] concatenates, with no separator, what the
    block renderer returns for each child, whatever the kind of the child;
    the block renderer knows no [link], so a link span right under a
    [list-item] takes the fallback for unknown kinds and renders as the
    joined text of its children only. *)
Theorem list_item_children_as_blocks :
  (forall fs items rendered,
      field "type" fs = VStr "list-item" ->
      field "children" fs = VArr items ->
      Forall2 (fun child text => parseBlockElement child = Ok (VStr text)) items rendered ->
      parseBlockElement (VObj fs) = Ok (VStr (join "" rendered)))
  /\ (forall lfs texts,
         field "type" lfs = VStr "link" ->
         field "children" lfs = VArr (map (fun t => VObj [("text", VStr t)]) texts) ->
         parseBlockElement (VObj lfs) = Ok (VStr (join "" texts)))
  /\ (forall fs lfs texts,
         field "type" fs = VStr "list-item" ->
         field "children" fs = VArr [VObj lfs] ->
         field "type" lfs = VStr "link" ->
         field "children" lfs = VArr (map (fun t => VObj [("text", VStr t)]) texts) ->
         parseBlockElement (VObj fs) = Ok (VStr (join "" texts))).
Proof.
  assert (item : forall fs items rendered,
             field "type" fs = VStr "list-item" ->
             field "children" fs = VArr items ->
             Forall2 (fun child text => parseBlockElement child = Ok (VStr text))
                     items rendered ->
             parseBlockElement (VObj fs) = Ok (VStr (join "" rendered))).
  { intros fs items rendered Ht Hc Hall. simpl. rewrite Ht. simpl.
    rewrite with_field_field, Hc. simpl.
    rewrite (mapM_texts _ _ _ Hall). simpl.
    now rewrite join_any_texts. }
  assert (link : forall lfs texts,
             field "type" lfs = VStr "link" ->
             field "children" lfs = VArr (map (fun t => VObj [("text", VStr t)]) texts) ->
             parseBlockElement (VObj lfs) = Ok (VStr (join "" texts))).
  { intros lfs texts Ht Hc. simpl. rewrite Ht, Hc. simpl.
    rewrite (mapM_texts _ _ texts); simpl.
    - now rewrite join_any_texts.
    - clear. induction texts as [|t texts IH]; simpl; constructor; [|exact IH].
      destruct t; reflexivity. }
  split; [exact item|]. split; [exact link|].
  intros fs lfs texts Ht Hc Hlt Hlc.
  rewrite (item fs [VObj lfs] [join "" texts] Ht Hc).
  - unfold join. simpl. reflexivity.
  - constructor; [|constructor]. now apply link.
Qed.

Lemma list_item_children_as_blocks_witness :
  parseBlockElement (VObj [("type", VStr "list-item"); ("children", VArr [sample_link])])
  = Ok (VStr (join "" ["a"; "b"])).
Proof.
  apply (proj2 (proj2 list_item_children_as_blocks)
           [("type", VStr "list-item"); ("children", VArr [sample_link])]
           [("type", VStr "link"); ("url", VStr "http://u");
            ("children", VArr [VObj [("text", VStr "a")]; VObj [("text", VStr "b")]])]
           ["a"; "b"]); reflexivity.
Defined.

(** ** Timestamps *)

(** C7: a timestamp in seconds and the same instant in milliseconds format
    alike, the two told apart by the threshold 10^12: so do 1700000000 and
    1700000000000; and a falsy timestamp gives the empty string. *)
Theorem timestamp_seconds_or_milliseconds :
  forall host,
    formatTimestamp host (VNum 1700000000) = formatTimestamp host (VNum 1700000000000)
    /\ formatTimestamp host (VNum 1700000000) = Ok (toLocaleString host 1700000000000)
    /\ (forall n, (10 ^ 9 < n <= 10 ^ 12)%Z ->
                  formatTimestamp host (VNum n) = formatTimestamp host (VNum (n * 1000))
                  /\ formatTimestamp host (VNum n) = Ok (toLocaleString host (n * 1000)))
    /\ (forall ts, truthy ts = false -> formatTimestamp host ts = Ok "").
Proof.
  intros host. split; [reflexivity|]. split; [reflexivity|]. split.
  - intros n Hn. unfold formatTimestamp. simpl truthy.
    assert (Hz : (n =? 0)%Z = false) by (apply Z.eqb_neq; lia).
    assert (Hz' : (n * 1000 =? 0)%Z = false) by (apply Z.eqb_neq; lia).
    rewrite Hz, Hz'. simpl negb. cbv iota.
    assert (Hs : (n >? 10 ^ 12)%Z = false).
    { rewrite Z.gtb_ltb. apply Z.ltb_ge. lia. }
    assert (Hm : (n * 1000 >? 10 ^ 12)%Z = true).
    { rewrite Z.gtb_ltb. apply Z.ltb_lt. lia. }
    rewrite Hs, Hm. split; reflexivity.
  - intros ts Hts. unfold formatTimestamp. now rewrite Hts.
Qed.

Lemma timestamp_seconds_or_milliseconds_witness :
  (formatTimestamp demo_host (VNum 1234567890)
   = formatTimestamp demo_host (VNum (1234567890 * 1000))
   /\ formatTimestamp demo_host (VNum 1234567890)
      = Ok (toLocaleString demo_host (1234567890 * 1000)))
  /\ formatTimestamp demo_host (VNum 0) = Ok ""
  /\ formatTimestamp demo_host VUndef = Ok "".
Proof.
  split; [|split].
  - apply (proj1 (proj2 (proj2 (timestamp_seconds_or_milliseconds demo_host)))).
    split; [reflexivity | discriminate].
  - apply (proj2 (proj2 (proj2 (timestamp_seconds_or_milliseconds demo_host)))).
    reflexivity.
  - apply (proj2 (proj2 (proj2 (timestamp_seconds_or_milliseconds demo_host)))).
    reflexivity.
Defined.

(** ** What a formatted record holds *)

Ltac invert_bind :=
  repeat match goal with
         | H : bind ?c _ = Ok _ |- _ =>
             let E := fresh "E" in
             destruct c eqn:E; simpl in H; [|discriminate H]
         end.

Lemma formatWorkItem_fields host item wi :
  formatWorkItem host item = Ok wi ->
  is_nullish item = false
  /\ idOf item = Ok (value (id wi))
  /\ typeName item = Ok (value (type wi))
  /\ stateName item = Ok (value (state wi))
  /\ priorityName item = Ok (value (priority wi))
  /\ value (assignee wi) = assigneeName item
  /\ value (title wi) = prop item "title" ||| VStr ""
  /\ value (createdBy wi) = prop item "created_by_name" ||| VStr "".
Proof.
  unfold formatWorkItem. intros H.
  destruct (is_nullish item); [discriminate|].
  invert_bind. injection H as <-. simpl. repeat split; reflexivity.
Qed.

(** ** Priorities *)

Lemma inherited_shape key :
  inherited key = VUndef \/ inherited key = VObj [] \/ exists f, inherited key = VFun f.
Proof.
  unfold inherited.
  destruct (key =? "constructor"); [right; right; eauto|].
  destruct (existsb _ OBJECT_METHODS); [right; right; eauto|].
  destruct (key =? "__proto__"); auto.
Qed.

Lemma inherits_false key : inherits key = false -> inherited key = VUndef.
Proof.
  unfold inherits. intros H.
  destruct (inherited_shape key) as [E | [E | [f E]]]; rewrite E in H;
    [exact E | discriminate H | discriminate H].
Qed.





(** ** Directives *)

Lemma append_assoc (a b c : string) : (a ++ b) ++ c = a ++ (b ++ c).
Proof. induction a as [|x a IH]; simpl; [reflexivity | now rewrite IH]. Qed.

Lemma append_empty_r (a : string) : a ++ "" = a.
Proof. induction a as [|x a IH]; simpl; [reflexivity | now rewrite IH]. Qed.

Lemma aiPrompt_split isBug required suggested :
  aiPrompt isBug required suggested
  = directive_head ++ bugAnalysisPrompt isBug ++ directive_tail required suggested.
Proof.
  unfold aiPrompt, directive_head, directive_tail, join.
  cbn [String.concat]. rewrite !append_assoc. reflexivity.
Qed.

Lemma present_success host identifier item r :
  present host identifier item = Ok r ->
  success r = true ->
  exists wi mapped suggestedType idText titleText document,
    formatWorkItem host item = Ok wi
    /\ index typeMap (value (type wi)) = Ok mapped
    /\ to_string (mapped ||| VStr "chore") = Ok suggestedType
    /\ to_string (value (id wi)) = Ok idText
    /\ to_string (value (title wi)) = Ok titleText
    /\ getWorkItemString wi = Ok document
    /\ workItem r = Some wi
    /\ data r
       = Some (aiPrompt (is_text (value (type wi)) "缺陷")
                 ("🔒 单任务模式：处理 " ++ idText ++ "，完成后立即询问 commit")
                 ("#" ++ idText ++ " " ++ suggestedType ++ ": " ++ titleText)
               ++ document)
    /\ option_map (fun d => suggested_message (commit d)) (aiDirectives r)
       = Some ("#" ++ idText ++ " " ++ suggestedType ++ ": " ++ titleText).
Proof.
  unfold present. intros H Hs.
  destruct (truthy item); simpl in H.
  2:{ injection H as <-. discriminate Hs. }
  invert_bind. injection H as <-.
  do 6 eexists. repeat split; try eassumption; reflexivity.
Qed.

(** C2: for a record of numeric type 5, hence a bug, with identifier LFY-42
    and title [crash on save], the data of a successful [getWorkItem] holds
    the bug-analysis protocol inside the directive block that precedes the
    formatted record, and the suggested commit message is
    [#LFY-42 fix: crash on save]; for a record whose type label is not the
    bug label the directive block is the same block with nothing in the
    place of the protocol. *)
Theorem bug_record_directives :
  forall host item identifier r,
    getWorkItem host (Ok item) identifier = r ->
    success r = true ->
    exists wi document,
      workItem r = Some wi
      /\ getWorkItemString wi = Ok document
      /\ (prop item "type" = VNum 5 ->
          prop item "whole_identifier" ||| prop item "identifier" = VStr "LFY-42" ->
          prop item "title" = VStr "crash on save" ->
          value (type wi) = VStr "缺陷"
          /\ data r
             = Some (directive_head ++ join nl BUG_ANALYSIS_LINES
                       ++ directive_tail
                            "🔒 单任务模式：处理 LFY-42，完成后立即询问 commit"
                            "#LFY-42 fix: crash on save"
                       ++ document)
          /\ option_map (fun d => suggested_message (commit d)) (aiDirectives r)
             = Some "#LFY-42 fix: crash on save")
      /\ (is_text (value (type wi)) "缺陷" = false ->
          exists required suggested,
            data r = Some (directive_head ++ directive_tail required suggested ++ document)).
Proof.
  intros host item identifier r Hr Hs.
  unfold getWorkItem in Hr. simpl in Hr.
  destruct (present host identifier item) as [r'|e] eqn:Hp.
  2:{ subst r. discriminate Hs. }
  subst r'.
  destruct (present_success _ _ _ _ Hp Hs)
    as (wi & mapped & stype & idt & tt & doc & Hf & Hm & Hst & Hid & Htt & Hdoc & Hw & Hd & Hc).
  exists wi, doc. split; [exact Hw|]. split; [exact Hdoc|]. split.
  - intros Htype Hident Htitle.
    destruct (formatWorkItem_fields _ _ _ Hf) as (_ & Fid & Fty & _ & _ & _ & Fti & _).
    unfold idOf in Fid. rewrite Hident in Fid. simpl in Fid. injection Fid as Fid.
    unfold typeName in Fty. rewrite Htype in Fty. simpl in Fty. injection Fty as Fty.
    rewrite Htitle in Fti. simpl in Fti.
    rewrite <- Fid in Hid. rewrite <- Fty in Hm, Hd. rewrite Fti in Htt.
    simpl in Hid, Htt, Hm. injection Hid as <-. injection Htt as <-. injection Hm as <-.
    simpl in Hst. injection Hst as <-.
    split; [now symmetry|]. split; [|exact Hc].
    rewrite Hd. rewrite aiPrompt_split. simpl is_text. unfold bugAnalysisPrompt.
    cbv iota. rewrite !append_assoc. reflexivity.
  - intros Hnot. rewrite Hnot in Hd. rewrite aiPrompt_split in Hd.
    exists ("🔒 单任务模式：处理 " ++ idt ++ "，完成后立即询问 commit"),
           ("#" ++ idt ++ " " ++ stype ++ ": " ++ tt).
    rewrite Hd, !append_assoc. reflexivity.
Qed.

Lemma bug_record_directives_witness :
  (exists wi document,
      workItem (getWorkItem demo_host (Ok bug_item) "LFY-42") = Some wi
      /\ getWorkItemString wi = Ok document
      /\ value (type wi) = VStr "缺陷"
      /\ data (getWorkItem demo_host (Ok bug_item) "LFY-42")
         = Some (directive_head ++ join nl BUG_ANALYSIS_LINES
                   ++ directive_tail
                        "🔒 单任务模式：处理 LFY-42，完成后立即询问 commit"
                        "#LFY-42 fix: crash on save"
                   ++ document)
      /\ option_map (fun d => suggested_message (commit d))
           (aiDirectives (getWorkItem demo_host (Ok bug_item) "LFY-42"))
         = Some "#LFY-42 fix: crash on save")
  /\ (exists document required suggested,
         data (getWorkItem demo_host (Ok task_item) "LFY-43")
         = Some (directive_head ++ directive_tail required suggested ++ document)).
Proof.
  split.
  - destruct (bug_record_directives demo_host bug_item "LFY-42" _ eq_refl)
      as (wi & doc & Hw & Hdoc & Hbug & _).
    { vm_compute. reflexivity. }
    exists wi, doc. split; [exact Hw|]. split; [exact Hdoc|].
    apply Hbug; reflexivity.
  - destruct (bug_record_directives demo_host task_item "LFY-43" _ eq_refl)
      as (wi & doc & Hw & _ & _ & Hother).
    { vm_compute. reflexivity. }
    exists doc. apply Hother.
    vm_compute in Hw. injection Hw as <-. reflexivity.
Defined.

(** ** Determinism *)






(** ** Block trees *)

Lemma child_wf : well_founded child.
Proof.
  intros v. induction v as [| | | | |items IH|fs IH|fname] using any_ind;
    constructor; intros y Hy; inversion Hy; subst.
  - rewrite Forall_forall in IH. now apply IH.
  - rewrite Forall_forall in IH. now apply (IH (k, y)).
Qed.

Lemma field_in k fs : field k fs = VUndef \/ In (k, field k fs) fs.
Proof.
  unfold field. induction fs as [|[k' v] fs IH]; simpl; [now left|].
  destruct (k' =? k) eqn:E.
  - apply String.eqb_eq in E. subst. right. now left.
  - destruct IH as [IH|IH]; [now left | right; now right].
Qed.

Lemma children_child fs items : field "children" fs = VArr items -> child (VArr items) (VObj fs).
Proof.
  intros H. destruct (field_in "children" fs) as [E|E].
  - rewrite H in E. discriminate.
  - rewrite H in E. econstructor. exact E.
Qed.

(** ** Totality of the renderer *)

Lemma opt_text_or v d : opt_text v = true -> exists s, v ||| VStr d = VStr s.
Proof.
  destruct v; try discriminate; intros _; unfold or_else; simpl; eauto.
  destruct (negb (s =? "")); eauto.
Qed.

Lemma or_else_text a b :
  opt_text a = true -> (exists s, b = VStr s) -> exists s, a ||| b = VStr s.
Proof.
  intros Ha [s ->]. now apply opt_text_or.
Qed.

Lemma opt_text_to_string v : opt_text v = true -> exists s, to_string v = Ok s.
Proof. destruct v; try discriminate; intros _; simpl; eauto. Qed.

Lemma mapM_total_texts (f : any -> result any) l :
  (forall x, In x l -> exists s, f x = Ok (VStr s)) ->
  exists texts, mapM f l = Ok (map VStr texts).
Proof.
  induction l as [|x l IH]; intros H.
  - now exists [].
  - destruct (H x (or_introl eq_refl)) as [s Hs].
    destruct IH as [texts Ht]; [intros y Hy; apply H; now right|].
    exists (s :: texts). simpl. now rewrite Hs, Ht.
Qed.

Lemma mapMi_total {A B : Type} (f : nat -> A -> result B) l :
  (forall i x, In x l -> exists y, f i x = Ok y) ->
  forall i, exists ys, mapMi f i l = Ok ys.
Proof.
  induction l as [|x l IH]; intros H i.
  - now exists [].
  - destruct (H i x (or_introl eq_refl)) as [y Hy].
    destruct (IH (fun j z Hz => H j z (or_intror Hz)) (S i)) as [ys Hys].
    exists (y :: ys). simpl. now rewrite Hy, Hys.
Qed.

Lemma render_join {B : Type} (render : any -> result any) sep items (k : string -> B) :
  (forall x, In x items -> exists s, render x = Ok (VStr s)) ->
  exists q, (parts <- mapM render items ;; q' <- join_any sep parts ;; Ok (k q')) = Ok (k q).
Proof.
  intros H. destruct (mapM_total_texts _ _ H) as [texts Ht].
  rewrite Ht. simpl. rewrite join_any_texts. simpl. eauto.
Qed.

Lemma map_join_text (render : any -> result any) sep items :
  (forall x, In x items -> exists s, render x = Ok (VStr s)) ->
  exists q, (s <- map_join render sep (VArr items) ;; Ok (VStr s)) = Ok (VStr q).
Proof.
  intros H. destruct (mapM_total_texts _ _ H) as [texts Ht].
  simpl. rewrite Ht. simpl. rewrite join_any_texts. simpl. eauto.
Qed.

Lemma block_tree_is_obj v : block_tree v = true -> exists fs, v = VObj fs.
Proof. destruct v; try discriminate; eauto. Qed.

Lemma block_tree_obj fs :
  block_tree (VObj fs) = true ->
  (forall k, In k TEXT_FIELDS -> opt_text (field k fs) = true)
  /\ (is_nullish (field "children" fs) = true
      \/ exists items, field "children" fs = VArr items
                       /\ forall x, In x items -> block_tree x = true).
Proof.
  cbn [block_tree]. rewrite with_field_field. intros H.
  apply andb_true_iff in H. destruct H as [Ht Hc]. split.
  - intros k Hk. rewrite forallb_forall in Ht. now apply Ht.
  - destruct (field "children" fs) as [| | | | |items| |?]; try discriminate;
      [now left | now left |].
    right. exists items. split; [reflexivity|].
    intros x Hx. rewrite forallb_forall in Hc. now apply Hc.
Qed.

Lemma or_else_opt_text a b : opt_text a = true -> opt_text b = true -> opt_text (a ||| b) = true.
Proof. unfold or_else. now destruct (truthy a). Qed.

Lemma block_tree_text x k :
  block_tree x = true -> In k TEXT_FIELDS ->
  exists s, (t <- get x k ;; Ok (t ||| VStr "")) = Ok (VStr s).
Proof.
  intros Hx Hk. destruct (block_tree_is_obj _ Hx) as [ifs ->].
  destruct (block_tree_obj _ Hx) as [Htext _].
  change (get (VObj ifs) k) with (Ok (field k ifs)). simpl.
  destruct (opt_text_or _ "" (Htext k Hk)) as [s ->]. eauto.
Qed.

Ltac text_field H d :=
  let s := fresh "s" in
  let E := fresh "E" in
  destruct (opt_text_or _ d H) as [s E]; rewrite ?E; eauto.

Lemma block_tree_renders v : block_tree v = true -> renders v.
Proof.
  induction v as [v IH] using (well_founded_induction (wf_clos_trans _ _ child_wf)).
  intros Hwf. destruct (block_tree_is_obj _ Hwf) as [fs ->].
  destruct (block_tree_obj _ Hwf) as [Htext Hkids].
  pose proof (Htext "type" ltac:(simpl; tauto)) as Htype.
  pose proof (Htext "text" ltac:(simpl; tauto)) as Htxt.
  pose proof (Htext "content" ltac:(simpl; tauto)) as Hcontent.
  pose proof (Htext "url" ltac:(simpl; tauto)) as Hurl.
  pose proof (Htext "language" ltac:(simpl; tauto)) as Hlang.
  pose proof (Htext "display_name" ltac:(simpl; tauto)) as Hname.
  assert (Hsub : forall items x,
             field "children" fs = VArr items -> In x items ->
             block_tree x = true /\ clos_trans any child x (VObj fs)).
  { intros items x Hc Hx. split.
    - destruct Hkids as [Hn|(items' & Hc' & Hall)]; rewrite Hc in *.
      + discriminate.
      + injection Hc' as <-. now apply Hall.
    - apply t_trans with (VArr items); apply t_step.
      + now constructor.
      + now apply children_child. }
  assert (Hinline : forall items x,
             field "children" fs = VArr items -> In x items ->
             exists s, parseInlineElement x = Ok (VStr s)).
  { intros items x Hc Hx.
    destruct (Hsub items x Hc Hx) as [Hb Hlt]. apply (IH x Hlt Hb). }
  assert (Hblock : forall items x,
             field "children" fs = VArr items -> In x items ->
             exists s, parseBlockElement x = Ok (VStr s)).
  { intros items x Hc Hx.
    destruct (Hsub items x Hc Hx) as [Hb Hlt]. apply (IH x Hlt Hb). }
  assert (Hfalsy : exists s, Ok (field "text" fs ||| VStr "") = Ok (VStr s)).
  { text_field Htxt "". }
  assert (Himage : exists s, image_marker (field "url" fs) = Ok (VStr s)).
  { unfold image_marker. destruct (opt_text_or _ "" Hurl) as [u ->]. simpl. eauto. }
  assert (Hkind : truthy (field "children" fs) = true ->
                  exists items, field "children" fs = VArr items).
  { destruct Hkids as [Hn|(items & Hc & _)]; [|eauto].
    destruct (field "children" fs); try discriminate. }
  split.
  - simpl. rewrite with_field_field.
    destruct (truthy (field "type" fs)); simpl negb; cbv iota; [|exact Hfalsy].
    destruct (is_text (field "type" fs) "link").
    { assert (Hj : exists j,
                 match field "children" fs with
                 | VUndef | VNull => Ok VUndef
                 | VArr items =>
                     texts <- mapM (fun c => t <- get c "text" ;; Ok (t ||| VStr "")) items ;;
                     s0 <- join_any "" texts ;; Ok (VStr s0)
                 | _ => Throw TypeError
                 end = Ok j /\ opt_text j = true).
      { destruct Hkids as [Hn|(items & Hc & Hall)].
        - destruct (field "children" fs); try discriminate; eauto.
        - rewrite Hc.
          destruct (mapM_total_texts
                      (fun c => t <- get c "text" ;; Ok (t ||| VStr "")) items)
            as [texts Hm].
          { intros x Hx. apply block_tree_text; [now apply Hall | simpl; tauto]. }
          rewrite Hm. simpl. rewrite join_any_texts. simpl. eauto. }
      destruct Hj as (j & -> & Hj). simpl.
      destruct (opt_text_to_string _ (or_else_opt_text _ _ Hj Hurl)) as [lt ->].
      destruct (opt_text_to_string _ Hurl) as [u ->]. simpl. eauto. }
    destruct (is_text (field "type" fs) "mention").
    { destruct (or_else_text (field "display_name" fs ||| field "text" fs) (VStr "用户"))
        as [w Hw]; [now apply or_else_opt_text | eauto |].
      rewrite Hw. simpl. eauto. }
    destruct (is_text (field "type" fs) "image"); [exact Himage|].
    destruct (truthy (field "children" fs)) eqn:Tc; [|exact Hfalsy].
    destruct (Hkind eq_refl) as [items Hc]. rewrite Hc.
    destruct (render_join parseInlineElement "" items (fun q => VStr q) (fun x => Hinline items x Hc))
      as [q Hq].
    rewrite Hq. eauto.
  - simpl. rewrite !with_field_field.
    destruct (truthy (field "type" fs)); simpl negb; cbv iota; [|exact Hfalsy].
    assert (Hpara : exists s,
               (if truthy (field "children" fs)
                then s0 <- map_join parseInlineElement "" (field "children" fs) ;;
                     Ok (VStr s0)
                else Ok (VStr "")) = Ok (VStr s)).
    { destruct (truthy (field "children" fs)) eqn:Tc; [|eauto].
      destruct (Hkind eq_refl) as [items Hc]. rewrite Hc.
      apply map_join_text. intros x Hx. now apply (Hinline items). }
    destruct (is_text (field "type" fs) "paragraph"); [exact Hpara|].
    destruct (is_text (field "type" fs) "code").
    { destruct (opt_text_or _ "" Hlang) as [l ->].
      destruct (opt_text_or _ "" Hcontent) as [c ->]. simpl. eauto. }
    destruct (is_text (field "type" fs) "image"); [exact Himage|].
    destruct (is_text (field "type" fs) "blockquote").
    { destruct (truthy (field "children" fs)) eqn:Tc; [|eauto].
      destruct (Hkind eq_refl) as [items Hc]. rewrite Hc.
      destruct (render_join parseBlockElement nl items
                  (fun q => VStr (join nl (map (fun line => "> " ++ line) (split_lines q))))
                  (fun x => Hblock items x Hc)) as [q Hq].
      simpl in Hq. rewrite Hq. eauto. }
    destruct (is_text (field "type" fs) "bulleted-list"
              || is_text (field "type" fs) "numbered-list").
    { destruct (truthy (field "children" fs)) eqn:Tc; [|eauto].
      destruct (Hkind eq_refl) as [items Hc]. rewrite Hc.
      match goal with
      | |- exists s, (lines <- mapMi ?f 0 items ;; _) = _ =>
          destruct (fun H => mapMi_total f items H 0) as [lines Hl];
          [|rewrite Hl; simpl; eauto]
      end.
      intros i item Hitem.
      destruct (Hsub items item Hc Hitem) as [Hb Hlt].
      destruct (block_tree_is_obj _ Hb) as [ifs ->].
      destruct (block_tree_obj _ Hb) as [_ Hgrand].
      rewrite with_field_field.
      destruct Hgrand as [Hn|(subitems & Hg & Hall)].
      - destruct (field "children" ifs); try discriminate; eauto.
      - rewrite Hg.
        destruct (render_join parseBlockElement "" subitems
                    (fun q => item_prefix (field "type" fs) i ++ q)) as [q Hq];
          [|rewrite Hq; eauto].
        intros x Hx. apply IH; [|now apply Hall].
        apply t_trans with (VObj ifs); [|exact Hlt].
        apply t_trans with (VArr subitems); apply t_step.
        + now constructor.
        + now apply children_child. }
    destruct (is_text (field "type" fs) "list-item").
    { destruct (truthy (field "children" fs)) eqn:Tc; [|eauto].
      destruct (Hkind eq_refl) as [items Hc]. rewrite Hc.
      destruct (render_join parseBlockElement "" items (fun q => VStr q)
                  (fun x => Hblock items x Hc)) as [q Hq].
      rewrite Hq. eauto. }
    destruct (truthy (field "children" fs)) eqn:Tc.
    + destruct (Hkind eq_refl) as [items Hc]. rewrite Hc.
      apply map_join_text. intros x Hx. now apply (Hinline items).
    + destruct (or_else_text (field "text" fs ||| field "content" fs) (VStr ""))
        as [w Hw]; [now apply or_else_opt_text | eauto |].
      rewrite Hw. eauto.
Qed.

Lemma parseCommentContent_total content :
  (forall blocks, content = VArr blocks -> forallb block_tree blocks = true) ->
  exists s, parseCommentContent content = Ok s.
Proof.
  intros H. destruct content; simpl; eauto.
  specialize (H items eq_refl). rewrite forallb_forall in H.
  destruct (render_join parseBlockElement nl items trim) as [q Hq]; [|rewrite Hq; eauto].
  intros x Hx. apply (block_tree_renders x (H x Hx)).
Qed.

(** C1: on every Block tree, whatever the kinds of its nodes (known, unknown
    or none, nodes with no kind, no children and no text included), the
    block renderer and the inline renderer return a string and raise no
    exception; so does [parseCommentContent] on an array of Block trees, and
    on anything that is no array. *)
Theorem renderer_total :
  (forall tree, block_tree tree = true ->
                (exists s, parseBlockElement tree = Ok (VStr s))
                /\ (exists s, parseInlineElement tree = Ok (VStr s)))
  /\ (forall content,
         (forall blocks, content = VArr blocks -> forallb block_tree blocks = true) ->
         exists s, parseCommentContent content = Ok s).
Proof.
  split.
  - intros tree H. destruct (block_tree_renders tree H) as [Hi Hb]. now split.
  - exact parseCommentContent_total.
Qed.

Lemma renderer_total_witness :
  ((exists s, parseBlockElement sample_tree = Ok (VStr s))
   /\ (exists s, parseInlineElement sample_tree = Ok (VStr s)))
  /\ ((exists s, parseBlockElement bare_node = Ok (VStr s))
      /\ (exists s, parseInlineElement bare_node = Ok (VStr s)))
  /\ (exists s, parseCommentContent (VArr [sample_tree; bare_node]) = Ok s).
Proof.
  split; [|split].
  - apply (proj1 renderer_total sample_tree). reflexivity.
  - apply (proj1 renderer_total bare_node). reflexivity.
  - apply (proj2 renderer_total (VArr [sample_tree; bare_node])).
    intros blocks E. injection E as <-. reflexivity.
Defined.

(** ** Records as the tracker delivers them *)

(** *** Keys that name no inherited member *)

Lemma inherited_numeral c rest :
  existsb (Ascii.eqb c) ["0"; "1"; "2"; "3"; "4"; "5"; "6"; "7"; "8"; "9"; "-"]%char = true ->
  inherited (String c rest) = VUndef.
Proof.
  cbn [existsb]. rewrite !orb_true_iff.
  intros H. decompose [or] H; clear H;
    try match goal with
        | E : Ascii.eqb c _ = true |- _ => apply Ascii.eqb_eq in E; subst c; reflexivity
        end.
  discriminate.
Qed.

Lemma inherited_decimal n : inherited (decimal n) = VUndef.
Proof.
  unfold decimal, NilZero.string_of_int.
  destruct (Z.to_int n) as [d|d].
  - unfold NilZero.string_of_uint. destruct d; try reflexivity.
  - apply inherited_numeral. reflexivity.
Qed.

Lemma table_get_text t key d :
  inherited key = VUndef -> is_text_value (table_get t key ||| VStr d).
Proof.
  intros Hk. unfold table_get, or_else.
  destruct (find _ t) as [kv|]; simpl; [|rewrite Hk; now exists d].
  destruct (negb (snd kv =? "")); eexists; reflexivity.
Qed.

Lemma table_get_printable t key d : printable (table_get t key ||| VStr d).
Proof.
  unfold table_get, or_else, printable.
  destruct (find _ t) as [kv|].
  - simpl. destruct (negb (snd kv =? "")); eexists; reflexivity.
  - destruct (inherited_shape key) as [-> | [-> | [f ->]]]; eexists; reflexivity.
Qed.

Lemma text_printable v : is_text_value v -> printable v.
Proof. intros [s ->]. now exists s. Qed.

Lemma or_else_text_value a b :
  opt_text a = true -> is_text_value b -> is_text_value (a ||| b).
Proof. intros Ha Hb. now apply or_else_text. Qed.

Lemma idOf_text fs :
  opt_text (field "whole_identifier" fs) = true ->
  opt_text (field "identifier" fs) = true ->
  exists s, idOf (VObj fs) = Ok (VStr s).
Proof.
  intros Hw Hi. unfold idOf.
  change (prop (VObj fs) "whole_identifier") with (field "whole_identifier" fs).
  change (prop (VObj fs) "identifier") with (field "identifier" fs).
  destruct (truthy (field "whole_identifier" fs ||| field "identifier" fs)) eqn:T.
  - pose proof (or_else_opt_text _ _ Hw Hi) as Ho.
    destruct (field "whole_identifier" fs ||| field "identifier" fs);
      try discriminate. eauto.
  - destruct (opt_text_to_string _ Hi) as [s ->]. simpl. eauto.
Qed.

Lemma named_text v d :
  named v = true ->
  is_text_value (get_opt v "display_name" ||| get_opt v "name" ||| VStr d).
Proof.
  destruct v; try discriminate; intros H; try (now exists d).
  apply andb_true_iff in H. destruct H as [Hd Hn].
  change (get_opt (VObj fields) "display_name") with (field "display_name" fields).
  change (get_opt (VObj fields) "name") with (field "name" fields).
  apply or_else_text_value; [now apply or_else_opt_text | now exists d].
Qed.

Lemma typeName_text fs :
  type_ok (field "type" fs) = true -> exists s, typeName (VObj fs) = Ok (VStr s).
Proof.
  intros H. unfold typeName.
  change (prop (VObj fs) "type") with (field "type" fs).
  destruct (field "type" fs) as [| | |n| | |tfs|?] eqn:E; try discriminate.
  4:{ destruct (named_text _ "未知" H) as [s Hs]. rewrite Hs. eauto. }
  3:{ unfold index. simpl.
      destruct (table_get_text WORK_ITEM_TYPE_MAP (decimal n) "工作项"
                  (inherited_decimal n)) as [s ->]. eauto. }
  all: eexists; reflexivity.
Qed.

Lemma stateName_text fs :
  named (field "state" fs) = true ->
  opt_num (field "state_type" fs) = true ->
  exists s, stateName (VObj fs) = Ok (VStr s).
Proof.
  intros Hs Hn. unfold stateName.
  change (prop (VObj fs) "state") with (field "state" fs).
  change (prop (VObj fs) "state_type") with (field "state_type" fs).
  destruct (truthy _) eqn:T.
  - assert (Ho : opt_text (get_opt (field "state" fs) "display_name"
                           ||| get_opt (field "state" fs) "name") = true).
    { destruct (field "state" fs); try discriminate; try reflexivity.
      apply andb_true_iff in Hs. destruct Hs.
      now apply or_else_opt_text. }
    destruct (get_opt (field "state" fs) "display_name"
              ||| get_opt (field "state" fs) "name"); try discriminate. eauto.
  - assert (Hk : exists key, to_string (field "state_type" fs) = Ok key
                             /\ inherited key = VUndef).
    { destruct (field "state_type" fs); try discriminate; simpl; eauto.
      eexists. split; [reflexivity | apply inherited_decimal]. }
    destruct Hk as (key & Hk & Hown). unfold index. rewrite Hk. simpl.
    destruct (table_get_text STATE_TYPE_MAP key "未知" Hown) as [s ->]. eauto.
Qed.

Lemma table_get_opt_text t key :
  inherited key = VUndef -> opt_text (table_get t key) = true.
Proof. intros Hk. unfold table_get. destruct (find _ t); [reflexivity | now rewrite Hk]. Qed.

Lemma own_id_inherited pid : own_id (VStr pid) = true -> inherited pid = VUndef.
Proof. unfold own_id. intros H. apply negb_true_iff in H. now apply inherits_false. Qed.

(** The key that a priority is looked up by, and the name it carries. *)
Lemma priority_key v :
  priority_ok v = true -> truthy v = true ->
  exists key, to_string v = Ok key
              /\ opt_text (get_opt v "name") = true
              /\ (own_id v = true -> inherited key = VUndef).
Proof.
  intros H T. destruct v as [| | | |pid| |pfs|?]; try discriminate.
  - exists pid. split; [reflexivity|]. split; [reflexivity|]. apply own_id_inherited.
  - simpl in H. apply andb_true_iff in H. destruct H as [Hn Ht].
    apply negb_true_iff in Ht. rewrite to_string_obj, Ht.
    eexists. split; [reflexivity|]. split; [exact Hn|]. reflexivity.
Qed.

Lemma priorityName_text fs :
  priority_ok (field "priority" fs) = true ->
  own_id (field "priority" fs) = true ->
  exists s, priorityName (VObj fs) = Ok (VStr s).
Proof.
  intros H Hown. unfold priorityName.
  change (prop (VObj fs) "priority") with (field "priority" fs).
  destruct (truthy (field "priority" fs)) eqn:T; [|eauto].
  destruct (priority_key _ H T) as (key & Hk & Hn & Hi).
  unfold index. rewrite Hk. simpl.
  destruct (or_else_text (table_get PRIORITY_MAP key
                          ||| get_opt (field "priority" fs) "name") (VStr "未设置"))
    as [s Hs]; [|eauto|rewrite Hs; eauto].
  apply or_else_opt_text; [apply table_get_opt_text; auto | exact Hn].
Qed.

(** Whatever the id, the priority can be printed. *)
Lemma priorityName_printable fs :
  priority_ok (field "priority" fs) = true ->
  exists v, priorityName (VObj fs) = Ok v /\ printable v.
Proof.
  intros H. unfold priorityName.
  change (prop (VObj fs) "priority") with (field "priority" fs).
  destruct (truthy (field "priority" fs)) eqn:T;
    [|eexists; split; [reflexivity | now exists "未设置"]].
  destruct (priority_key _ H T) as (key & Hk & Hn & _).
  unfold index. rewrite Hk. cbn [bind].
  eexists. split; [reflexivity|].
  unfold table_get.
  destruct (find _ PRIORITY_MAP) as [kv|].
  - apply text_printable.
    apply or_else_text_value; [now apply or_else_opt_text | now exists "未设置"].
  - destruct (inherited_shape key) as [E | [E | [f E]]]; rewrite E.
    + apply text_printable.
      apply or_else_text_value; [now apply or_else_opt_text | now exists "未设置"].
    + now exists "[object Object]".
    + eexists; reflexivity.
Qed.

Lemma assigneeName_text fs :
  opt_text (field "assignee_name" fs) = true ->
  assignee_ok (field "assignee" fs) = true ->
  is_text_value (assigneeName (VObj fs)).
Proof.
  intros Hn Ha. unfold assigneeName.
  change (prop (VObj fs) "assignee_name") with (field "assignee_name" fs).
  change (prop (VObj fs) "assignee") with (field "assignee" fs).
  destruct (truthy (field "assignee_name" fs)) eqn:T.
  - destruct (field "assignee_name" fs); try discriminate. eexists; reflexivity.
  - destruct (field "assignee" fs) as [| | | |s| |afs|?]; try discriminate;
      try (eexists; reflexivity).
    simpl in Ha. apply andb_true_iff in Ha. destruct Ha.
    change (prop (VObj afs) "display_name") with (field "display_name" afs).
    change (prop (VObj afs) "name") with (field "name" afs).
    apply or_else_text_value; [now apply or_else_opt_text | eexists; reflexivity].
Qed.

Lemma mapM_total {A B : Type} (f : A -> result B) l :
  (forall x, In x l -> exists y, f x = Ok y) -> exists ys, mapM f l = Ok ys.
Proof.
  induction l as [|x l IH]; intros H.
  - now exists [].
  - destruct (H x (or_introl eq_refl)) as [y Hy].
    destruct IH as [ys Hys]; [intros z Hz; apply H; now right|].
    exists (y :: ys). simpl. now rewrite Hy, Hys.
Qed.

Lemma map_or_empty_total {B : Type} (f : any -> result B) (ok : any -> bool) v :
  opt_array ok v = true ->
  (forall x, ok x = true -> exists y, f x = Ok y) ->
  exists ys, map_or_empty f v = Ok ys.
Proof.
  intros Hv Hf. unfold map_or_empty.
  destruct v; try discriminate; try (now exists []).
  simpl in Hv. rewrite forallb_forall in Hv.
  change (VArr items ||| VArr []) with (VArr items).
  apply mapM_total. intros x Hx. apply Hf. now apply Hv.
Qed.

Lemma formatAttachment_total att :
  attachment_ok att = true -> exists a, formatAttachment att = Ok a.
Proof.
  destruct att; try discriminate. intros _. unfold formatAttachment. simpl. eauto.
Qed.

Lemma formatTimestamp_total host ts :
  opt_time ts = true -> exists s, formatTimestamp host ts = Ok s.
Proof.
  unfold formatTimestamp.
  destruct ts; try discriminate; intros _; simpl; eauto.
  - destruct (negb (n =? 0)%Z); simpl; eauto.
  - destruct (negb (s =? "")); simpl; eauto.
Qed.

Lemma formatComment_total host comment :
  comment_ok comment = true -> exists c, formatComment host comment = Ok c.
Proof.
  destruct comment as [| | | | | |fs|?]; try discriminate. intros H.
  simpl in H. apply andb_true_iff in H. destruct H as [H Hc].
  apply andb_true_iff in H. destruct H as [_ Ht].
  unfold formatComment.
  change (get (VObj fs) "created_by_name") with (Ok (field "created_by_name" fs)).
  change (prop (VObj fs) "created_at") with (field "created_at" fs).
  change (prop (VObj fs) "content") with (field "content" fs).
  simpl.
  destruct (formatTimestamp_total host _ Ht) as [t ->]. simpl.
  destruct (parseCommentContent_total (field "content" fs)) as [c Hcc].
  - intros blocks E. now rewrite E in Hc.
  - rewrite Hcc. simpl. eauto.
Qed.

Lemma if_truthy_text (v : any) (f : any -> result string) :
  (truthy v = true -> exists s, f v = Ok s) ->
  exists s, (if truthy v then f v else Ok "") = Ok s
            /\ (truthy v = false -> s = "").
Proof.
  intros H. destruct (truthy v).
  - destruct (H eq_refl) as [s Hs]. exists s. split; [exact Hs | discriminate].
  - exists "". now split.
Qed.

Lemma stripHtml_any_total v :
  opt_text v = true -> truthy v = true -> exists s, stripHtml_any v = Ok s.
Proof. destruct v; try discriminate; intros _ _; simpl; eauto. Qed.

Lemma nullish_falsy v : is_nullish v = true -> truthy v = false.
Proof. now destruct v. Qed.

(** C5, against the claim as stated: a record with a numeric [title] gets a
    formatted title that is a number, not a string; a record whose
    [comments] is not an array makes [formatWorkItem] throw; a record whose
    priority id is [constructor] gets as its priority what [PRIORITY_MAP]
    inherits under that name, the function [Object]; and the record with no
    properties at all gets the id [#undefined], neither empty nor a
    sentinel. *)
Lemma formatWorkItem_loosely_typed :
  (exists data, formatWorkItem demo_host (VObj [("title", VNum 42)]) = Ok data
                /\ value (title data) = VNum 42)
  /\ formatWorkItem demo_host (VObj [("comments", VStr "x")]) = Throw TypeError
  /\ (exists data,
         formatWorkItem demo_host (VObj [("priority", VStr "constructor")]) = Ok data
         /\ value (priority data) = VFun "Object")
  /\ (exists data, formatWorkItem demo_host (VObj []) = Ok data
                   /\ value (id data) = VStr "#undefined").
Proof.
  split; [|split; [|split]];
    [eexists; split; reflexivity | reflexivity
     | eexists; split; reflexivity | eexists; split; reflexivity].
Qed.

(** C5, as amended: for every record whose properties, where present, have
    the types the tracker gives them (the timestamps numbers or strings) and
    whose priority, when it is an id, names no member of [Object.prototype],
    [formatWorkItem] throws nothing and every label/value pair of its result
    holds a string; an absent title, creator, timestamp or description is
    rendered as the empty string, an absent type or state as the sentinel
    for unknown, an absent priority or assignee as the sentinel for not set.
    (Nothing is said of the id of a record that has no identifier.) *)
Theorem formatted_values_are_strings :
  forall host item,
    tracker_record item = true ->
    own_id (prop item "priority") = true ->
    exists data,
      formatWorkItem host item = Ok data
      /\ Forall (fun entry => exists s, value entry = VStr s) (entries data)
      /\ (is_nullish (prop item "title") = true -> value (title data) = VStr "")
      /\ (is_nullish (prop item "type") = true -> value (type data) = VStr "未知")
      /\ (is_nullish (prop item "state") = true ->
          is_nullish (prop item "state_type") = true ->
          value (state data) = VStr "未知")
      /\ (is_nullish (prop item "priority") = true ->
          value (priority data) = VStr "未设置")
      /\ (is_nullish (prop item "assignee_name") = true ->
          is_nullish (prop item "assignee") = true ->
          value (assignee data) = VStr "未设置")
      /\ (is_nullish (prop item "created_by_name") = true ->
          value (createdBy data) = VStr "")
      /\ (is_nullish (prop item "created_at") = true -> value (createdAt data) = VStr "")
      /\ (is_nullish (prop item "updated_at") = true -> value (updatedAt data) = VStr "")
      /\ (is_nullish (prop item "description") = true ->
          value (description data) = VStr "").
Proof.
  intros host item H Hown.
  destruct item as [| | | | | |fs|?]; try discriminate.
  change (prop (VObj fs) "priority") with (field "priority" fs) in Hown.
  cbn [tracker_record] in H.
  apply andb_true_iff in H. destruct H as [H Hcomments].
  apply andb_true_iff in H. destruct H as [H Hattachments].
  apply andb_true_iff in H. destruct H as [H Hupdated].
  apply andb_true_iff in H. destruct H as [H Hcreated].
  apply andb_true_iff in H. destruct H as [H Hassignee].
  apply andb_true_iff in H. destruct H as [H Hpriority].
  apply andb_true_iff in H. destruct H as [H Hstatetype].
  apply andb_true_iff in H. destruct H as [H Hstate].
  apply andb_true_iff in H. destruct H as [Htexts Htype].
  rewrite forallb_forall in Htexts.
  pose proof (Htexts "whole_identifier" ltac:(simpl; tauto)) as Hwhole.
  pose proof (Htexts "identifier" ltac:(simpl; tauto)) as Hident.
  pose proof (Htexts "title" ltac:(simpl; tauto)) as Htitle.
  pose proof (Htexts "assignee_name" ltac:(simpl; tauto)) as Haname.
  pose proof (Htexts "created_by_name" ltac:(simpl; tauto)) as Hcname.
  pose proof (Htexts "description" ltac:(simpl; tauto)) as Hdescr.
  clear Htexts.
  destruct (idOf_text fs Hwhole Hident) as [sid Eid].
  destruct (typeName_text fs Htype) as [sty Ety].
  destruct (stateName_text fs Hstate Hstatetype) as [sst Est].
  destruct (priorityName_text fs Hpriority Hown) as [spr Epr].
  destruct (assigneeName_text fs Haname Hassignee) as [sas Eas].
  destruct (if_truthy_text (field "description" fs) stripHtml_any
              (stripHtml_any_total _ Hdescr)) as (sde & Ede & Ede0).
  destruct (map_or_empty_total formatAttachment attachment_ok _ Hattachments
              formatAttachment_total) as [atts Eatts].
  destruct (map_or_empty_total (formatComment host) comment_ok _ Hcomments
              (formatComment_total host)) as [cms Ecms].
  destruct (if_truthy_text (field "created_at" fs) (formatTimestamp host)
              (fun _ => formatTimestamp_total host _ Hcreated)) as (scr & Ecr & Ecr0).
  destruct (if_truthy_text (field "updated_at" fs) (formatTimestamp host)
              (fun _ => formatTimestamp_total host _ Hupdated)) as (sup & Eup & Eup0).
  destruct (opt_text_or _ "" Htitle) as [sti Eti].
  destruct (opt_text_or _ "" Hcname) as [scn Ecn].
  unfold formatWorkItem. simpl is_nullish. cbv iota.
  change (prop (VObj fs)) with (fun k => field k fs). cbv beta.
  rewrite Eid, Ety, Est, Epr. simpl bind.
  rewrite Ede. simpl bind. rewrite Eatts, Ecms. simpl bind.
  rewrite Ecr. simpl bind. rewrite Eup. simpl bind.
  eexists. split; [reflexivity|]. unfold entries. simpl.
  rewrite Eas, Eti, Ecn.
  split; [repeat constructor; eexists; reflexivity|].
  repeat split.
  - intros N. unfold or_else in Eti. rewrite (nullish_falsy _ N) in Eti. now rewrite <- Eti.
  - intros N. unfold typeName in Ety.
    change (prop (VObj fs) "type") with (field "type" fs) in Ety.
    destruct (field "type" fs); try discriminate; simpl in Ety; now injection Ety as <-.
  - intros N1 N2. unfold stateName in Est.
    change (prop (VObj fs) "state") with (field "state" fs) in Est.
    change (prop (VObj fs) "state_type") with (field "state_type" fs) in Est.
    destruct (field "state" fs); try discriminate;
      destruct (field "state_type" fs); try discriminate;
      simpl in Est; now injection Est as <-.
  - intros N. unfold priorityName in Epr.
    change (prop (VObj fs) "priority") with (field "priority" fs) in Epr.
    rewrite (nullish_falsy _ N) in Epr. now injection Epr as <-.
  - intros N1 N2. unfold assigneeName in Eas.
    change (prop (VObj fs) "assignee_name") with (field "assignee_name" fs) in Eas.
    change (prop (VObj fs) "assignee") with (field "assignee" fs) in Eas.
    rewrite (nullish_falsy _ N1) in Eas.
    destruct (field "assignee" fs); try discriminate; now rewrite <- Eas.
  - intros N. unfold or_else in Ecn. rewrite (nullish_falsy _ N) in Ecn. now rewrite <- Ecn.
  - intros N. now rewrite (Ecr0 (nullish_falsy _ N)).
  - intros N. now rewrite (Eup0 (nullish_falsy _ N)).
  - intros N. now rewrite (Ede0 (nullish_falsy _ N)).
Qed.

Lemma formatted_values_are_strings_witness :
  (exists data,
      formatWorkItem demo_host sparse_item = Ok data
      /\ Forall (fun entry => exists s, value entry = VStr s) (entries data)
      /\ value (title data) = VStr ""
      /\ value (type data) = VStr "未知"
      /\ value (state data) = VStr "未知"
      /\ value (priority data) = VStr "未设置"
      /\ value (assignee data) = VStr "未设置"
      /\ value (createdBy data) = VStr ""
      /\ value (createdAt data) = VStr ""
      /\ value (updatedAt data) = VStr ""
      /\ value (description data) = VStr "")
  /\ (exists data,
         formatWorkItem demo_host bug_item = Ok data
         /\ Forall (fun entry => exists s, value entry = VStr s) (entries data))
  /\ (exists data,
         formatWorkItem demo_host text_dated_item = Ok data
         /\ Forall (fun entry => exists s, value entry = VStr s) (entries data)).
Proof.
  split; [|split].
  - destruct (formatted_values_are_strings demo_host sparse_item eq_refl eq_refl)
      as (data & Hf & Hall & H1 & H2 & H3 & H4 & H5 & H6 & H7 & H8 & H9).
    exists data. split; [exact Hf|]. split; [exact Hall|].
    split; [apply H1; reflexivity|]. split; [apply H2; reflexivity|].
    split; [apply H3; reflexivity|]. split; [apply H4; reflexivity|].
    split; [apply H5; reflexivity|]. split; [apply H6; reflexivity|].
    split; [apply H7; reflexivity|]. split; [apply H8; reflexivity|].
    apply H9; reflexivity.
  - destruct (formatted_values_are_strings demo_host bug_item eq_refl eq_refl)
      as (data & Hf & Hall & _).
    exists data. now split.
  - destruct (formatted_values_are_strings demo_host text_dated_item eq_refl eq_refl)
      as (data & Hf & Hall & _).
    exists data. now split.
Defined.

(** ** Sanitizing HTML *)

(** *** A pattern that starts with a character the string does not have *)

Lemma same_lt ic x : same ic x "<" = true -> x = "<"%char.
Proof.
  destruct ic, x as [[] [] [] [] [] [] [] []]; vm_compute; intros H;
    try discriminate H; reflexivity.
Qed.

Lemma same_amp ic x : same ic x "&" = true -> x = "&"%char.
Proof.
  destruct ic, x as [[] [] [] [] [] [] [] []]; vm_compute; intros H;
    try discriminate H; reflexivity.
Qed.

Lemma match_first_fails re c x s :
  starts_with c re -> same (ignoreCase re) x c = false ->
  match_at re (String x s) = None.
Proof.
  intros [ps Hps] Hx. unfold match_at. rewrite Hps. simpl. now rewrite Hx.
Qed.

Lemma match_empty_fails re c : starts_with c re -> match_at re "" = None.
Proof. intros [ps Hps]. unfold match_at. now rewrite Hps. Qed.

Lemma replace_without_first re repl c s :
  starts_with c re ->
  (forall x, same (ignoreCase re) x c = true -> x = c) ->
  occurs c s = false ->
  replace re repl s = s.
Proof.
  intros Hre Hsame. unfold replace.
  induction s as [|x s IH]; intros Hocc; simpl.
  - now rewrite (match_empty_fails re c Hre).
  - simpl in Hocc. apply orb_false_iff in Hocc. destruct Hocc as [Hx Hs].
    rewrite (match_first_fails re c x s Hre).
    + now rewrite (IH Hs).
    + destruct (same (ignoreCase re) x c) eqn:E; [|reflexivity].
      apply Hsame in E. subst. now rewrite Ascii.eqb_refl in Hx.
Qed.

(** *** Runs of line feeds *)

Lemma lead_drop_length s : lead s + String.length (drop_lead s) = String.length s.
Proof.
  induction s as [|x s IH]; simpl; [reflexivity|].
  destruct (Ascii.eqb x LF); simpl; lia.
Qed.

Lemma lead_drop_lead s : lead (drop_lead s) = 0.
Proof.
  induction s as [|x s IH]; simpl; [reflexivity|].
  destruct (Ascii.eqb x LF) eqn:E; simpl; [exact IH | now rewrite E].
Qed.

Lemma drop_lead_drop s : drop (lead s) s = drop_lead s.
Proof.
  induction s as [|x s IH]; simpl; [reflexivity|].
  destruct (Ascii.eqb x LF); simpl; [exact IH | reflexivity].
Qed.

Lemma greedy_newlines fuel : forall n s,
  String.length s <= fuel ->
  greedy false (Only LF) 3 None (fun s' => Some (@None string, s')) fuel n s
  = if (3 <=? n + lead s)%nat then Some (None, drop_lead s) else None.
Proof.
  induction fuel as [|fuel IH]; intros n s Hlen.
  - destruct s; [|simpl in Hlen; lia]. simpl. now rewrite Nat.add_0_r.
  - destruct s as [|x s].
    + simpl. now rewrite Nat.add_0_r.
    + cbn [greedy below eat same lead drop_lead].
      destruct (Ascii.eqb x LF) eqn:E.
      * rewrite IH by (simpl in Hlen; lia).
        replace (S n + lead s) with (n + S (lead s)) by lia.
        destruct (3 <=? n + S (lead s))%nat eqn:T; [reflexivity|].
        apply Nat.leb_gt in T.
        destruct (3 <=? n)%nat eqn:T'; [apply Nat.leb_le in T'; lia | reflexivity].
      * now rewrite Nat.add_0_r.
Qed.

Lemma match_newlines s :
  match_at re_newlines s
  = if (3 <=? lead s)%nat then Some (None, drop_lead s) else None.
Proof.
  unfold match_at. simpl pieces. simpl ignoreCase. cbn [match_pieces].
  cbn [set lo hi group atLeast].
  apply (greedy_newlines (String.length s) 0 s). lia.
Qed.

Lemma collapse_skip k : forall s,
  replace_from re_newlines (const (nl ++ nl)) k s = collapse (drop k s).
Proof.
  induction k as [|k IH]; intros s.
  - now destruct s.
  - destruct s as [|x s]; [reflexivity|]. simpl. apply IH.
Qed.

Lemma collapse_step x s :
  collapse (String x s)
  = if (3 <=? lead (String x s))%nat
    then String LF (String LF (collapse (drop_lead (String x s))))
    else String x (collapse s).
Proof.
  unfold collapse at 1, replace. cbn [replace_from].
  rewrite match_newlines.
  destruct (3 <=? lead (String x s))%nat eqn:T; [|reflexivity].
  apply Nat.leb_le in T.
  pose proof (lead_drop_length (String x s)) as Hl.
  destruct (String.length (String x s) - String.length (drop_lead (String x s)))
    as [|n] eqn:D; [lia|].
  rewrite collapse_skip.
  replace n with (lead (String x s) - 1) by lia.
  rewrite <- (drop_lead_drop (String x s)).
  destruct (lead (String x s)) as [|m] eqn:L; [lia|].
  simpl. now rewrite Nat.sub_0_r.
Qed.

Lemma drop_lead_shorter x s :
  (3 <= lead (String x s))%nat ->
  String.length (drop_lead (String x s)) < String.length (String x s).
Proof. pose proof (lead_drop_length (String x s)). lia. Qed.

Lemma lead_collapse_bounded n : forall s,
  String.length s <= n -> lead (collapse s) = Nat.min (lead s) 2.
Proof.
  induction n as [|n IH]; intros s Hlen.
  - destruct s; [reflexivity | simpl in Hlen; lia].
  - destruct s as [|x s]; [reflexivity|].
    rewrite collapse_step.
    destruct (3 <=? lead (String x s))%nat eqn:T.
    + apply Nat.leb_le in T.
      pose proof (drop_lead_shorter x s T) as Hs.
      remember (lead (String x s)) as l eqn:El.
      cbn [lead]. change (Ascii.eqb LF LF) with true. cbv iota.
      rewrite IH by (simpl in Hlen, Hs |- *; lia).
      rewrite lead_drop_lead. simpl Nat.min. lia.
    + apply Nat.leb_gt in T. simpl in T |- *.
      destruct (Ascii.eqb x LF); [|reflexivity].
      rewrite IH by (simpl in Hlen; lia). lia.
Qed.

Lemma lead_collapse s : lead (collapse s) = Nat.min (lead s) 2.
Proof. now apply (lead_collapse_bounded (String.length s)). Qed.

Lemma no3_collapse_bounded n : forall s,
  String.length s <= n -> no3 (collapse s) = true.
Proof.
  induction n as [|n IH]; intros s Hlen.
  - destruct s; [reflexivity | simpl in Hlen; lia].
  - destruct s as [|x s]; [reflexivity|].
    pose proof (lead_collapse (String x s)) as Hlead.
    rewrite collapse_step in Hlead |- *.
    destruct (3 <=? lead (String x s))%nat eqn:T.
    + apply Nat.leb_le in T.
      pose proof (drop_lead_shorter x s T) as Hs.
      pose proof (lead_collapse (drop_lead (String x s))) as Hl.
      rewrite lead_drop_lead in Hl. simpl Nat.min in Hl.
      cbn [no3 lead]. change (Ascii.eqb LF LF) with true. cbv iota.
      rewrite Hl. rewrite IH by (simpl in Hlen, Hs |- *; lia).
      destruct (collapse (drop_lead (String x s))); reflexivity.
    + cbn [no3]. rewrite Hlead.
      rewrite IH by (simpl in Hlen; lia).
      rewrite andb_true_r. apply Nat.ltb_lt. lia.
Qed.

Lemma no3_collapse s : no3 (collapse s) = true.
Proof. now apply (no3_collapse_bounded (String.length s)). Qed.

Lemma collapse_no3 s : no3 s = true -> collapse s = s.
Proof.
  induction s as [|x s IH]; intros H; [reflexivity|].
  rewrite collapse_step.
  cbn [no3] in H. apply andb_true_iff in H. destruct H as [Hl Hs].
  apply Nat.ltb_lt in Hl.
  destruct (3 <=? lead (String x s))%nat eqn:T; [apply Nat.leb_le in T; lia|].
  now rewrite (IH Hs).
Qed.

(** *** Trimming *)

Lemma trimStart_unfold s :
  trimStart s = match space_rest s with
                | Some r => trimStart r
                | None => s
                end.
Proof.
  destruct s as [|a s1]; [reflexivity|]. cbn [trimStart space_rest].
  destruct (ascii_space a); [reflexivity|].
  destruct s1 as [|b s2]; [reflexivity|].
  destruct (space2 a b); [reflexivity|].
  destruct s2 as [|c s3]; [reflexivity|].
  destruct (space3 a b c); reflexivity.
Qed.

Lemma space_rest_split s r :
  space_rest s = Some r -> exists p, s = p ++ r /\ p <> "".
Proof.
  destruct s as [|a s1]; [discriminate|]. cbn [space_rest].
  destruct (ascii_space a).
  { intros E. injection E as <-. exists (String a ""). now split. }
  destruct s1 as [|b s2]; [discriminate|].
  destruct (space2 a b).
  { intros E. injection E as <-. exists (String a (String b "")). now split. }
  destruct s2 as [|c s3]; [discriminate|].
  destruct (space3 a b c); [|discriminate].
  intros E. injection E as <-. exists (String a (String b (String c ""))). now split.
Qed.

Lemma length_append a b : String.length (a ++ b) = String.length a + String.length b.
Proof. induction a as [|x a IH]; simpl; [reflexivity | now rewrite IH]. Qed.

Lemma space_rest_shorter s r : space_rest s = Some r -> String.length r < String.length s.
Proof.
  intros H. destruct (space_rest_split s r H) as (p & -> & Hp).
  rewrite length_append. destruct p; [contradiction | simpl; lia].
Qed.

Lemma space_rest_app a b r : space_rest a = Some r -> space_rest (a ++ b) = Some (r ++ b).
Proof.
  destruct a as [|x a1]; [discriminate|]. cbn [space_rest append].
  destruct (ascii_space x).
  { intros E. now injection E as <-. }
  destruct a1 as [|y a2]; [discriminate|]. cbn [append].
  destruct (space2 x y).
  { intros E. now injection E as <-. }
  destruct a2 as [|z a3]; [discriminate|]. cbn [append].
  destruct (space3 x y z); [|discriminate].
  intros E. now injection E as <-.
Qed.

Lemma space_rest_prefix a b : space_rest (a ++ b) = None -> space_rest a = None.
Proof.
  intros H. destruct (space_rest a) as [r|] eqn:E; [|reflexivity].
  rewrite (space_rest_app a b r E) in H. discriminate.
Qed.

Lemma trimStart_suffix_bounded n : forall s,
  String.length s <= n -> exists p, s = p ++ trimStart s.
Proof.
  induction n as [|n IH]; intros s Hlen.
  - destruct s; [now exists "" | simpl in Hlen; lia].
  - rewrite trimStart_unfold. destruct (space_rest s) as [r|] eqn:E.
    + pose proof (space_rest_shorter s r E) as Hr.
      destruct (space_rest_split s r E) as (p & -> & _).
      destruct (IH r ltac:(lia)) as [q Hq].
      exists (p ++ q). rewrite append_assoc. now rewrite <- Hq.
    + now exists "".
Qed.

Lemma trimStart_suffix s : exists p, s = p ++ trimStart s.
Proof. now apply (trimStart_suffix_bounded (String.length s)). Qed.

Lemma trimStart_idem_bounded n : forall s,
  String.length s <= n -> trimStart (trimStart s) = trimStart s.
Proof.
  induction n as [|n IH]; intros s Hlen.
  - destruct s; [reflexivity | simpl in Hlen; lia].
  - rewrite (trimStart_unfold s). destruct (space_rest s) as [r|] eqn:E.
    + apply IH. pose proof (space_rest_shorter s r E). lia.
    + rewrite trimStart_unfold. now rewrite E.
Qed.

Lemma trimStart_idem s : trimStart (trimStart s) = trimStart s.
Proof. now apply (trimStart_idem_bounded (String.length s)). Qed.

Lemma trimStart_length s : String.length (trimStart s) <= String.length s.
Proof.
  destruct (trimStart_suffix s) as [p Hp]. rewrite Hp at 2.
  rewrite length_append. lia.
Qed.

Lemma trimStart_fixed s : trimStart s = s -> space_rest s = None.
Proof.
  intros H. destruct (space_rest s) as [r|] eqn:E; [|reflexivity].
  rewrite trimStart_unfold, E in H.
  pose proof (space_rest_shorter s r E). pose proof (trimStart_length r).
  rewrite H in *. lia.
Qed.

Lemma trimStart_blank_app_bounded n : forall a r,
  String.length a <= n -> trimStart a = "" -> trimStart (a ++ r) = trimStart r.
Proof.
  induction n as [|n IH]; intros a r Hlen Ha.
  - destruct a; [reflexivity | simpl in Hlen; lia].
  - rewrite trimStart_unfold in Ha. destruct (space_rest a) as [a'|] eqn:E.
    + rewrite (trimStart_unfold (a ++ r)), (space_rest_app a r a' E).
      apply IH; [|exact Ha]. pose proof (space_rest_shorter a a' E). lia.
    + now subst a.
Qed.

Lemma trimStart_blank_app a r : trimStart a = "" -> trimStart (a ++ r) = trimStart r.
Proof. now apply (trimStart_blank_app_bounded (String.length a)). Qed.

Lemma string_eqb_empty s : (s =? "") = true -> s = "".
Proof. now destruct s. Qed.

(** What [trimEnd] removes is white space only. *)
Lemma trimEnd_split s : exists r, s = trimEnd s ++ r /\ trimStart r = "".
Proof.
  induction s as [|x s IH]; [now exists ""|].
  cbn [trimEnd]. destruct (trimStart (String x s) =? "") eqn:E.
  - exists (String x s). split; [reflexivity | now apply string_eqb_empty].
  - destruct IH as (r & Hr & Hb). exists r. split; [|exact Hb].
    simpl. now rewrite <- Hr.
Qed.

Lemma trimEnd_idem s : trimEnd (trimEnd s) = trimEnd s.
Proof.
  induction s as [|x s IH]; [reflexivity|].
  cbn [trimEnd]. destruct (trimStart (String x s) =? "") eqn:E; [reflexivity|].
  cbn [trimEnd]. rewrite IH.
  destruct (trimStart (String x (trimEnd s)) =? "") eqn:E'; [|reflexivity].
  apply string_eqb_empty in E'.
  destruct (trimEnd_split s) as (r & Hr & Hb).
  pose proof (trimStart_blank_app (String x (trimEnd s)) r E') as H.
  change (String x (trimEnd s) ++ r) with (String x (trimEnd s ++ r)) in H.
  rewrite <- Hr, Hb in H. rewrite H in E. discriminate.
Qed.

Lemma trimStart_trimEnd s : trimStart s = s -> trimStart (trimEnd s) = trimEnd s.
Proof.
  intros H. pose proof (trimStart_fixed s H) as Hn.
  destruct (trimEnd_split s) as (r & Hr & _).
  rewrite Hr in Hn. apply space_rest_prefix in Hn.
  rewrite trimStart_unfold. now rewrite Hn.
Qed.

Lemma trim_idem s : trim (trim s) = trim s.
Proof.
  unfold trim.
  rewrite (trimStart_trimEnd (trimStart s) (trimStart_idem s)).
  apply trimEnd_idem.
Qed.

(** *** Trimming keeps what the string has not *)

Lemma lead_app a b : lead a <= lead (a ++ b).
Proof.
  induction a as [|x a IH]; simpl; [lia|].
  destruct (Ascii.eqb x LF); lia.
Qed.

Lemma no3_suffix p t : no3 (p ++ t) = true -> no3 t = true.
Proof.
  induction p as [|x p IH]; simpl; [auto|].
  intros H. apply andb_true_iff in H. now apply IH.
Qed.

Lemma no3_prefix a b : no3 (a ++ b) = true -> no3 a = true.
Proof.
  induction a as [|x a IH]; [reflexivity|].
  change (String x a ++ b) with (String x (a ++ b)). cbn [no3].
  intros H. apply andb_true_iff in H. destruct H as [Hl Hs].
  rewrite (IH Hs), andb_true_r.
  apply Nat.ltb_lt in Hl. apply Nat.ltb_lt.
  pose proof (lead_app (String x a) b). simpl in *. lia.
Qed.

Lemma no3_trim s : no3 s = true -> no3 (trim s) = true.
Proof.
  intros H. unfold trim.
  destruct (trimStart_suffix s) as [p Hp]. rewrite Hp in H.
  apply no3_suffix in H.
  destruct (trimEnd_split (trimStart s)) as (r & Hr & _). rewrite Hr in H.
  now apply no3_prefix in H.
Qed.

Lemma occurs_app c a b : occurs c (a ++ b) = occurs c a || occurs c b.
Proof.
  induction a as [|x a IH]; simpl; [reflexivity|].
  now rewrite IH, orb_assoc.
Qed.

Lemma occurs_drop_lead c s : occurs c s = false -> occurs c (drop_lead s) = false.
Proof.
  induction s as [|x s IH]; simpl; [auto|].
  intros H. apply orb_false_iff in H. destruct H as [Hx Hs].
  destruct (Ascii.eqb x LF); [now apply IH|].
  simpl. now rewrite Hx, Hs.
Qed.

Lemma occurs_collapse_bounded c n : forall s,
  String.length s <= n -> occurs c s = false -> occurs c (collapse s) = false.
Proof.
  induction n as [|n IH]; intros s Hlen Hocc.
  - destruct s; [reflexivity | simpl in Hlen; lia].
  - destruct s as [|x s]; [reflexivity|].
    rewrite collapse_step.
    destruct (3 <=? lead (String x s))%nat eqn:T.
    + apply Nat.leb_le in T.
      pose proof (drop_lead_shorter x s T) as Hs.
      pose proof (occurs_drop_lead c _ Hocc) as Hd.
      assert (Hc : Ascii.eqb LF c = false).
      { simpl in T, Hocc. destruct (Ascii.eqb x LF) eqn:E; [|lia].
        apply Ascii.eqb_eq in E. subst x.
        now apply orb_false_iff in Hocc. }
      cbn [occurs]. rewrite Hc. simpl orb.
      apply IH; [simpl in Hlen, Hs |- *; lia | exact Hd].
    + simpl in Hocc |- *. apply orb_false_iff in Hocc. destruct Hocc as [Hx Hs].
      rewrite Hx. simpl. apply IH; [simpl in Hlen; lia | exact Hs].
Qed.

Lemma occurs_collapse c s : occurs c s = false -> occurs c (collapse s) = false.
Proof. now apply (occurs_collapse_bounded c (String.length s)). Qed.

Lemma occurs_trim c s : occurs c s = false -> occurs c (trim s) = false.
Proof.
  intros H. unfold trim.
  destruct (trimStart_suffix s) as [p Hp]. rewrite Hp, occurs_app in H.
  apply orb_false_iff in H. destruct H as [_ H].
  destruct (trimEnd_split (trimStart s)) as (r & Hr & _).
  rewrite Hr, occurs_app in H. now apply orb_false_iff in H.
Qed.

(** *** The sanitizer on text without markup *)

Lemma starts_with_lt :
  starts_with "<" re_img /\ starts_with "<" re_br
  /\ starts_with "<" re_p_close /\ starts_with "<" re_tag.
Proof. repeat split; eexists; reflexivity. Qed.

Lemma starts_with_amp :
  starts_with "&" re_nbsp /\ starts_with "&" re_lt
  /\ starts_with "&" re_gt /\ starts_with "&" re_amp.
Proof. repeat split; eexists; reflexivity. Qed.

(** Without [<] and [&] only the line feeds and the ends of the text change. *)
Lemma stripHtml_plain s :
  occurs "<" s = false -> occurs "&" s = false -> stripHtml s = trim (collapse s).
Proof.
  intros Hlt Hamp. unfold stripHtml.
  destruct (s =? "") eqn:E; [apply string_eqb_empty in E; now subst|].
  destruct starts_with_lt as (L1 & L2 & L3 & L4).
  destruct starts_with_amp as (A1 & A2 & A3 & A4).
  cbv zeta.
  rewrite (replace_without_first re_img _ "<" s L1 (same_lt _) Hlt).
  rewrite (replace_without_first re_br _ "<" s L2 (same_lt _) Hlt).
  rewrite (replace_without_first re_p_close _ "<" s L3 (same_lt _) Hlt).
  rewrite (replace_without_first re_tag _ "<" s L4 (same_lt _) Hlt).
  rewrite (replace_without_first re_nbsp _ "&" s A1 (same_amp _) Hamp).
  rewrite (replace_without_first re_lt _ "&" s A2 (same_amp _) Hamp).
  rewrite (replace_without_first re_gt _ "&" s A3 (same_amp _) Hamp).
  rewrite (replace_without_first re_amp _ "&" s A4 (same_amp _) Hamp).
  reflexivity.
Qed.

(** Whatever the input, the result is trimmed and has no three line feeds
    in a row. *)
Lemma stripHtml_shape s :
  no3 (stripHtml s) = true /\ trim (stripHtml s) = stripHtml s.
Proof.
  unfold stripHtml. destruct (s =? ""); [now split|]. cbv zeta.
  split; [apply no3_trim, no3_collapse | apply trim_idem].
Qed.

(** C3, against the claim as stated: the sanitizer decodes entities once per
    pass, so a second pass decodes what the first one produced:
    [&amp;lt;] becomes [&lt;] and then [<]; and the tag that decoding
    [&lt;b&gt;x] produces is stripped by the second pass. *)
Lemma stripHtml_not_idempotent :
  stripHtml "&amp;lt;" = "&lt;"
  /\ stripHtml (stripHtml "&amp;lt;") = "<"
  /\ stripHtml "&lt;b&gt;x" = "<b>x"
  /\ stripHtml (stripHtml "&lt;b&gt;x") = "x".
Proof. repeat split; vm_compute; reflexivity. Qed.

(** C3, as amended: when the sanitized text holds neither [<] nor [&],
    sanitizing it again returns it unchanged; in particular the sanitizer is
    idempotent on every text that holds neither character. *)
Theorem stripHtml_idempotent_without_markup :
  (forall s,
      occurs "<" (stripHtml s) = false ->
      occurs "&" (stripHtml s) = false ->
      stripHtml (stripHtml s) = stripHtml s)
  /\ (forall s,
         occurs "<" s = false ->
         occurs "&" s = false ->
         occurs "<" (stripHtml s) = false
         /\ occurs "&" (stripHtml s) = false
         /\ stripHtml (stripHtml s) = stripHtml s).
Proof.
  assert (again : forall s,
             occurs "<" (stripHtml s) = false ->
             occurs "&" (stripHtml s) = false ->
             stripHtml (stripHtml s) = stripHtml s).
  { intros s Hlt Hamp. destruct (stripHtml_shape s) as [Hno3 Htrim].
    rewrite (stripHtml_plain _ Hlt Hamp).
    now rewrite (collapse_no3 _ Hno3). }
  split; [exact again|].
  intros s Hlt Hamp.
  assert (Hlt' : occurs "<" (stripHtml s) = false).
  { rewrite (stripHtml_plain s Hlt Hamp). now apply occurs_trim, occurs_collapse. }
  assert (Hamp' : occurs "&" (stripHtml s) = false).
  { rewrite (stripHtml_plain s Hlt Hamp). now apply occurs_trim, occurs_collapse. }
  split; [exact Hlt'|]. split; [exact Hamp'|]. now apply again.
Qed.

Lemma stripHtml_idempotent_without_markup_witness :
  stripHtml sample_html = "Hello world" ++ nl ++ nl ++ "bye"
  /\ stripHtml (stripHtml sample_html) = stripHtml sample_html
  /\ stripHtml sample_plain = "two" ++ nl ++ nl ++ "paragraphs"
  /\ stripHtml (stripHtml sample_plain) = stripHtml sample_plain.
Proof.
  split; [vm_compute; reflexivity|]. split; [|split; [vm_compute; reflexivity|]].
  - apply (proj1 stripHtml_idempotent_without_markup sample_html);
      vm_compute; reflexivity.
  - apply (proj2 stripHtml_idempotent_without_markup sample_plain);
      vm_compute; reflexivity.
Defined.

(** * Further properties: the other tools, the client and the credentials *)

(** ** Identifiers *)

Lemma space_rest_hash t : space_rest (String "#" t) = None.
Proof. destruct t as [|b [|c t]]; reflexivity. Qed.

Lemma trimStart_hash t : trimStart (String "#" t) = String "#" t.
Proof. now rewrite trimStart_unfold, space_rest_hash. Qed.

(** X1: [#12345] and [12345] name the same path: the client cuts one
    leading [#] and the white space around what is left, so the cleaned
    identifier is trimmed.  The [#] is looked for before the trimming: behind
    a blank it stays. *)
Theorem cleanId_forms :
  forall s,
    prefix "#" s = false ->
    cleanId ("#" ++ s) = cleanId s
    /\ cleanId s = trim s
    /\ trim (cleanId s) = cleanId s
    /\ cleanId (" #" ++ s) = "#" ++ trimEnd s.
Proof.
  intros s Hs.
  assert (E : cleanId s = trim s).
  { unfold cleanId. destruct s as [|c r]; [reflexivity|].
    simpl in Hs. destruct (Ascii.eqb c "#") eqn:Ec; [|reflexivity].
    apply Ascii.eqb_eq in Ec. subst c.
    destruct (ascii_dec "#" "#") as [_|N]; [|now elim N].
    destruct r; discriminate Hs. }
  repeat split.
  - now rewrite E.
  - exact E.
  - rewrite E. apply trim_idem.
  - unfold cleanId, trim.
    change (trimEnd (trimStart (String "#" s)) = String "#" (trimEnd s)).
    rewrite trimStart_hash.
    change (trimEnd (String "#" s))
      with (if trimStart (String "#" s) =? "" then "" else String "#" (trimEnd s)).
    now rewrite trimStart_hash.
Qed.

Lemma cleanId_forms_witness :
  cleanId ("#" ++ "LFY-2513 ") = cleanId "LFY-2513 "
  /\ cleanId "LFY-2513 " = trim "LFY-2513 "
  /\ trim (cleanId "LFY-2513 ") = cleanId "LFY-2513 "
  /\ cleanId (" #" ++ "LFY-2513 ") = "#" ++ trimEnd "LFY-2513 ".
Proof. apply (cleanId_forms "LFY-2513 "). reflexivity. Defined.

(** ** Credentials *)

(** X2: credentials do not come back to life: what is valid at some time was
    valid at every earlier time.  Credentials without [expires_at], or with
    the expiry 0, never expire: their validity does not depend on the
    clock. *)
Theorem credentials_validity_over_time :
  forall credentials,
    (forall now later,
        (now <= later)%Z ->
        isCredentialsValid later credentials = true ->
        isCredentialsValid now credentials = true)
    /\ (forall c now later,
           credentials = Some c ->
           Credentials.expires_at c = None \/ Credentials.expires_at c = Some 0%Z ->
           isCredentialsValid now credentials = isCredentialsValid later credentials).
Proof.
  intros credentials. split.
  - intros now later Hle. unfold isCredentialsValid.
    destruct credentials as [c|]; [|discriminate].
    destruct (_ =? 0)%nat; [discriminate|].
    destruct (negb _); [discriminate|].
    destruct (Credentials.expires_at c) as [e|]; [|reflexivity].
    destruct (negb (e =? 0)%Z); [|reflexivity]. simpl.
    destruct (later >? e)%Z eqn:L; [discriminate|].
    destruct (now >? e)%Z eqn:N; [|reflexivity].
    apply Z.gtb_lt in N. rewrite Z.gtb_ltb in L. apply Z.ltb_ge in L. lia.
  - intros c now later -> He. unfold isCredentialsValid.
    destruct He as [-> | ->]; reflexivity.
Qed.

Lemma credentials_validity_over_time_witness :
  isCredentialsValid 5
    (Some {| Credentials.cookies := [session_cookie]; Credentials.domain := "d";
             Credentials.saved_at := 1; Credentials.expires_at := Some 10%Z;
             Credentials.user := None |}) = true
  /\ isCredentialsValid 5
       (Some {| Credentials.cookies := [session_cookie]; Credentials.domain := "d";
                Credentials.saved_at := 1; Credentials.expires_at := Some 0%Z;
                Credentials.user := None |})
     = isCredentialsValid 50
         (Some {| Credentials.cookies := [session_cookie]; Credentials.domain := "d";
                  Credentials.saved_at := 1; Credentials.expires_at := Some 0%Z;
                  Credentials.user := None |}).
Proof.
  split.
  - apply (proj1 (credentials_validity_over_time _) 5%Z 10%Z); [lia | reflexivity].
  - apply (proj2 (credentials_validity_over_time _) _ 5%Z 50%Z eq_refl).
    right. reflexivity.
Defined.
Lemma join_app sep a b :
  a <> [] -> b <> [] -> join sep (List.app a b) = join sep a ++ sep ++ join sep b.
Proof.
  intros Ha Hb. induction a as [|x a IH]; [now elim Ha|].
  destruct a as [|y a].
  - destruct b as [|z b]; [now elim Hb|]. reflexivity.
  - change (join sep (List.app (x :: y :: a) b))
      with (x ++ sep ++ join sep (List.app (y :: a) b)).
    rewrite IH by discriminate.
    change (join sep (x :: y :: a)) with (x ++ sep ++ join sep (y :: a)).
    now rewrite !append_assoc.
Qed.

(** X3: the [Cookie] header lists the cookies in their order, each as
    [name=value], with [; ] between two of them and nowhere else: the header
    of no cookie is empty, the header of one cookie is its name, [=] and its
    value, the header of a cookie and more is the pair of the cookie, [; ]
    and the header of the others, and the header of two lists in a row is
    the two headers with [; ] in between. *)
Theorem cookiesToHeader_pairs :
  cookiesToHeader [] = ""
  /\ (forall c, cookiesToHeader [c] = CookieData.name c ++ "=" ++ CookieData.value c)
  /\ (forall c rest,
         rest <> [] ->
         cookiesToHeader (c :: rest)
         = (CookieData.name c ++ "=" ++ CookieData.value c)
           ++ "; " ++ cookiesToHeader rest)
  /\ (forall first rest,
         first <> [] -> rest <> [] ->
         cookiesToHeader (List.app first rest)
         = cookiesToHeader first ++ "; " ++ cookiesToHeader rest).
Proof.
  assert (A : forall first rest,
             first <> [] -> rest <> [] ->
             cookiesToHeader (List.app first rest)
             = cookiesToHeader first ++ "; " ++ cookiesToHeader rest).
  { intros first rest Hf Hr. unfold cookiesToHeader. rewrite map_app.
    apply join_app.
    - destruct first; [now elim Hf | discriminate].
    - destruct rest; [now elim Hr | discriminate]. }
  split; [reflexivity|]. split; [reflexivity|]. split; [|exact A].
  intros c rest Hr. exact (A [c] rest ltac:(discriminate) Hr).
Qed.

Lemma cookiesToHeader_pairs_witness :
  cookiesToHeader [session_cookie; plain_cookie] = "pingcode_session=abc; sid=xyz"
  /\ cookiesToHeader (List.app [session_cookie] [plain_cookie; session_cookie])
     = cookiesToHeader [session_cookie] ++ "; "
       ++ cookiesToHeader [plain_cookie; session_cookie].
Proof.
  destruct cookiesToHeader_pairs as (_ & Hone & Hcons & Happ). split.
  - rewrite (Hcons session_cookie [plain_cookie]) by discriminate.
    rewrite (Hone plain_cookie). reflexivity.
  - apply Happ; discriminate.
Defined.
(** The step of the [reduce] of [login]. *)
Lemma expiresAt_fold cs : forall init,
  let e :=
    fold_left
      (fun min c =>
         match CookieData.expires c with
         | Some x =>
             if negb (x =? 0)%Z && (x >? 0)%Z
             then let expMs := (x * 1000)%Z in if (expMs <? min)%Z then expMs else min
             else min
         | None => min
         end) cs init in
  (e <= init)%Z
  /\ (forall c x, In c cs -> CookieData.expires c = Some x -> (0 < x)%Z -> (e <= x * 1000)%Z)
  /\ (e = init
      \/ exists c x, In c cs /\ CookieData.expires c = Some x /\ (0 < x)%Z
                     /\ e = (x * 1000)%Z).
Proof.
  induction cs as [|c cs IH]; intros init; simpl.
  - repeat split; [lia | intros c x [] | now left].
  - set (next := match CookieData.expires c with
                 | Some x =>
                     if negb (x =? 0)%Z && (x >? 0)%Z
                     then if (x * 1000 <? init)%Z then (x * 1000)%Z else init
                     else init
                 | None => init
                 end).
    destruct (IH next) as (Hle & Hall & Hex). cbv zeta in Hle, Hall, Hex.
    assert (Hnext : (next <= init)%Z
                    /\ (forall x, CookieData.expires c = Some x -> (0 < x)%Z ->
                                  (next <= x * 1000)%Z)
                    /\ (next = init
                        \/ exists x, CookieData.expires c = Some x /\ (0 < x)%Z
                                     /\ next = (x * 1000)%Z)).
    { subst next. destruct (CookieData.expires c) as [x|].
      - destruct (x =? 0)%Z eqn:E0; simpl.
        + apply Z.eqb_eq in E0. repeat split; [lia | | now left].
          intros y [= <-] Hy. lia.
        + destruct (x >? 0)%Z eqn:Eg.
          * apply Z.gtb_lt in Eg.
            destruct (x * 1000 <? init)%Z eqn:El.
            -- apply Z.ltb_lt in El. repeat split; [lia | | right; eauto].
               intros y [= <-] _. lia.
            -- apply Z.ltb_ge in El. repeat split; [lia | | now left].
               intros y [= <-] _. lia.
          * rewrite Z.gtb_ltb in Eg. apply Z.ltb_ge in Eg.
            repeat split; [lia | | now left].
            intros y [= <-] Hy. lia.
      - repeat split; [lia | discriminate | now left]. }
    destruct Hnext as (Hn1 & Hn2 & Hn3).
    repeat split.
    + lia.
    + intros c' x [<- | Hin] Hx Hpos.
      * specialize (Hn2 x Hx Hpos). lia.
      * eauto.
    + destruct Hex as [-> | (c' & x & Hin & Hx & Hpos & ->)].
      * destruct Hn3 as [-> | (x & Hx & Hpos & ->)]; [now left|].
        right. exists c, x. auto.
      * right. exists c', x. auto.
Qed.

(** X4: the expiry that [login] stores is the earliest of the moments at
    which a cookie expires (its [expires], in seconds, times 1000) and the
    moment seven days after the login; a cookie without [expires], or with
    one that is not positive (a session cookie), does not count. *)
Theorem login_expiry_is_earliest :
  forall now cookies,
    (expiresAtOf now cookies <= now + 604800000)%Z
    /\ (forall c x,
           In c cookies -> CookieData.expires c = Some x -> (0 < x)%Z ->
           (expiresAtOf now cookies <= x * 1000)%Z)
    /\ (expiresAtOf now cookies = (now + 604800000)%Z
        \/ exists c x,
             In c cookies /\ CookieData.expires c = Some x /\ (0 < x)%Z
             /\ expiresAtOf now cookies = (x * 1000)%Z).
Proof.
  intros now cookies.
  exact (expiresAt_fold cookies (now + 7 * 24 * 60 * 60 * 1000)%Z).
Qed.

Lemma login_expiry_is_earliest_witness :
  (expiresAtOf 1700000000000 [session_cookie] <= 1700000600 * 1000)%Z.
Proof.
  apply (proj1 (proj2 (login_expiry_is_earliest 1700000000000 [session_cookie]))
           session_cookie 1700000600%Z).
  - left. reflexivity.
  - reflexivity.
  - reflexivity.
Defined.
(** X5: when [login] stores credentials, they hold the cookies of the
    pingcode.com domains, and they are valid at a time [later] exactly when
    one of these cookies has a key name (one that contains [pingcode],
    [session] or [token]) and [later] is not past the stored expiry.  So a
    login whose cookies bear no such name reports success and leaves
    credentials that are valid at no time. *)
Theorem login_credentials_validity :
  forall domain now savedAt user cookies c,
    (0 <= now)%Z ->
    loginCredentials domain now savedAt user cookies = Some c ->
    Credentials.cookies c
    = filter (fun k => includes (CookieData.domain k) "pingcode.com") cookies
    /\ (forall later,
           isCredentialsValid later (Some c)
           = existsb key_cookie (Credentials.cookies c)
             && (later <=? expiresAtOf now (Credentials.cookies c))%Z)
    /\ (existsb key_cookie (Credentials.cookies c) = false ->
        forall later, isCredentialsValid later (Some c) = false).
Proof.
  intros domain now savedAt user cookies c Hnow H.
  unfold loginCredentials in H.
  destruct (_ =? 0)%nat eqn:Elen in H; [discriminate|].
  injection H as <-. cbn [Credentials.cookies].
  set (kept := filter _ cookies) in *.
  assert (Hvalid : forall later,
             isCredentialsValid later
               (Some {| Credentials.cookies := kept;
                        Credentials.domain := domain;
                        Credentials.saved_at := savedAt;
                        Credentials.expires_at := Some (expiresAtOf now kept);
                        Credentials.user := user |})
             = existsb key_cookie kept && (later <=? expiresAtOf now kept)%Z).
  { intros later. unfold isCredentialsValid.
    cbn [Credentials.cookies Credentials.expires_at]. rewrite Elen.
    destruct (existsb key_cookie kept); [|reflexivity]. simpl.
    assert (Hpos : (expiresAtOf now kept =? 0)%Z = false).
    { apply Z.eqb_neq.
      destruct (expiresAt_fold kept (now + 7 * 24 * 60 * 60 * 1000)%Z)
        as (_ & _ & [E | (k & x & _ & _ & Hx & E)]); cbv zeta in E;
        unfold expiresAtOf; rewrite E; lia. }
    rewrite Hpos. simpl. rewrite Z.gtb_ltb, Z.leb_antisym.
    now destruct (_ <? _)%Z. }
  repeat split.
  - exact Hvalid.
  - intros Hkey later. now rewrite Hvalid, Hkey.
Qed.

Lemma login_credentials_validity_witness :
  isCredentialsValid 1700000000500
    (Some {| Credentials.cookies := [session_cookie];
             Credentials.domain := "neuralgalaxy.pingcode.com";
             Credentials.saved_at := 1700000000001;
             Credentials.expires_at := Some (expiresAtOf 1700000000000 [session_cookie]);
             Credentials.user := None |})
  = existsb key_cookie [session_cookie]
    && (1700000000500 <=? expiresAtOf 1700000000000 [session_cookie])%Z
  /\ isCredentialsValid 1700000000500
       (Some {| Credentials.cookies := [plain_cookie];
                Credentials.domain := "neuralgalaxy.pingcode.com";
                Credentials.saved_at := 1700000000001;
                Credentials.expires_at := Some (expiresAtOf 1700000000000 [plain_cookie]);
                Credentials.user := None |})
     = false.
Proof.
  split.
  - apply (proj1 (proj2 (login_credentials_validity
                           "neuralgalaxy.pingcode.com" 1700000000000 1700000000001
                           None [session_cookie] _ ltac:(lia) eq_refl))).
  - apply (proj2 (proj2 (login_credentials_validity
                           "neuralgalaxy.pingcode.com" 1700000000000 1700000000001
                           None [plain_cookie] _ ltac:(lia) eq_refl)) eq_refl).
Defined.
(** ** Changing the state of a work item *)

Lemma prefix_refl s : prefix s s = true.
Proof.
  induction s as [|c s IH]; [reflexivity|].
  simpl. destruct (ascii_dec c c) as [_|N]; [exact IH | now elim N].
Qed.

Lemma includes_refl s : includes s s = true.
Proof.
  destruct s as [|c s]; [reflexivity|].
  change (prefix (String c s) (String c s) || includes s (String c s) = true).
  now rewrite prefix_refl.
Qed.

Lemma is_text_contains v q : is_text v q = true -> text_contains v q = true.
Proof. intros H. apply is_text_eq in H. subst v. apply includes_refl. Qed.

Lemma state_matches_names stateName s :
  state_ok s = true -> state_matches stateName s = Ok (names_contain stateName s).
Proof.
  destruct s as [| | | | |?|fs|?]; try discriminate. simpl. intros H.
  apply andb_prop in H. destruct H as [Hn Hd].
  unfold state_matches, names_contain, get. simpl.
  destruct (is_text (field "name" fs) stateName) eqn:E1.
  { now rewrite (is_text_contains _ _ E1). }
  destruct (is_text (field "display_name" fs) stateName) eqn:E2.
  { now rewrite (is_text_contains _ _ E2), orb_true_r. }
  destruct (field "name" fs) as [| | | |n| | |?]; try discriminate Hn;
    destruct (field "display_name" fs) as [| | | |d| | |?]; try discriminate Hd;
    simpl; try reflexivity;
    destruct (includes n stateName); reflexivity.
Qed.

Lemma findM_first p before target after :
  Forall (fun s => p s = Ok false) before ->
  p target = Ok true ->
  findM p (List.app before (target :: after)) = Ok target.
Proof.
  intros Hb Ht. induction Hb as [|x l Hx _ IH]; simpl.
  - now rewrite Ht.
  - now rewrite Hx.
Qed.

Lemma findM_none p l :
  Forall (fun s => p s = Ok false) l -> findM p l = Ok VUndef.
Proof. intros H. induction H as [|x l Hx _ IH]; simpl; [reflexivity|]. now rewrite Hx. Qed.

Lemma findM_found p l t :
  findM p l = Ok t -> truthy t = true -> In t l /\ p t = Ok true.
Proof.
  induction l as [|x l IH]; simpl; intros H Ht.
  - injection H as <-. discriminate Ht.
  - destruct (p x) as [[|]|] eqn:E; simpl in H; try discriminate H.
    + injection H as <-. auto.
    + destruct (IH H Ht). auto.
Qed.

Lemma states_rejected stateName l :
  forallb state_ok l = true ->
  forallb (fun s => negb (names_contain stateName s)) l = true ->
  Forall (fun s => state_matches stateName s = Ok false) l.
Proof.
  intros Hok Hno. apply Forall_forall. intros s Hin.
  rewrite forallb_forall in Hok, Hno.
  rewrite (state_matches_names _ _ (Hok s Hin)).
  specialize (Hno s Hin). now destruct (names_contain stateName s).
Qed.

Lemma state_ok_truthy s : state_ok s = true -> truthy s = true.
Proof. now destruct s. Qed.

Lemma state_label_text s :
  state_ok s = true ->
  exists label, to_string (prop s "display_name" ||| prop s "name") = Ok label.
Proof.
  destruct s as [| | | | |?|fs|?]; try discriminate. simpl. intros H.
  apply andb_prop in H. destruct H as [Hn Hd].
  apply opt_text_to_string. now apply or_else_opt_text.
Qed.

(** X6: [updateWorkItemState] takes the first state, in the order in which
    the tracker lists them, whose name or display name contains the
    requested name as a substring, and asks the client for one update, with
    the [_id] of that state.  The states listed behind it play no part: a
    state whose name is exactly the requested one does not win over an
    earlier one that merely contains it. *)
Theorem update_takes_first_containing :
  forall host before target after update workItemId stateName,
    forallb state_ok before = true ->
    forallb (fun s => negb (names_contain stateName s)) before = true ->
    state_ok target = true ->
    names_contain stateName target = true ->
    exists label,
      to_string (prop target "display_name" ||| prop target "name") = Ok label
      /\ updateWorkItemState host (Ok (List.app before (target :: after))) update
           workItemId stateName
         = ([prop target "_id"],
            match update (prop target "_id") with
            | Ok _ =>
                succeed ("✅ 工作项 " ++ workItemId ++ " 状态已更新为 "
                         ++ dq ++ label ++ dq)
            | Throw e => fail (messageOf host e)
            end).
Proof.
  intros host before target after update workItemId stateName Hok Hno Ht Hin.
  destruct (state_label_text _ Ht) as [label Hl]. exists label. split; [exact Hl|].
  unfold updateWorkItemState.
  replace (List.length (List.app before (target :: after)) =? 0)%nat with false
    by (rewrite length_app; simpl; symmetry; apply Nat.eqb_neq; lia).
  rewrite (findM_first _ before target after).
  - rewrite (state_ok_truthy _ Ht). simpl.
    destruct (update (prop target "_id")); [|reflexivity]. now rewrite Hl.
  - now apply states_rejected.
  - now rewrite state_matches_names, Hin.
Qed.

Lemma update_takes_first_containing_witness :
  exists label,
    to_string (VStr "未完成") = Ok label
    /\ updateWorkItemState demo_host (Ok sample_states) (fun _ => Ok VNull) "LFY-1" "完成"
       = ([VStr "s2"],
          succeed ("✅ 工作项 " ++ "LFY-1" ++ " 状态已更新为 " ++ dq ++ label ++ dq)).
Proof.
  apply (update_takes_first_containing demo_host
           [VObj [("_id", VStr "s1"); ("name", VStr "todo"); ("display_name", VStr "待处理")]]
           (VObj [("_id", VStr "s2"); ("name", VStr "not_done");
                  ("display_name", VStr "未完成")])
           [VObj [("_id", VStr "s3"); ("name", VStr "done"); ("display_name", VStr "完成")]]
           (fun _ => Ok VNull) "LFY-1" "完成"); reflexivity.
Defined.
Lemma availableStates_labels l :
  forallb state_ok l = true ->
  availableStates l = Ok (join "、" (map state_label l)).
Proof.
  intros Hok. unfold availableStates.
  assert (E : mapM (fun s => d <- get s "display_name" ;; Ok (d ||| prop s "name")) l
              = Ok (map (fun s => prop s "display_name" ||| prop s "name") l)).
  { apply mapM_Forall2. induction l as [|s l IH]; simpl; constructor.
    - simpl in Hok. apply andb_prop in Hok. destruct Hok as [Hs _].
      now destruct s.
    - apply IH. simpl in Hok. now apply andb_prop in Hok. }
  rewrite E. simpl. unfold join_any.
  assert (E2 : mapM (fun x => if is_nullish x then Ok "" else to_string x)
                 (map (fun s => prop s "display_name" ||| prop s "name") l)
               = Ok (map state_label l)).
  { clear E. apply mapM_Forall2. induction l as [|s l IH]; simpl; constructor.
    - simpl in Hok. apply andb_prop in Hok. destruct Hok as [Hs _].
      destruct s as [| | | | |?|fs|?]; try discriminate Hs. simpl in Hs.
      apply andb_prop in Hs. destruct Hs as [Hn Hd].
      assert (Ht : opt_text (field "display_name" fs ||| field "name" fs) = true)
        by now apply or_else_opt_text.
      unfold state_label. simpl.
      destruct (field "display_name" fs ||| field "name" fs);
        try discriminate Ht; reflexivity.
    - apply IH. simpl in Hok. now apply andb_prop in Hok. }
  now rewrite E2.
Qed.

(** X7: when no listed state has a name or a display name that contains the
    requested name, [updateWorkItemState] asks the client for no update and
    answers with an error that quotes the requested name and lists the
    labels of the selectable states (the display name, else the name)
    separated by [、]; for an empty list of states the error says that the
    work item has no state to choose from. *)
Theorem update_without_match :
  forall host states update workItemId stateName,
    forallb state_ok states = true ->
    forallb (fun s => negb (names_contain stateName s)) states = true ->
    updateWorkItemState host (Ok states) update workItemId stateName
    = ([],
       fail (match states with
             | [] => "工作项 " ++ workItemId ++ " 没有可用的状态选项"
             | _ =>
                 "未找到名为 " ++ dq ++ stateName ++ dq ++ " 的状态。可用状态: "
                 ++ join "、" (map state_label states)
             end)).
Proof.
  intros host states update workItemId stateName Hok Hno.
  unfold updateWorkItemState.
  destruct states as [|s l] eqn:E; [reflexivity|]. rewrite <- E in *.
  replace (List.length states =? 0)%nat with false by now rewrite E.
  rewrite (findM_none _ _ (states_rejected _ _ Hok Hno)). simpl.
  rewrite (availableStates_labels _ Hok). now rewrite E.
Qed.

Lemma update_without_match_witness :
  updateWorkItemState demo_host (Ok sample_states) (fun _ => Ok VNull) "LFY-1" "关闭"
  = ([],
     fail ("未找到名为 " ++ dq ++ "关闭" ++ dq ++ " 的状态。可用状态: "
           ++ join "、" ["待处理"; "未完成"; "完成"])).
Proof.
  apply (update_without_match demo_host sample_states (fun _ => Ok VNull) "LFY-1" "关闭");
    reflexivity.
Defined.

(** X8: whatever the tracker lists, [updateWorkItemState] asks the client for
    at most one update, and only with the [_id] of a state of the list that
    the predicate of [find] accepted; it reports success only when that
    update was asked for and went through. *)
Theorem update_is_guarded :
  forall host states update workItemId stateName issued reply,
    updateWorkItemState host states update workItemId stateName = (issued, reply) ->
    (issued = []
     \/ exists all target,
          states = Ok all /\ In target all
          /\ state_matches stateName target = Ok true
          /\ issued = [prop target "_id"])
    /\ (Reply.success reply = true ->
        exists stateId r, issued = [stateId] /\ update stateId = Ok r).
Proof.
  intros host states update workItemId stateName issued reply H.
  unfold updateWorkItemState in H.
  destruct states as [all|e]; [|injection H as <- <-; split; [now left | discriminate]].
  destruct (_ =? 0)%nat; [injection H as <- <-; split; [now left | discriminate]|].
  destruct (findM _ all) as [target|e] eqn:F;
    [|injection H as <- <-; split; [now left | discriminate]].
  destruct (truthy target) eqn:T; simpl in H.
  - destruct (findM_found _ _ _ F T) as [Hin Hp].
    destruct (update (prop target "_id")) as [r|e] eqn:U.
    + destruct (to_string _) in H; injection H as <- <-;
        (split; [right; exists all, target; auto | intros _; eauto]).
    + injection H as <- <-. split; [right; exists all, target; auto | discriminate].
  - destruct (availableStates all); injection H as <- <-;
      (split; [now left | discriminate]).
Qed.

Lemma update_is_guarded_witness :
  exists stateId r,
    [VStr "s2"] = [stateId] /\ (fun _ : any => Ok VNull) stateId = Ok r.
Proof.
  apply (proj2 (update_is_guarded demo_host (Ok sample_states) (fun _ => Ok VNull)
                  "LFY-1" "done" [VStr "s2"] _ eq_refl)).
  reflexivity.
Defined.
(** ** The release listing *)

Lemma filterM_filter p l r :
  filterM p l = Ok r ->
  r = filter (holds p) l /\ Forall (fun x => exists b, p x = Ok b) l.
Proof.
  revert r. induction l as [|x l IH]; simpl; intros r H.
  - injection H as <-. auto.
  - destruct (p x) as [b|] eqn:E; simpl in H; [|discriminate H].
    destruct (filterM p l) as [rest|]; simpl in H; [|discriminate H].
    injection H as <-. destruct (IH rest eq_refl) as [-> Hall].
    split; [|constructor; eauto].
    assert (Hx : holds p x = b) by (unfold holds; now rewrite E).
    simpl. now rewrite Hx.
Qed.

Lemma filterM_total p l :
  (forall x, In x l -> exists b, p x = Ok b) -> exists r, filterM p l = Ok r.
Proof.
  induction l as [|x l IH]; simpl; intros H; [eauto|].
  destruct (H x (or_introl eq_refl)) as [b ->].
  destruct IH as [r ->]; [intros; apply H; now right|]. simpl. eauto.
Qed.

Lemma same_value_num t n : same_value t (VNum n) = true -> t = VNum n.
Proof.
  destruct t; simpl; try discriminate. intros H. apply Z.eqb_eq in H. now subst.
Qed.

Lemma has_type_eq n i : has_type n i = true <-> prop i "type" = VNum n.
Proof.
  unfold has_type. split.
  - apply same_value_num.
  - intros ->. simpl. apply Z.eqb_refl.
Qed.

Lemma type_is_has_type n i b : type_is n i = Ok b -> b = has_type n i.
Proof.
  unfold type_is, get, has_type. destruct (is_nullish i); [discriminate|].
  simpl. now intros [= <-].
Qed.

Lemma type_is_readable n i : is_nullish i = false -> type_is n i = Ok (has_type n i).
Proof. intros H. unfold type_is, get. now rewrite H. Qed.

Lemma type_is_nullish n i b : type_is n i = Ok b -> is_nullish i = false.
Proof. unfold type_is, get. now destruct (is_nullish i). Qed.

(** The three groups on an item that can be read. *)
Lemma group_predicates i :
  is_nullish i = false ->
  isBug i = Ok (has_type 5 i)
  /\ isStory i = Ok (has_type 3 i || has_type 2 i)
  /\ isOther i = Ok (negb (has_type 5 i) && negb (has_type 3 i) && negb (has_type 2 i)).
Proof.
  intros H. unfold isBug, isStory, isOther. rewrite !(type_is_readable _ _ H). simpl.
  repeat split.
  - now destruct (has_type 3 i).
  - destruct (has_type 5 i); [reflexivity|]. now destruct (has_type 3 i).
Qed.

Lemma filter_ext_in' {A : Type} (f g : A -> bool) l :
  (forall x, In x l -> f x = g x) -> filter f l = filter g l.
Proof.
  induction l as [|x l IH]; simpl; intros H; [reflexivity|].
  rewrite (H x (or_introl eq_refl)), IH; [reflexivity|]. intros; apply H; now right.
Qed.

Lemma three_way_partition {A : Type} (f g h : A -> bool) l :
  (forall x, In x l ->
             (f x = true /\ g x = false /\ h x = false)
             \/ (f x = false /\ g x = true /\ h x = false)
             \/ (f x = false /\ g x = false /\ h x = true)) ->
  Permutation (List.app (filter f l) (List.app (filter g l) (filter h l))) l.
Proof.
  induction l as [|x l IH]; simpl; intros H; [constructor|].
  assert (IH' := IH (fun y Hy => H y (or_intror Hy))).
  destruct (H x (or_introl eq_refl)) as [(-> & -> & ->) | [(-> & -> & ->) | (-> & -> & ->)]].
  - simpl. now constructor.
  - apply Permutation_sym.
    apply (Permutation_trans (Permutation_cons eq_refl (Permutation_sym IH'))).
    apply Permutation_middle.
  - apply Permutation_sym.
    apply (Permutation_trans (Permutation_cons eq_refl (Permutation_sym IH'))).
    rewrite !app_assoc. apply Permutation_middle.
Qed.

Lemma groups_filters items bugs stories others :
  groups items = Ok (bugs, stories, others) ->
  Forall (fun i => is_nullish i = false) items
  /\ bugs = filter (has_type 5) items
  /\ stories = filter (fun i => has_type 3 i || has_type 2 i) items
  /\ others
     = filter (fun i => negb (has_type 5 i) && negb (has_type 3 i) && negb (has_type 2 i))
         items.
Proof.
  unfold groups. intros H.
  destruct (filterM isBug items) as [b|] eqn:Eb; simpl in H; [|discriminate H].
  destruct (filterM isStory items) as [s|] eqn:Es; simpl in H; [|discriminate H].
  destruct (filterM isOther items) as [o|] eqn:Eo; simpl in H; [|discriminate H].
  injection H as <- <- <-.
  destruct (filterM_filter _ _ _ Eb) as [-> Hall].
  destruct (filterM_filter _ _ _ Es) as [-> _].
  destruct (filterM_filter _ _ _ Eo) as [-> _].
  assert (Hread : Forall (fun i => is_nullish i = false) items).
  { apply Forall_forall. intros i Hi. rewrite Forall_forall in Hall.
    destruct (Hall i Hi) as [b Hb]. exact (type_is_nullish _ _ _ Hb). }
  split; [exact Hread|]. rewrite Forall_forall in Hread.
  repeat split; apply filter_ext_in'; intros i Hi; unfold holds;
    destruct (group_predicates i (Hread i Hi)) as (H1 & H2 & H3);
    rewrite ?H1, ?H2, ?H3; reflexivity.
Qed.

(** X9: the three groups of the release listing split the items: every item
    of the release is in exactly one of [bugs] (type 5), [stories] (type 3
    or 2) and [others] (anything else, an item without type and one whose
    type is an object included), so the numbers in the three headings add up
    to the number in [共 N 项].  The grouping fails only on an item that
    is [null] or [undefined]. *)
Theorem release_groups_partition :
  forall items,
    (forall bugs stories others,
        groups items = Ok (bugs, stories, others) ->
        Permutation (List.app bugs (List.app stories others)) items
        /\ List.length bugs + List.length stories + List.length others
           = List.length items
        /\ Forall (fun i => prop i "type" = VNum 5) bugs
        /\ Forall (fun i => prop i "type" = VNum 3 \/ prop i "type" = VNum 2) stories
        /\ Forall (fun i => has_type 5 i = false /\ has_type 3 i = false
                            /\ has_type 2 i = false) others)
    /\ (forallb (fun i => negb (is_nullish i)) items = true ->
        exists bugs stories others, groups items = Ok (bugs, stories, others)).
Proof.
  intros items. split.
  - intros bugs stories others H.
    destruct (groups_filters _ _ _ _ H) as (_ & -> & -> & ->).
    assert (P : Permutation
                  (List.app (filter (has_type 5) items)
                     (List.app (filter (fun i => has_type 3 i || has_type 2 i) items)
                        (filter (fun i => negb (has_type 5 i) && negb (has_type 3 i)
                                          && negb (has_type 2 i)) items)))
                  items).
    { apply three_way_partition. intros i _. unfold has_type.
      destruct (prop i "type") as [| | |n| | | |?]; simpl; auto.
      destruct (n =? 5)%Z eqn:E5; destruct (n =? 3)%Z eqn:E3;
        destruct (n =? 2)%Z eqn:E2; simpl; auto;
        rewrite ?Z.eqb_eq in *; lia. }
    split; [exact P|]. split.
    { apply Permutation_length in P. rewrite !length_app in P. lia. }
    repeat split; apply Forall_forall; intros i Hi; apply filter_In in Hi;
      destruct Hi as [_ Hi].
    + now apply has_type_eq.
    + apply orb_prop in Hi. destruct Hi as [Hi | Hi]; apply has_type_eq in Hi; auto.
    + destruct (has_type 5 i), (has_type 3 i), (has_type 2 i);
        try discriminate Hi; auto.
  - intros Hread. rewrite forallb_forall in Hread.
    assert (R : forall i, In i items -> is_nullish i = false).
    { intros i Hi. specialize (Hread i Hi). now destruct (is_nullish i). }
    unfold groups.
    destruct (filterM_total isBug items) as [b ->].
    { intros i Hi. destruct (group_predicates i (R i Hi)) as (-> & _). eauto. }
    destruct (filterM_total isStory items) as [s ->].
    { intros i Hi. destruct (group_predicates i (R i Hi)) as (_ & -> & _). eauto. }
    destruct (filterM_total isOther items) as [o ->].
    { intros i Hi. destruct (group_predicates i (R i Hi)) as (_ & _ & ->). eauto. }
    simpl. eauto.
Qed.

Lemma release_groups_partition_witness :
  exists bugs stories others,
    groups sample_release = Ok (bugs, stories, others)
    /\ List.length bugs + List.length stories + List.length others
       = List.length sample_release.
Proof.
  destruct (proj2 (release_groups_partition sample_release) eq_refl)
    as (bugs & stories & others & H).
  exists bugs, stories, others. split; [exact H|].
  apply (proj1 (release_groups_partition sample_release) _ _ _ H).
Defined.
(** X10: the release listing and the detail view resolve the state label of
    an item in the same way: the display name of its state, else the name,
    else the entry of [STATE_TYPE_MAP] for its [state_type], else [未知]. *)
Theorem listing_state_as_in_detail :
  forall item,
    is_nullish item = false ->
    getState item = stateName item.
Proof.
  intros item H. unfold getState, stateName, get. rewrite H. simpl.
  destruct (prop item "state") as [| | | | | |sfs|?]; try reflexivity.
Qed.

Lemma listing_state_as_in_detail_witness :
  getState bug_item = stateName bug_item.
Proof. apply listing_state_as_in_detail. reflexivity. Defined.

(** X11: the release listing and the detail view agree on the id of an item
    that has a [whole_identifier] and on that of an item with neither
    identifier; for an item that only has an [identifier] the listing puts a
    [#] in front of it and the detail view does not. *)
Theorem listing_id_and_detail_id :
  forall item,
    is_nullish item = false ->
    (truthy (prop item "whole_identifier") = true
     \/ truthy (prop item "identifier") = false ->
     getId item = idOf item)
    /\ (forall s,
           truthy (prop item "whole_identifier") = false ->
           prop item "identifier" = VStr s ->
           s <> "" ->
           idOf item = Ok (VStr s) /\ getId item = Ok (VStr ("#" ++ s))).
Proof.
  intros item H. unfold getId, idOf, get, or_else. rewrite H. simpl. split.
  - intros [Hw | Hi].
    + now rewrite Hw, Hw.
    + destruct (truthy (prop item "whole_identifier")) eqn:Hw.
      * now rewrite Hw.
      * now rewrite Hi.
  - intros s Hw Hi Hs. rewrite Hw, Hi. simpl.
    destruct (s =? "") eqn:E; [apply String.eqb_eq in E; contradiction|].
    simpl. auto.
Qed.

Lemma listing_id_and_detail_id_witness :
  idOf sparse_item = Ok (VStr "LFY-1") /\ getId sparse_item = Ok (VStr ("#" ++ "LFY-1")).
Proof.
  apply (proj2 (listing_id_and_detail_id sparse_item eq_refl) "LFY-1");
    [reflexivity | reflexivity | discriminate].
Defined.
Lemma keeps_inv lower t i :
  PingCodeClient.keeps lower t i = Ok true ->
  match t with
  | ItemType.bug => prop i "type" = VNum 5 \/ type_named lower ["bug"; "缺陷"] i
  | ItemType.story =>
      prop i "type" = VNum 3 \/ type_named lower ["story"; "需求"; "用户故事"] i
  | ItemType.all => True
  end.
Proof.
  unfold PingCodeClient.keeps, get. destruct (is_nullish i); [discriminate|]. simpl.
  destruct (get_opt (prop i "type") "name") as [| | | |n| | |?] eqn:En; simpl;
    try discriminate.
  - destruct t; [| |trivial]; rewrite !orb_false_r; intros [= H];
      left; now apply same_value_num.
  - destruct t; [| |trivial]; rewrite !orb_false_r; intros [= H];
      left; now apply same_value_num.
  - destruct t; [| |trivial]; intros [= H].
    + apply orb_prop in H. destruct H as [H | H].
      * apply orb_prop in H. destruct H as [H | H].
        -- left. now apply same_value_num.
        -- right. exists n. split; [exact En|]. apply String.eqb_eq in H. simpl. auto.
      * right. exists n. split; [exact En|]. apply String.eqb_eq in H. simpl. auto.
    + apply orb_prop in H. destruct H as [H | H].
      * apply orb_prop in H. destruct H as [H | H].
        -- apply orb_prop in H. destruct H as [H | H].
           ++ left. now apply same_value_num.
           ++ right. exists n. split; [exact En|]. apply String.eqb_eq in H. simpl. auto.
        -- right. exists n. split; [exact En|]. apply String.eqb_eq in H. simpl. auto.
      * right. exists n. split; [exact En|]. apply String.eqb_eq in H. simpl. auto.
Qed.

Lemma type_named_no_code lower names i n : type_named lower names i -> has_type n i = false.
Proof.
  intros (x & Hx & _). unfold has_type.
  destruct (prop i "type") as [| | | | | |tfs|?]; try reflexivity. discriminate Hx.
Qed.

Lemma filterM_kept p l r x : filterM p l = Ok r -> In x r -> p x = Ok true.
Proof.
  intros H Hin. destruct (filterM_filter _ _ _ H) as [-> Hall].
  apply filter_In in Hin. destruct Hin as [_ Hh]. unfold holds in Hh.
  destruct (p x) as [[|]|]; now try discriminate Hh.
Qed.

Lemma filter_nil_when {A : Type} (f : A -> bool) l :
  (forall x, In x l -> f x = false) -> filter f l = [].
Proof.
  induction l as [|x l IH]; simpl; intros H; [reflexivity|].
  rewrite (H x (or_introl eq_refl)). apply IH. intros; apply H; now right.
Qed.

(** X12: the type filter of the client and the groups of the listing do not
    read the type of an item alike.  Of the items that [getReleaseWorkItems]
    keeps for [story], those of numeric type 3 are listed under [需求] and
    those kept for the name of their type object under [其他]; an item of
    numeric type 2, which the listing would show under [需求], is not kept,
    and nothing is listed under [缺陷].  For [bug] the kept items of numeric
    type 5 are listed under [缺陷], those kept for the name of their type
    object under [其他], and nothing under [需求]. *)
Theorem filtered_release_groups :
  forall toLowerCase items kept bugs stories others,
    groups kept = Ok (bugs, stories, others) ->
    (PingCodeClient.filterByType toLowerCase (Some ItemType.story) items = Ok kept ->
     bugs = []
     /\ Forall (fun i => prop i "type" = VNum 3) stories
     /\ Forall (type_named toLowerCase ["story"; "需求"; "用户故事"]) others)
    /\ (PingCodeClient.filterByType toLowerCase (Some ItemType.bug) items = Ok kept ->
        stories = []
        /\ Forall (fun i => prop i "type" = VNum 5) bugs
        /\ Forall (type_named toLowerCase ["bug"; "缺陷"]) others).
Proof.
  intros lower items kept bugs stories others G.
  destruct (groups_filters _ _ _ _ G) as (_ & -> & -> & ->).
  split; intros F; simpl in F.
  - assert (K : forall i, In i kept ->
                          prop i "type" = VNum 3
                          \/ type_named lower ["story"; "需求"; "用户故事"] i).
    { intros i Hi. exact (keeps_inv _ _ _ (filterM_kept _ _ _ _ F Hi)). }
    repeat split.
    + apply filter_nil_when. intros i Hi. destruct (K i Hi) as [E | N].
      * unfold has_type. now rewrite E.
      * exact (type_named_no_code _ _ _ _ N).
    + apply Forall_forall. intros i Hi. apply filter_In in Hi. destruct Hi as [Hi H].
      destruct (K i Hi) as [E | N]; [exact E|].
      rewrite !(type_named_no_code _ _ _ _ N) in H. discriminate H.
    + apply Forall_forall. intros i Hi. apply filter_In in Hi. destruct Hi as [Hi H].
      destruct (K i Hi) as [E | N]; [|exact N].
      unfold has_type in H. rewrite E in H. discriminate H.
  - assert (K : forall i, In i kept ->
                          prop i "type" = VNum 5 \/ type_named lower ["bug"; "缺陷"] i).
    { intros i Hi. exact (keeps_inv _ _ _ (filterM_kept _ _ _ _ F Hi)). }
    repeat split.
    + apply filter_nil_when. intros i Hi. destruct (K i Hi) as [E | N].
      * unfold has_type. now rewrite E.
      * now rewrite !(type_named_no_code _ _ _ _ N).
    + apply Forall_forall. intros i Hi. apply filter_In in Hi. destruct Hi as [Hi H].
      destruct (K i Hi) as [E | N]; [exact E|].
      rewrite (type_named_no_code _ _ _ _ N) in H. discriminate H.
    + apply Forall_forall. intros i Hi. apply filter_In in Hi. destruct Hi as [Hi H].
      destruct (K i Hi) as [E | N]; [|exact N].
      unfold has_type in H. rewrite E in H. discriminate H.
Qed.

Lemma filtered_release_groups_witness :
  @nil any = []
  /\ Forall (fun i => prop i "type" = VNum 5)
       [VObj [("identifier", VStr "LFY-2"); ("title", VStr "b"); ("type", VNum 5)];
        VObj [("identifier", VStr "LFY-5"); ("title", VStr "e"); ("type", VNum 5)]]
  /\ Forall (type_named ascii_lower ["bug"; "缺陷"])
       [VObj [("identifier", VStr "LFY-3"); ("title", VStr "c");
              ("type", VObj [("name", VStr "Bug")])]].
Proof.
  apply (proj2 (filtered_release_groups ascii_lower sample_release sample_bugs
                  _ _ _ eq_refl) eq_refl).
Defined.
(** ** Lists and quotes *)

Lemma list_item_line type index item content :
  item_content item content ->
  match item with
  | VUndef | VNull => Throw TypeError
  | VObj ifs =>
      with_field "children"
        (fun grandchildren =>
           match grandchildren with
           | VUndef | VNull => Ok (item_prefix type index ++ "")
           | VArr subitems =>
               parts <- mapM parseBlockElement subitems ;;
               itemContent <- join_any "" parts ;;
               Ok (item_prefix type index ++ itemContent)
           | _ => Throw TypeError
           end)
        ifs
  | _ => Ok (item_prefix type index ++ "")
  end = Ok (item_prefix type index ++ content).
Proof.
  intros [Hread Hc]. destruct item as [| | | | | |ifs|?]; try discriminate Hread;
    simpl in Hc.
  1-4, 6: destruct Hc as [[_ ->] | (subitems & texts & Hs & _)];
            [reflexivity | discriminate Hs].
  rewrite with_field_field.
  destruct Hc as [[Hn ->] | (subitems & texts & -> & Hall & ->)].
  - destruct (field "children" ifs); try discriminate Hn; reflexivity.
  - rewrite (mapM_texts _ _ _ Hall). simpl. now rewrite join_any_texts.
Qed.

Lemma mapMi_lines {A : Type} (f : nat -> A -> result string) (g : nat -> string -> string)
    (shows : A -> string -> Prop) items contents :
  (forall index item content, shows item content -> f index item = Ok (g index content)) ->
  Forall2 shows items contents ->
  forall index,
    mapMi f index items
    = Ok ((fix lines (i : nat) (cs : list string) : list string :=
             match cs with
             | [] => []
             | c :: rest => g i c :: lines (S i) rest
             end) index contents).
Proof.
  intros Hf Hall. induction Hall as [|x c l cs Hx _ IH]; intros index; simpl.
  - reflexivity.
  - now rewrite (Hf _ _ _ Hx), IH.
Qed.

Lemma numbered_lines cs : forall index,
  (fix lines (i : nat) (cs : list string) : list string :=
     match cs with
     | [] => []
     | c :: rest => (item_prefix (VStr "numbered-list") i ++ c) :: lines (S i) rest
     end) index cs
  = numbered index cs.
Proof.
  induction cs as [|c cs IH]; intros index; simpl; [reflexivity|].
  rewrite IH. unfold item_prefix. simpl. now rewrite append_assoc.
Qed.

Lemma bulleted_lines cs : forall index,
  (fix lines (i : nat) (cs : list string) : list string :=
     match cs with
     | [] => []
     | c :: rest => (item_prefix (VStr "bulleted-list") i ++ c) :: lines (S i) rest
     end) index cs
  = map (fun c => "- " ++ c) cs.
Proof.
  induction cs as [|c cs IH]; intros index; simpl; [reflexivity|]. now rewrite IH.
Qed.

(** X13: a list renders one line per item, in the order of the items: for a
    bulleted list [- ] and then what the item shows, for a numbered list the
    position of the item, counted from 1, [. ] and then what the item shows.
    An item shows the renderings of its children one after the other, and
    nothing when it has none; its own kind is not looked at. *)
Theorem list_renders_item_lines :
  forall fs items contents,
    field "children" fs = VArr items ->
    Forall2 item_content items contents ->
    (field "type" fs = VStr "bulleted-list" ->
     parseBlockElement (VObj fs)
     = Ok (VStr (join nl (map (fun c => "- " ++ c) contents))))
    /\ (field "type" fs = VStr "numbered-list" ->
        parseBlockElement (VObj fs) = Ok (VStr (join nl (numbered 0 contents)))).
Proof.
  intros fs items contents Hc Hall. split; intros Ht.
  - simpl. rewrite Ht. simpl. rewrite with_field_field, Hc. simpl.
    rewrite (mapMi_lines _ (fun i c => item_prefix (VStr "bulleted-list") i ++ c)
               item_content items contents).
    + simpl. now rewrite bulleted_lines.
    + intros index item content H.
      exact (list_item_line (VStr "bulleted-list") index item content H).
    + exact Hall.
  - simpl. rewrite Ht. simpl. rewrite with_field_field, Hc. simpl.
    rewrite (mapMi_lines _ (fun i c => item_prefix (VStr "numbered-list") i ++ c)
               item_content items contents).
    + simpl. now rewrite numbered_lines.
    + intros index item content H.
      exact (list_item_line (VStr "numbered-list") index item content H).
    + exact Hall.
Qed.

Lemma list_renders_item_lines_witness :
  parseBlockElement (VObj (sample_list "bulleted-list"))
  = Ok (VStr (join nl ["- one"; "- "; "- three"]))
  /\ parseBlockElement (VObj (sample_list "numbered-list"))
     = Ok (VStr (join nl ["1. one"; "2. "; "3. three"])).
Proof.
  assert (H : forall kind,
             Forall2 item_content
               [VObj [("type", VStr "list-item");
                      ("children",
                       VArr [VObj [("type", VStr "paragraph");
                                   ("children", VArr [VObj [("text", VStr "one")]])]])];
                VObj [("type", VStr kind)];
                VObj [("type", VStr "list-item");
                      ("children",
                       VArr [VObj [("text", VStr "th")]; VObj [("text", VStr "ree")]])]]
               ["one"; ""; "three"]).
  { intros kind. constructor; [|constructor; [|constructor; [|constructor]]].
    - split; [reflexivity|]. right. eexists _, ["one"].
      split; [reflexivity|]. split; [|reflexivity]. repeat constructor.
    - split; [reflexivity|]. left. split; reflexivity.
    - split; [reflexivity|]. right. eexists _, ["th"; "ree"].
      split; [reflexivity|]. split; [|reflexivity]. repeat constructor. }
  split.
  - apply (proj1 (list_renders_item_lines (sample_list "bulleted-list") _
                    ["one"; ""; "three"] eq_refl (H "list-item")) eq_refl).
  - apply (proj2 (list_renders_item_lines (sample_list "numbered-list") _
                    ["one"; ""; "three"] eq_refl (H "list-item")) eq_refl).
Defined.
Lemma split_lines_cons s : exists l ls, split_lines s = l :: ls.
Proof.
  induction s as [|c s (l & ls & IH)]; simpl; [eauto|].
  destruct (Ascii.eqb c LF); [eauto|]. rewrite IH. eauto.
Qed.

Lemma join_cons sep x y l : join sep (x :: y :: l) = x ++ sep ++ join sep (y :: l).
Proof. reflexivity. Qed.

(** [s.split('\n').join('\n')] is [s]. *)
Lemma join_split_lines s : join nl (split_lines s) = s.
Proof.
  induction s as [|c s IH]; [reflexivity|]. simpl.
  destruct (Ascii.eqb c LF) eqn:E.
  - apply Ascii.eqb_eq in E. subst c.
    destruct (split_lines_cons s) as (l & ls & Hs). rewrite Hs in *.
    rewrite join_cons, IH. reflexivity.
  - destruct (split_lines_cons s) as (l & ls & Hs). rewrite Hs in *.
    destruct ls as [|l' ls].
    + simpl in *. now rewrite IH.
    + change (String c (join nl (l :: l' :: ls)) = String c s). now rewrite IH.
Qed.

Lemma split_lines_no_lf s : Forall (fun l => occurs LF l = false) (split_lines s).
Proof.
  induction s as [|c s IH]; simpl; [repeat constructor|].
  destruct (Ascii.eqb c LF) eqn:E; [constructor; [reflexivity | exact IH]|].
  destruct (split_lines_cons s) as (l & ls & Hs). rewrite Hs in *.
  inversion IH as [|? ? Hl Hls]; subst. constructor; [|exact Hls].
  simpl. now rewrite E.
Qed.

Lemma split_lines_line l : occurs LF l = false -> split_lines l = [l].
Proof.
  induction l as [|c l IH]; simpl; [reflexivity|]. intros H.
  apply orb_false_elim in H. destruct H as [E H]. rewrite E, (IH H). reflexivity.
Qed.

Lemma split_lines_app l s :
  occurs LF l = false -> split_lines (l ++ String LF s) = l :: split_lines s.
Proof.
  induction l as [|c l IH]; simpl; intros H; [reflexivity|].
  apply orb_false_elim in H. destruct H as [E H]. rewrite E, (IH H). reflexivity.
Qed.

(** [lines.join('\n').split('\n')] is [lines] when no line holds a line feed. *)
Lemma split_lines_join l ls :
  Forall (fun x => occurs LF x = false) (l :: ls) ->
  split_lines (join nl (l :: ls)) = l :: ls.
Proof.
  revert l. induction ls as [|y ls IH]; intros l H; inversion H as [|? ? Hl Hls]; subst.
  - now apply split_lines_line.
  - rewrite join_cons.
    change (nl ++ join nl (y :: ls)) with (String LF (join nl (y :: ls))).
    rewrite (split_lines_app _ _ Hl), (IH y Hls). reflexivity.
Qed.

Lemma drop_quote_mark ls : map (drop 2) (map (fun line => "> " ++ line) ls) = ls.
Proof. induction ls as [|l ls IH]; [reflexivity|]. cbn [map]. now rewrite IH. Qed.

(** X14: a block quote renders line by line: the renderings of its children
    are joined by line feeds, and every line of the result, also each line
    of a child that renders to several, appears behind [> ].  Nothing is
    lost: without the two leading characters of each line the quote is the
    joined content again. *)
Theorem blockquote_quotes_every_line :
  forall fs items texts,
    field "type" fs = VStr "blockquote" ->
    field "children" fs = VArr items ->
    Forall2 (fun x t => parseBlockElement x = Ok (VStr t)) items texts ->
    exists quote,
      parseBlockElement (VObj fs) = Ok (VStr quote)
      /\ split_lines quote
         = map (fun line => "> " ++ line) (split_lines (join nl texts))
      /\ join nl (map (drop 2) (split_lines quote)) = join nl texts.
Proof.
  intros fs items texts Ht Hc Hall.
  exists (join nl (map (fun line => "> " ++ line) (split_lines (join nl texts)))).
  assert (S : split_lines
                (join nl (map (fun line => "> " ++ line) (split_lines (join nl texts))))
              = map (fun line => "> " ++ line) (split_lines (join nl texts))).
  { destruct (split_lines_cons (join nl texts)) as (l & ls & Hs).
    assert (N := split_lines_no_lf (join nl texts)). rewrite Hs in *.
    simpl map. apply split_lines_join.
    change (Forall (fun x => occurs LF x = false)
              (map (fun line => "> " ++ line) (l :: ls))).
    apply Forall_forall. intros x Hx. apply in_map_iff in Hx.
    destruct Hx as (y & <- & Hy). rewrite Forall_forall in N.
    rewrite occurs_app, (N y Hy). reflexivity. }
  repeat split.
  - simpl. rewrite Ht. simpl. rewrite with_field_field, Hc. simpl.
    rewrite (mapM_texts _ _ _ Hall). simpl. now rewrite join_any_texts.
  - exact S.
  - rewrite S, drop_quote_mark. apply join_split_lines.
Qed.

Lemma blockquote_quotes_every_line_witness :
  exists quote,
    parseBlockElement
      (VObj [("type", VStr "blockquote");
             ("children",
              VArr [VObj [("type", VStr "code"); ("content", VStr "x")];
                    VObj [("text", VStr "y")]])])
    = Ok (VStr quote)
    /\ split_lines quote
       = map (fun line => "> " ++ line)
           (split_lines (join nl ["```" ++ nl ++ "x" ++ nl ++ "```"; "y"]))
    /\ join nl (map (drop 2) (split_lines quote))
       = join nl ["```" ++ nl ++ "x" ++ nl ++ "```"; "y"].
Proof.
  apply (blockquote_quotes_every_line
           [("type", VStr "blockquote");
            ("children",
             VArr [VObj [("type", VStr "code"); ("content", VStr "x")];
                   VObj [("text", VStr "y")]])]
           [VObj [("type", VStr "code"); ("content", VStr "x")]; VObj [("text", VStr "y")]]
           ["```" ++ nl ++ "x" ++ nl ++ "```"; "y"]); try reflexivity.
  repeat constructor.
Defined.
(** ** The texts of a formatted record *)

Lemma mapM_inv {A B : Type} (f : A -> result B) l ys :
  mapM f l = Ok ys -> Forall2 (fun x y => f x = Ok y) l ys.
Proof.
  revert ys. induction l as [|x l IH]; simpl; intros ys H.
  - injection H as <-. constructor.
  - destruct (f x) as [y|] eqn:E; simpl in H; [|discriminate H].
    destruct (mapM f l) as [r|]; simpl in H; [|discriminate H].
    injection H as <-. constructor; auto.
Qed.

Lemma map_or_empty_inv {B : Type} (f : any -> result B) v ys :
  map_or_empty f v = Ok ys ->
  exists items, v ||| VArr [] = VArr items /\ Forall2 (fun x y => f x = Ok y) items ys.
Proof.
  unfold map_or_empty. destruct (v ||| VArr []) as [| | | | |items| |?]; try discriminate.
  intros H. exists items. split; [reflexivity|]. now apply mapM_inv.
Qed.

Lemma formatWorkItem_texts host item wi :
  formatWorkItem host item = Ok wi ->
  (exists d, (if truthy (prop item "description")
              then stripHtml_any (prop item "description") else Ok "") = Ok d
             /\ value (description wi) = VStr d)
  /\ map_or_empty formatAttachment (prop item "attachments") = Ok (attachments wi)
  /\ map_or_empty (formatComment host) (prop item "comments") = Ok (comments wi).
Proof.
  unfold formatWorkItem. intros H.
  destruct (is_nullish item); [discriminate|].
  invert_bind. injection H as <-. simpl. eauto.
Qed.

Lemma parseCommentContent_trimmed v s : parseCommentContent v = Ok s -> trim s = s.
Proof.
  unfold parseCommentContent. destruct v as [| | | | |blocks| |?];
    try (intros [= <-]; reflexivity).
  intros H. invert_bind. injection H as <-. apply trim_idem.
Qed.

(** X15: the texts that [formatWorkItem] makes are tidy, whatever the record
    holds: the description has no white space at either end and nowhere
    three line feeds in a row, and the content of every comment has no white
    space at either end. *)
Theorem formatted_texts_are_trimmed :
  forall host item wi,
    formatWorkItem host item = Ok wi ->
    (exists d, value (description wi) = VStr d /\ trim d = d /\ no3 d = true)
    /\ Forall (fun c => trim (content c) = content c) (comments wi).
Proof.
  intros host item wi H.
  destruct (formatWorkItem_texts _ _ _ H) as ((d & Hd & Ed) & _ & Hc). split.
  - exists d. split; [exact Ed|].
    destruct (truthy (prop item "description")) eqn:T.
    + unfold stripHtml_any in Hd.
      destruct (prop item "description") as [| | | |s| | |?]; try discriminate Hd;
        try (rewrite T in Hd; discriminate Hd).
      injection Hd as <-. destruct (stripHtml_shape s). auto.
    + injection Hd as <-. auto.
  - destruct (map_or_empty_inv _ _ _ Hc) as (items & _ & Hall).
    clear - Hall. induction Hall as [|x c l cs Hx _ IH]; constructor; [|exact IH].
    unfold formatComment in Hx. invert_bind. injection Hx as <-. simpl.
    eapply parseCommentContent_trimmed; eassumption.
Qed.

Lemma formatted_texts_are_trimmed_witness :
  exists wi,
    formatWorkItem demo_host bug_item = Ok wi
    /\ (exists d, value (description wi) = VStr d /\ trim d = d /\ no3 d = true)
    /\ Forall (fun c => trim (content c) = content c) (comments wi).
Proof.
  eexists. split; [reflexivity|].
  apply (formatted_texts_are_trimmed demo_host bug_item). reflexivity.
Defined.
(** ** The tool on well-typed records *)

Lemma tracker_record_formats host item :
  tracker_record item = true ->
  exists wi,
    formatWorkItem host item = Ok wi
    /\ Forall (fun entry => printable (value entry)) (entries wi)
    /\ is_text_value (value (type wi))
    /\ Forall (fun a => is_text_value (name a) /\ is_text_value (url a)) (attachments wi)
    /\ Forall (fun c => is_text_value (author c)) (comments wi).
Proof.
  intros H.
  destruct item as [| | | | | |fs|?]; try discriminate.
  cbn [tracker_record] in H.
  apply andb_true_iff in H. destruct H as [H Hcomments].
  apply andb_true_iff in H. destruct H as [H Hattachments].
  apply andb_true_iff in H. destruct H as [H Hupdated].
  apply andb_true_iff in H. destruct H as [H Hcreated].
  apply andb_true_iff in H. destruct H as [H Hassignee].
  apply andb_true_iff in H. destruct H as [H Hpriority].
  apply andb_true_iff in H. destruct H as [H Hstatetype].
  apply andb_true_iff in H. destruct H as [H Hstate].
  apply andb_true_iff in H. destruct H as [Htexts Htype].
  rewrite forallb_forall in Htexts.
  pose proof (Htexts "whole_identifier" ltac:(simpl; tauto)) as Hwhole.
  pose proof (Htexts "identifier" ltac:(simpl; tauto)) as Hident.
  pose proof (Htexts "title" ltac:(simpl; tauto)) as Htitle.
  pose proof (Htexts "assignee_name" ltac:(simpl; tauto)) as Haname.
  pose proof (Htexts "created_by_name" ltac:(simpl; tauto)) as Hcname.
  pose proof (Htexts "description" ltac:(simpl; tauto)) as Hdescr.
  clear Htexts.
  destruct (idOf_text fs Hwhole Hident) as [sid Eid].
  destruct (typeName_text fs Htype) as [sty Ety].
  destruct (stateName_text fs Hstate Hstatetype) as [sst Est].
  destruct (priorityName_printable fs Hpriority) as (vpr & Epr & Ppr).
  destruct (assigneeName_text fs Haname Hassignee) as [sas Eas].
  destruct (if_truthy_text (field "description" fs) stripHtml_any
              (stripHtml_any_total _ Hdescr)) as (sde & Ede & _).
  destruct (map_or_empty_total formatAttachment attachment_ok _ Hattachments
              formatAttachment_total) as [atts Eatts].
  destruct (map_or_empty_total (formatComment host) comment_ok _ Hcomments
              (formatComment_total host)) as [cms Ecms].
  destruct (if_truthy_text (field "created_at" fs) (formatTimestamp host)
              (fun _ => formatTimestamp_total host _ Hcreated)) as (scr & Ecr & _).
  destruct (if_truthy_text (field "updated_at" fs) (formatTimestamp host)
              (fun _ => formatTimestamp_total host _ Hupdated)) as (sup & Eup & _).
  destruct (opt_text_or _ "" Htitle) as [sti Eti].
  destruct (opt_text_or _ "" Hcname) as [scn Ecn].
  assert (Hatts : Forall (fun a => is_text_value (name a) /\ is_text_value (url a)) atts).
  { destruct (map_or_empty_inv _ _ _ Eatts) as (items & Ei & Hall).
    assert (Hok : forall x, In x items -> attachment_ok x = true).
    { unfold opt_array in Hattachments. unfold or_else in Ei.
      destruct (field "attachments" fs) as [| | | | |l| |?]; try discriminate Hattachments;
        simpl in Ei; injection Ei as <-; [intros x [] | intros x [] |].
      now apply forallb_forall. }
    clear - Hall Hok. induction Hall as [|x a l r Hx _ IH]; constructor.
    - specialize (Hok x (or_introl eq_refl)).
      destruct x as [| | | | | |afs|?]; try discriminate Hok. simpl in Hok.
      rewrite !andb_true_iff in Hok. destruct Hok as (Hn & Hf & Hu & Hd & _).
      unfold formatAttachment in Hx. simpl in Hx. injection Hx as <-. simpl. split.
      + apply or_else_text_value; [now apply or_else_opt_text | now exists "附件"].
      + apply or_else_text_value; [now apply or_else_opt_text | now exists ""].
    - apply IH. intros y Hy. apply Hok. now right. }
  assert (Hcms : Forall (fun c => is_text_value (author c)) cms).
  { destruct (map_or_empty_inv _ _ _ Ecms) as (items & Ei & Hall).
    assert (Hok : forall x, In x items -> comment_ok x = true).
    { unfold opt_array in Hcomments. unfold or_else in Ei.
      destruct (field "comments" fs) as [| | | | |l| |?]; try discriminate Hcomments;
        simpl in Ei; injection Ei as <-; [intros x [] | intros x [] |].
      now apply forallb_forall. }
    clear - Hall Hok. induction Hall as [|x c l r Hx _ IH]; constructor.
    - specialize (Hok x (or_introl eq_refl)).
      destruct x as [| | | | | |cfs|?]; try discriminate Hok. simpl in Hok.
      rewrite !andb_true_iff in Hok. destruct Hok as ((Hn & _) & _).
      unfold formatComment in Hx. simpl in Hx. invert_bind. injection Hx as <-. simpl.
      apply or_else_text_value; [exact Hn | now exists "用户"].
    - apply IH. intros y Hy. apply Hok. now right. }
  unfold formatWorkItem. simpl is_nullish. cbv iota.
  change (prop (VObj fs)) with (fun k => field k fs). cbv beta.
  rewrite Eid, Ety, Est, Epr. simpl bind.
  rewrite Ede. simpl bind. rewrite Eatts, Ecms. simpl bind.
  rewrite Ecr. simpl bind. rewrite Eup. simpl bind.
  eexists. split; [reflexivity|]. unfold entries. simpl.
  change (prop (VObj fs)) with (fun k => field k fs) in Eas. cbv beta in Eas.
  rewrite Eti, Ecn.
  split; [|split; [eexists; reflexivity | split; assumption]].
  repeat constructor; try (eexists; reflexivity); try exact Ppr.
  apply text_printable. exact (ex_intro _ sas Eas).
Qed.
Lemma bullet_text f : printable (value f) -> exists l, bullet f = Ok l.
Proof. intros [s E]. unfold bullet. rewrite E. simpl. eauto. Qed.

Lemma bullet_if_set_text f : printable (value f) -> exists l, bullet_if_set f = Ok l.
Proof.
  intros H. unfold bullet_if_set. destruct (truthy (value f)); [|eauto].
  destruct (bullet_text f H) as [l ->]. simpl. eauto.
Qed.

Lemma getWorkItemString_total wi :
  Forall (fun entry => printable (value entry)) (entries wi) ->
  Forall (fun a => is_text_value (name a) /\ is_text_value (url a)) (attachments wi) ->
  Forall (fun c => is_text_value (author c)) (comments wi) ->
  exists document, getWorkItemString wi = Ok document.
Proof.
  intros He Ha Hc. unfold entries in He.
  repeat match goal with
         | H : Forall _ (_ :: _) |- _ => inversion H; clear H; subst
         end.
  destruct (mapM_total attachment_line (attachments wi)) as [als Ea].
  { intros a Hin. rewrite Forall_forall in Ha. destruct (Ha a Hin) as [[n En] [u Eu]].
    unfold attachment_line. rewrite En, Eu. simpl.
    destruct (negb (u =? "")); eauto. }
  destruct (fun H => mapMi_total comment_lines (comments wi) H 0) as [cls Ec].
  { intros i c Hin. rewrite Forall_forall in Hc. destruct (Hc c Hin) as [a Ea'].
    unfold comment_lines. rewrite Ea'. simpl. eauto. }
  unfold getWorkItemString.
  repeat match goal with
         | H : printable (value (id wi)) |- _ => destruct H as [? ->]
         | H : printable (value (title wi)) |- _ => destruct H as [? ->]
         | H : printable (value (description wi)) |- _ => destruct H as [? ->]
         end.
  cbn [bind].
  destruct (bullet_text (type wi)) as [? ->]; [assumption|].
  destruct (bullet_text (state wi)) as [? ->]; [assumption|].
  destruct (bullet_text (priority wi)) as [? ->]; [assumption|].
  destruct (bullet_text (assignee wi)) as [? ->]; [assumption|].
  destruct (bullet_if_set_text (createdBy wi)) as [? ->]; [assumption|].
  destruct (bullet_if_set_text (createdAt wi)) as [? ->]; [assumption|].
  destruct (bullet_if_set_text (updatedAt wi)) as [? ->]; [assumption|].
  cbn [bind].
  match goal with
  | |- context [truthy ?v] => destruct (truthy v)
  end; cbn [bind];
    (remember (attachments wi) as atts; destruct atts; cbv zeta; rewrite ?Ea; cbn [bind];
     remember (comments wi) as cs; destruct cs; cbv zeta; rewrite ?Ec; cbn [bind]; eauto).
Qed.

(** X16: on every record whose properties have the types the tracker gives
    them, [getWorkItem] succeeds, whatever the host: it answers with the
    formatted record, the markdown document behind the directive block and
    the directives, and with no error. *)
Theorem getWorkItem_succeeds_on_tracker_records :
  forall host item identifier,
    tracker_record item = true ->
    exists wi document prompt,
      formatWorkItem host item = Ok wi
      /\ getWorkItemString wi = Ok document
      /\ success (getWorkItem host (Ok item) identifier) = true
      /\ workItem (getWorkItem host (Ok item) identifier) = Some wi
      /\ data (getWorkItem host (Ok item) identifier) = Some (prompt ++ document)
      /\ error_text (getWorkItem host (Ok item) identifier) = None.
Proof.
  intros host item identifier H.
  destruct (tracker_record_formats host item H) as (wi & Ef & He & Hty & Ha & Hc).
  destruct (getWorkItemString_total wi He Ha Hc) as [document Ed].
  exists wi, document.
  assert (T : truthy item = true) by (destruct item; try discriminate H; reflexivity).
  unfold entries in He.
  assert (Hid : printable (value (id wi))) by (inversion He; assumption).
  assert (Hti : printable (value (title wi)))
    by (inversion He as [|? ? _ He1]; inversion He1; assumption).
  destruct Hid as [sid Eid]. destruct Hti as [sti Eti]. destruct Hty as [sty Ety].
  destruct (table_get_printable typeMap sty "chore") as [m Em].
  unfold getWorkItem. cbn [bind]. unfold present. rewrite T, Ef. cbn [bind negb].
  unfold index. rewrite Ety, Eid, Eti. cbn [bind to_string]. rewrite Em.
  cbn [bind]. rewrite Ed. cbn [bind success workItem data error_text].
  eexists. repeat split; reflexivity.
Qed.

Lemma getWorkItem_succeeds_on_tracker_records_witness :
  exists wi document prompt,
    formatWorkItem demo_host bug_item = Ok wi
    /\ getWorkItemString wi = Ok document
    /\ success (getWorkItem demo_host (Ok bug_item) "LFY-42") = true
    /\ workItem (getWorkItem demo_host (Ok bug_item) "LFY-42") = Some wi
    /\ data (getWorkItem demo_host (Ok bug_item) "LFY-42") = Some (prompt ++ document)
    /\ error_text (getWorkItem demo_host (Ok bug_item) "LFY-42") = None.
Proof.
  apply (getWorkItem_succeeds_on_tracker_records demo_host bug_item "LFY-42").
  reflexivity.
Defined.
Lemma present_shape host identifier item r :
  present host identifier item = Ok r ->
  (success r = true
   /\ (exists d, data r = Some d) /\ (exists wi, workItem r = Some wi)
   /\ (exists a, aiDirectives r = Some a) /\ (exists n, nextRequiredAction r = Some n)
   /\ error_text r = None)
  \/ r = failure ("未找到编号为 " ++ identifier ++ " 的工作项").
Proof.
  unfold present. destruct (negb (truthy item)).
  - intros [= <-]. now right.
  - intros H. invert_bind. injection H as <-. left.
    cbn [success data workItem aiDirectives nextRequiredAction error_text].
    repeat split; eauto.
Qed.

(** X17: what [getWorkItem] answers has one of two shapes, whatever the
    client came back with: a success carries the document, the formatted
    record, the directives and the next required action, and no error; a
    failure carries an error message and nothing else.  When the client
    found no item, the message names the identifier as it was given. *)
Theorem getWorkItem_result_shape :
  forall host fetched identifier,
    let r := getWorkItem host fetched identifier in
    (success r = true ->
     (exists d, data r = Some d) /\ (exists wi, workItem r = Some wi)
     /\ (exists a, aiDirectives r = Some a) /\ (exists n, nextRequiredAction r = Some n)
     /\ error_text r = None)
    /\ (success r = false ->
        exists message, r = failure message)
    /\ (forall item,
           fetched = Ok item -> truthy item = false ->
           r = failure ("未找到编号为 " ++ identifier ++ " 的工作项")).
Proof.
  intros host fetched identifier r. subst r. unfold getWorkItem.
  destruct fetched as [item|e]; cbn [bind].
  - destruct (present host identifier item) as [r|e] eqn:P.
    + assert (N : forall item', Ok item = Ok item' -> truthy item' = false ->
                                r = failure ("未找到编号为 " ++ identifier ++ " 的工作项")).
      { intros item' [= <-] T. unfold present in P. rewrite T in P.
        simpl in P. now injection P as <-. }
      destruct (present_shape _ _ _ _ P) as [(S & H) | ->].
      * split; [intros _; exact H|]. split; [|exact N].
        rewrite S. discriminate.
      * split; [discriminate|]. split; [eauto | exact N].
    + split; [discriminate|]. split; [eauto|].
      intros item' [= <-] T. unfold present in P. rewrite T in P. discriminate P.
  - split; [discriminate|]. split; [eauto | discriminate].
Qed.

Lemma getWorkItem_result_shape_witness :
  ((exists d, data (getWorkItem demo_host (Ok task_item) "LFY-43") = Some d)
   /\ (exists wi, workItem (getWorkItem demo_host (Ok task_item) "LFY-43") = Some wi)
   /\ (exists a, aiDirectives (getWorkItem demo_host (Ok task_item) "LFY-43") = Some a)
   /\ (exists n, nextRequiredAction (getWorkItem demo_host (Ok task_item) "LFY-43") = Some n)
   /\ error_text (getWorkItem demo_host (Ok task_item) "LFY-43") = None)
  /\ (exists message,
         getWorkItem demo_host (Ok (VObj [("comments", VStr "x")])) "LFY-0"
         = failure message)
  /\ getWorkItem demo_host (Ok VNull) " #7" = failure ("未找到编号为 " ++ " #7" ++ " 的工作项").
Proof.
  split; [|split].
  - apply (proj1 (getWorkItem_result_shape demo_host (Ok task_item) "LFY-43")).
    reflexivity.
  - apply (proj1 (proj2 (getWorkItem_result_shape demo_host
                           (Ok (VObj [("comments", VStr "x")])) "LFY-0"))).
    reflexivity.
  - apply (proj2 (proj2 (getWorkItem_result_shape demo_host (Ok VNull) " #7")) VNull);
      reflexivity.
Defined.
(** ** The project of an identifier *)

Lemma includes_char c s : includes s (String c "") = occurs c s.
Proof.
  induction s as [|x s IH]; [reflexivity|].
  change (includes (String x s) (String c ""))
    with (prefix (String c "") (String x s) || includes s (String c "")).
  rewrite IH. simpl.
  destruct (ascii_dec c x) as [<- | N].
  - rewrite Ascii.eqb_refl. now destruct s.
  - destruct (Ascii.eqb x c) eqn:E; [|reflexivity].
    apply Ascii.eqb_eq in E. now elim N.
Qed.

Lemma before_dash_split s :
  occurs "-" s = true ->
  occurs "-" (before_dash s) = false
  /\ exists rest, s = before_dash s ++ "-" ++ rest.
Proof.
  induction s as [|c s IH]; simpl; [discriminate|].
  destruct (Ascii.eqb c "-") eqn:E; simpl.
  - intros _. apply Ascii.eqb_eq in E. subst c. split; [reflexivity|]. now exists s.
  - intros H. destruct (IH H) as [Hno (rest & Hs)]. split.
    + simpl. now rewrite E.
    + exists rest. now rewrite Hs at 1.
Qed.

(** X18: the project whose members [getWorkItemWithDetails] asks for is what
    the identifier has in front of its first [-], and [LFY] when the
    identifier has no [-].  The identifier is taken as it was given: the [#]
    that [getWorkItem] cuts off before it fetches the item stays in the
    project, so that for [#LFY-2513] the item [LFY-2513] is fetched and the
    members of [#LFY] are asked for. *)
Theorem project_of_identifier :
  forall s,
    (includes s "-" = false -> projectIdentifierOf s = "LFY")
    /\ (includes s "-" = true ->
        includes (projectIdentifierOf s) "-" = false
        /\ (exists rest, s = projectIdentifierOf s ++ "-" ++ rest)
        /\ projectIdentifierOf ("#" ++ s) = "#" ++ projectIdentifierOf s
        /\ (prefix "#" s = false -> cleanId ("#" ++ s) = cleanId s)).
Proof.
  intros s. unfold projectIdentifierOf. split; intros H; rewrite H; [reflexivity|].
  rewrite includes_char in *. destruct (before_dash_split s H) as [Hno Hrest].
  split; [exact Hno|]. split; [exact Hrest|]. split.
  - rewrite includes_char. simpl. now rewrite H.
  - intros P. unfold cleanId. simpl. destruct s as [|c r]; [reflexivity|].
    simpl in P. destruct (Ascii.eqb c "#") eqn:E; [|reflexivity].
    apply Ascii.eqb_eq in E. subst c.
    destruct (ascii_dec "#" "#") as [_|N]; [|now elim N]. destruct r; discriminate P.
Qed.

Lemma project_of_identifier_witness :
  projectIdentifierOf "2513" = "LFY"
  /\ includes (projectIdentifierOf "LFY-2513") "-" = false
  /\ (exists rest, "LFY-2513" = projectIdentifierOf "LFY-2513" ++ "-" ++ rest)
  /\ projectIdentifierOf ("#" ++ "LFY-2513") = "#" ++ projectIdentifierOf "LFY-2513"
  /\ cleanId ("#" ++ "LFY-2513") = cleanId "LFY-2513".
Proof.
  split.
  - apply (proj1 (project_of_identifier "2513")). reflexivity.
  - destruct (proj2 (project_of_identifier "LFY-2513") eq_refl) as (H1 & H2 & H3 & H4).
    split; [exact H1|]. split; [exact H2|]. split; [exact H3 | exact (H4 eq_refl)].
Defined.
(** ** The member directory *)

Lemma same_value_text k u : same_value k (VStr u) = is_text k u.
Proof. now destruct k. Qed.

Lemma same_value_eq a b : same_value a b = true -> a = b.
Proof.
  destruct a, b; simpl; try discriminate; intros H; try reflexivity.
  - now apply Bool.eqb_prop in H; subst.
  - now apply Z.eqb_eq in H; subst.
  - now apply String.eqb_eq in H; subst.
  - now apply String.eqb_eq in H; subst.
Qed.

Lemma map_get_cons k' v' m key :
  map_get ((k', v') :: m) key = if same_value k' key then v' else map_get m key.
Proof. unfold map_get. simpl. now destruct (same_value k' key). Qed.

Lemma map_get_set m k v u :
  map_get (map_set m k v) (VStr u)
  = if is_text k u then v else map_get m (VStr u).
Proof.
  induction m as [|[k' v'] m IH]; simpl.
  - rewrite map_get_cons, same_value_text. now destruct (is_text k u).
  - destruct (same_value k' k) eqn:E; rewrite !map_get_cons.
    + apply same_value_eq in E. subst k'. rewrite same_value_text.
      now destruct (is_text k u).
    + rewrite IH, same_value_text.
      destruct (is_text k' u) eqn:E'; [|reflexivity].
      destruct (is_text k u) eqn:E''; [|reflexivity].
      apply is_text_eq in E', E''. subst. simpl in E.
      now rewrite String.eqb_refl in E.
Qed.

Lemma collect_app acc before rest :
  Forall (fun m => is_nullish m = false) before ->
  PingCodeClient.collect acc (List.app before rest)
  = PingCodeClient.collect (PingCodeClient.collect acc before) rest.
Proof.
  intros H. revert acc. induction H as [|m l Hm _ IH]; intros acc; simpl; [reflexivity|].
  unfold get. rewrite Hm.
  destruct (truthy (prop m "uid") && truthy (prop m "display_name")); apply IH.
Qed.

Lemma collect_unlisted uid after : forall acc,
  Forall (fun m => listed_as uid m = false) after ->
  map_get (PingCodeClient.collect acc after) (VStr uid) = map_get acc (VStr uid).
Proof.
  induction after as [|m l IH]; intros acc H; simpl; [reflexivity|].
  inversion H as [|? ? Hm Hl]; subst.
  unfold get. destruct (is_nullish m); [reflexivity|].
  destruct (truthy (prop m "uid") && truthy (prop m "display_name")) eqn:T;
    [|now apply IH].
  rewrite (IH _ Hl), map_get_set. unfold listed_as in Hm.
  apply andb_prop in T. destruct T as [_ T]. rewrite T, andb_true_r in Hm.
  now rewrite Hm.
Qed.

(** X19: the member directory answers for an id with the display name of the
    last member listed under that id with a display name, and with
    [undefined] for an id under which no member is listed.  A member that
    cannot be read ends the listing: the members before it are in the
    directory, those behind it are not. *)
Theorem directory_lookup :
  forall uid,
    uid <> "" ->
    (forall before m after,
        Forall (fun x => is_nullish x = false) before ->
        listed_as uid m = true ->
        Forall (fun x => listed_as uid x = false) after ->
        map_get (PingCodeClient.collect [] (List.app before (m :: after))) (VStr uid)
        = prop m "display_name")
    /\ (forall members,
           Forall (fun x => listed_as uid x = false) members ->
           map_get (PingCodeClient.collect [] members) (VStr uid) = VUndef)
    /\ (forall before after,
           Forall (fun x => is_nullish x = false) before ->
           PingCodeClient.collect [] (List.app before (VNull :: after))
           = PingCodeClient.collect [] before).
Proof.
  intros uid Hu. split; [|split].
  - intros before m after Hb Hm Ha.
    rewrite (collect_app _ _ _ Hb). simpl.
    unfold listed_as in Hm. apply andb_prop in Hm. destruct Hm as [Hid Hn].
    assert (R : is_nullish m = false).
    { destruct m; try reflexivity; discriminate Hid. }
    unfold get. rewrite R. apply is_text_eq in Hid. rewrite Hid, Hn. simpl.
    destruct (uid =? "") eqn:E; [apply String.eqb_eq in E; contradiction|]. simpl.
    rewrite (collect_unlisted _ _ _ Ha), map_get_set. simpl.
    now rewrite String.eqb_refl.
  - intros members H. now rewrite (collect_unlisted _ _ _ H).
  - intros before after Hb. now rewrite (collect_app _ _ _ Hb).
Qed.

Lemma directory_lookup_witness :
  map_get (PingCodeClient.collect [] sample_members) (VStr "u1") = VStr "Anna"
  /\ map_get (PingCodeClient.collect [] sample_members) (VStr "u3") = VUndef.
Proof.
  split.
  - apply (proj1 (directory_lookup "u1" ltac:(discriminate))
             [VObj [("uid", VStr "u1"); ("display_name", VStr "Ann")];
              VObj [("uid", VStr "u2"); ("display_name", VStr "Bob")]]
             (VObj [("uid", VStr "u1"); ("display_name", VStr "Anna")])
             [VObj [("uid", VStr "u3")]]).
    + repeat constructor.
    + reflexivity.
    + repeat constructor.
  - apply (proj1 (proj2 (directory_lookup "u3" ltac:(discriminate))) sample_members).
    repeat constructor.
Defined.
(** ** The details of a work item *)

Lemma field_cons k k' v fs :
  field k ((k', v) :: fs) = if k' =? k then v else field k fs.
Proof. reflexivity. Qed.

Lemma field_assign k k' v fs :
  field k (assign k' v fs) = if k' =? k then v else field k fs.
Proof.
  induction fs as [|[k2 v2] fs IH]; simpl.
  - rewrite field_cons. now destruct (k' =? k).
  - destruct (k2 =? k') eqn:E; rewrite !field_cons.
    + apply String.eqb_eq in E. subst k2. now destruct (k' =? k).
    + rewrite IH. destruct (k2 =? k) eqn:E2; [|reflexivity].
      apply String.eqb_eq in E2. subst k2. rewrite String.eqb_sym in E. now rewrite E.
Qed.

Lemma prop_set_prop item k k' v :
  prop (set_prop item k' v) k
  = match item with
    | VObj _ => if k' =? k then v else prop item k
    | _ => prop item k
    end.
Proof. destruct item; try reflexivity. simpl. apply field_assign. Qed.

Lemma prop_fill_name_other members from to item k :
  (to =? k) = false ->
  prop (PingCodeClient.fill_name members from to item) k = prop item k.
Proof.
  intros H. unfold PingCodeClient.fill_name.
  destruct (prop item from) as [| | | |s| | |?]; try reflexivity.
  destruct (truthy (VStr s)); [|reflexivity].
  rewrite prop_set_prop, H. now destruct item.
Qed.

Lemma prop_fill_name members from to item s :
  (from =? "name") = false ->
  prop item from = VStr s -> s <> "" ->
  prop (PingCodeClient.fill_name members from to item) to
  = map_get members (VStr s) ||| VNull.
Proof.
  intros Hfrom H Hs. unfold PingCodeClient.fill_name. rewrite H. simpl.
  destruct (s =? "") eqn:E; [apply String.eqb_eq in E; contradiction|]. simpl.
  rewrite prop_set_prop, String.eqb_refl.
  destruct item; try discriminate H; [reflexivity|].
  simpl in H. rewrite Hfrom in H. discriminate H.
Qed.

Lemma prop_fill_name_to members from to item :
  (from =? "name") = false ->
  prop (PingCodeClient.fill_name members from to item) to
  = match prop item from with
    | VStr s => if truthy (VStr s) then map_get members (VStr s) ||| VNull else prop item to
    | _ => prop item to
    end.
Proof.
  intros Hfrom. unfold PingCodeClient.fill_name.
  destruct (prop item from) as [| | | |s| | |?] eqn:E; try reflexivity.
  destruct (truthy (VStr s)); [|reflexivity].
  rewrite prop_set_prop, String.eqb_refl.
  destruct item; try discriminate E; [reflexivity|].
  simpl in E. rewrite Hfrom in E. discriminate E.
Qed.

Lemma truthy_fill_name members from to item :
  truthy (PingCodeClient.fill_name members from to item) = truthy item.
Proof.
  unfold PingCodeClient.fill_name.
  destruct (prop item from) as [| | | |s| | |?]; try reflexivity.
  destruct (truthy (VStr s)); [|reflexivity]. now destruct item.
Qed.

(** What the four steps of [getWorkItemWithDetails] leave of the item. *)
Lemma details_frame now credentials request images identifier item members item' :
  PingCodeClient.getWorkItem now credentials request identifier = Ok item ->
  truthy item = true ->
  PingCodeClient.getProjectMembers now credentials request (projectIdentifierOf identifier)
  = Ok members ->
  PingCodeClient.getWorkItemWithDetails now credentials request images identifier
  = Ok item' ->
  (forall k, existsb (String.eqb k) DETAIL_FIELDS = false -> prop item' k = prop item k)
  /\ prop item' "assignee_name"
     = prop (PingCodeClient.fill_name members "assignee" "assignee_name" item)
         "assignee_name"
  /\ prop item' "created_by_name"
     = prop (PingCodeClient.fill_name members "created_by" "created_by_name" item)
         "created_by_name".
Proof.
  intros Hitem T Hmembers H.
  unfold PingCodeClient.getWorkItemWithDetails in H.
  rewrite Hitem in H. cbn [bind] in H. rewrite T in H. cbn [negb] in H.
  rewrite Hmembers in H. cbn [bind] in H.
  set (item1 := PingCodeClient.fill_name members "assignee" "assignee_name" item) in *.
  set (item2 := PingCodeClient.fill_name members "created_by" "created_by_name" item1) in *.
  assert (F2 : forall k, (k =? "created_by_name") = false -> prop item2 k = prop item1 k).
  { intros k Hk. apply prop_fill_name_other. now rewrite String.eqb_sym. }
  assert (F1 : forall k, (k =? "assignee_name") = false -> prop item1 k = prop item k).
  { intros k Hk. apply prop_fill_name_other. now rewrite String.eqb_sym. }
  destruct (match prop item2 "comments" with
            | VArr cs =>
                cs' <- mapM (fun comment =>
                               _ <- get comment "created_by" ;;
                               Ok (PingCodeClient.fill_name members "created_by"
                                     "created_by_name" comment)) cs ;;
                Ok (set_prop item2 "comments" (VArr cs'))
            | _ => Ok item2
            end) as [item3|] eqn:E3; cbn [bind] in H; [|discriminate H].
  assert (F3 : forall k, (k =? "comments") = false -> prop item3 k = prop item2 k).
  { intros k Hk. destruct (prop item2 "comments") as [| | | | |cs| |?];
      try (injection E3 as <-; reflexivity).
    destruct (mapM _ cs) as [cs'|]; cbn [bind] in E3; [|discriminate E3].
    injection E3 as <-. rewrite prop_set_prop, String.eqb_sym, Hk. now destruct item2. }
  assert (F4 : forall k, (k =? "description") = false -> prop item' k = prop item3 k).
  { intros k Hk. destruct (truthy (prop item3 "description")); [|now injection H as <-].
    destruct (prop item3 "description") as [| | | |d| | |?]; try discriminate H.
    destruct (images d identifier) as [d'|]; cbn [bind] in H; [|discriminate H].
    injection H as <-. rewrite prop_set_prop, String.eqb_sym, Hk. now destruct item3. }
  split; [|split].
  - intros k Hk. simpl in Hk.
    destruct (k =? "assignee_name") eqn:K1; [discriminate Hk|].
    destruct (k =? "created_by_name") eqn:K2; [discriminate Hk|].
    destruct (k =? "comments") eqn:K3; [discriminate Hk|].
    destruct (k =? "description") eqn:K4; [discriminate Hk|].
    now rewrite F4, F3, F2, F1.
  - now rewrite F4, F3, F2.
  - rewrite F4, F3 by reflexivity. subst item2.
    rewrite !prop_fill_name_to by reflexivity. now rewrite !F1.
Qed.
Lemma or_else_null_then x d : (x ||| VNull) ||| d = x ||| d.
Proof. unfold or_else. destruct (truthy x) eqn:T; [now rewrite T | reflexivity]. Qed.

(** X20: an assignee that the tracker gives as a member id is shown by name:
    after [getWorkItemWithDetails], [formatWorkItem] shows the display name
    that the member directory of the project has for the id, and [未设置]
    when the directory does not know the id; neither the id itself nor an
    [assignee_name] that came with the item is shown.  The creator is
    resolved alike, with the empty string for an unknown id. *)
Theorem member_ids_shown_by_name :
  forall host now credentials request images identifier item members item' wi,
    PingCodeClient.getWorkItem now credentials request identifier = Ok item ->
    truthy item = true ->
    PingCodeClient.getProjectMembers now credentials request
      (projectIdentifierOf identifier) = Ok members ->
    PingCodeClient.getWorkItemWithDetails now credentials request images identifier
    = Ok item' ->
    formatWorkItem host item' = Ok wi ->
    (forall a,
        prop item "assignee" = VStr a -> a <> "" ->
        value (assignee wi) = map_get members (VStr a) ||| VStr "未设置")
    /\ (forall c,
           prop item "created_by" = VStr c -> c <> "" ->
           value (createdBy wi) = map_get members (VStr c) ||| VStr "").
Proof.
  intros host now credentials request images identifier item members item' wi
    Hitem T Hmembers Hdetails Hformat.
  destruct (details_frame _ _ _ _ _ _ _ _ Hitem T Hmembers Hdetails) as (F & Fa & Fc).
  destruct (formatWorkItem_fields _ _ _ Hformat) as (_ & _ & _ & _ & _ & Ha & _ & Hc).
  split.
  - intros a Ea Na. rewrite Ha. unfold assigneeName.
    rewrite Fa, (prop_fill_name _ "assignee" _ _ _ eq_refl Ea Na), (F "assignee" eq_refl), Ea.
    unfold or_else. destruct (truthy (map_get members (VStr a))) eqn:M.
    + now rewrite M.
    + reflexivity.
  - intros c Ec Nc. rewrite Hc, Fc, (prop_fill_name _ "created_by" _ _ _ eq_refl Ec Nc).
    apply or_else_null_then.
Qed.

Lemma member_ids_shown_by_name_witness :
  exists item' wi,
    PingCodeClient.getWorkItemWithDetails 1700000000000 (Some sample_credentials)
      sample_tracker no_images "LFY-7" = Ok item'
    /\ formatWorkItem demo_host item' = Ok wi
    /\ value (assignee wi) = VStr "Anna"
    /\ value (createdBy wi) = VStr "".
Proof.
  eexists _, _. split; [reflexivity|]. split; [reflexivity|].
  destruct (member_ids_shown_by_name demo_host 1700000000000 (Some sample_credentials)
              sample_tracker no_images "LFY-7" fetched_item
              (PingCodeClient.collect [] sample_members) _ _
              eq_refl eq_refl eq_refl eq_refl eq_refl) as [Ha Hc].
  split.
  - exact (Ha "u1" eq_refl ltac:(discriminate)).
  - exact (Hc "u9" eq_refl ltac:(discriminate)).
Defined.

(** X21: [getWorkItemWithDetails] adds names and local images and changes
    nothing else: every property of the item but [assignee_name],
    [created_by_name], [comments] and [description] is as [getWorkItem]
    fetched it, so the id, the title, the type, the state and the priority
    that [formatWorkItem] shows are those of the fetched item. *)
Theorem details_keep_the_record :
  forall host now credentials request images identifier item members item' wi,
    PingCodeClient.getWorkItem now credentials request identifier = Ok item ->
    truthy item = true ->
    PingCodeClient.getProjectMembers now credentials request
      (projectIdentifierOf identifier) = Ok members ->
    PingCodeClient.getWorkItemWithDetails now credentials request images identifier
    = Ok item' ->
    formatWorkItem host item' = Ok wi ->
    (forall k, existsb (String.eqb k) DETAIL_FIELDS = false -> prop item' k = prop item k)
    /\ idOf item = Ok (value (id wi))
    /\ typeName item = Ok (value (type wi))
    /\ stateName item = Ok (value (state wi))
    /\ priorityName item = Ok (value (priority wi))
    /\ value (title wi) = prop item "title" ||| VStr "".
Proof.
  intros host now credentials request images identifier item members item' wi
    Hitem T Hmembers Hdetails Hformat.
  destruct (details_frame _ _ _ _ _ _ _ _ Hitem T Hmembers Hdetails) as (F & _ & _).
  destruct (formatWorkItem_fields _ _ _ Hformat) as (_ & Hi & Ht & Hs & Hp & _ & Hti & _).
  split; [exact F|].
  unfold idOf, typeName, stateName, priorityName in *.
  rewrite !(F "whole_identifier" eq_refl), !(F "identifier" eq_refl) in Hi.
  rewrite !(F "type" eq_refl) in Ht.
  rewrite !(F "state" eq_refl), !(F "state_type" eq_refl) in Hs.
  rewrite !(F "priority" eq_refl) in Hp.
  rewrite (F "title" eq_refl) in Hti.
  auto.
Qed.

Lemma details_keep_the_record_witness :
  exists item' wi,
    PingCodeClient.getWorkItemWithDetails 1700000000000 (Some sample_credentials)
      sample_tracker no_images "LFY-7" = Ok item'
    /\ formatWorkItem demo_host item' = Ok wi
    /\ idOf fetched_item = Ok (value (id wi))
    /\ typeName fetched_item = Ok (value (type wi))
    /\ value (title wi) = prop fetched_item "title" ||| VStr "".
Proof.
  eexists _, _. split; [reflexivity|]. split; [reflexivity|].
  destruct (details_keep_the_record demo_host 1700000000000 (Some sample_credentials)
              sample_tracker no_images "LFY-7" fetched_item
              (PingCodeClient.collect [] sample_members) _ _
              eq_refl eq_refl eq_refl eq_refl eq_refl) as (_ & Hi & Ht & _ & _ & Hti).
  split; [exact Hi|]. split; [exact Ht | exact Hti].
Defined.
(** ** Failures on the way to a work item *)

(** X22: how [getWorkItem] fails before there is an item.  Without valid
    credentials the tracker is not asked: the answer is the error of the
    client that asks to log in first, whatever the tracker would say.  With
    valid credentials the tracker is asked for the cleaned identifier under
    the [Cookie] header of the stored cookies; its status 404 becomes the
    message that no item of the given identifier was found, its status 401
    the error that the login has expired, and any other refusal is passed
    on as it is. *)
Theorem failures_before_the_item :
  forall host now credentials request images identifier,
    let answer :=
      getWorkItem host
        (PingCodeClient.getWorkItemWithDetails now credentials request images identifier)
        identifier in
    (isCredentialsValid now credentials = false ->
     answer = failure (messageOf host (Rejected "未登录，请先调用 login 工具进行登录")))
    /\ (forall c status e,
           credentials = Some c ->
           isCredentialsValid now credentials = true ->
           request ("/api/agile/work-items/" ++ cleanId identifier)
             (cookiesToHeader (Credentials.cookies c))
           = Refused status e ->
           answer
           = if status_is 401 status
             then failure (messageOf host (Rejected "登录已过期，请重新调用 login 工具登录"))
             else if status_is 404 status
                  then failure ("未找到编号为 " ++ identifier ++ " 的工作项")
                  else failure (messageOf host e)).
Proof.
  intros host now credentials request images identifier answer. subst answer.
  unfold getWorkItem, PingCodeClient.getWorkItemWithDetails, PingCodeClient.getWorkItem,
    PingCodeClient.getAuthHeaders.
  split.
  - intros V. destruct credentials as [c|]; [rewrite V|]; reflexivity.
  - intros c status e -> V R. rewrite V. cbn [negb bind]. rewrite R.
    destruct (status_is 401 status); [reflexivity|].
    destruct (status_is 404 status); reflexivity.
Qed.

Lemma failures_before_the_item_witness :
  getWorkItem demo_host
    (PingCodeClient.getWorkItemWithDetails 1700000700000 (Some sample_credentials)
       sample_tracker no_images "LFY-7")
    "LFY-7"
  = failure (messageOf demo_host (Rejected "未登录，请先调用 login 工具进行登录"))
  /\ getWorkItem demo_host
       (PingCodeClient.getWorkItemWithDetails 1700000000000 (Some sample_credentials)
          sample_tracker no_images "#LFY-8")
       "#LFY-8"
     = failure ("未找到编号为 " ++ "#LFY-8" ++ " 的工作项").
Proof.
  split.
  - apply (proj1 (failures_before_the_item demo_host 1700000700000
                    (Some sample_credentials) sample_tracker no_images "LFY-7")).
    reflexivity.
  - apply (proj2 (failures_before_the_item demo_host 1700000000000
                    (Some sample_credentials) sample_tracker no_images "#LFY-8")
             sample_credentials (Some 404%Z)
             (Rejected "Request failed with status code 404")
             eq_refl eq_refl eq_refl).
Defined.
(** ** Images in a description *)

Lemma same_gt ic x : same ic x ">" = true -> x = ">"%char.
Proof.
  destruct ic, x as [[] [] [] [] [] [] [] []]; vm_compute; intros H;
    try discriminate H; reflexivity.
Qed.

Lemma same_dq ic x : same ic x DQ = true -> x = DQ.
Proof.
  destruct ic, x as [[] [] [] [] [] [] [] []]; vm_compute; intros H;
    try discriminate H; reflexivity.
Qed.

Lemma avoids_occurs ic c u :
  (forall x, same ic x c = true -> x = c) -> occurs c u = false -> avoids ic c u = true.
Proof.
  intros Hc. induction u as [|x u IH]; simpl; [reflexivity|]. intros H.
  apply orb_false_iff in H. destruct H as [Hx Hu]. rewrite (IH Hu), andb_true_r.
  destruct (same ic x c) eqn:E; [|reflexivity].
  apply Hc in E. subst. now rewrite Ascii.eqb_refl in Hx.
Qed.

Lemma one_taken {R : Type} ic cs (k : string -> option R) fuel s :
  greedy ic cs 1 (Some 1) k fuel 1 s = k s.
Proof. destruct fuel; reflexivity. Qed.

(** A literal character at the front of a pattern. *)
Lemma match_one ic c ps cap x s :
  match_pieces ic (one (Only c) :: ps) cap (String x s)
  = if same ic x c then match_pieces ic ps cap s else None.
Proof.
  cbn [match_pieces one set lo hi group String.length greedy below eat Nat.leb Nat.ltb].
  destruct (same ic x c); [|reflexivity].
  rewrite one_taken. now destruct (match_pieces ic ps cap s).
Qed.

Lemma match_one_empty ic c ps cap : match_pieces ic (one (Only c) :: ps) cap "" = None.
Proof. reflexivity. Qed.

(** A star over a set [[^c]] takes all it can get and gives back. *)
Lemma greedy_star {R : Type} ic c (k : string -> option R) tail :
  eat ic (AnyBut c) tail = None ->
  forall u fuel n,
    avoids ic c u = true -> String.length u <= fuel ->
    greedy ic (AnyBut c) 0 None k fuel n (u ++ tail) = last_hit k u tail.
Proof.
  intros Ht. induction u as [|x u IH]; intros fuel n Hu Hf.
  - change ("" ++ tail) with tail.
    destruct fuel; cbn [greedy below Nat.leb last_hit]; [reflexivity|]. now rewrite Ht.
  - simpl in Hu, Hf. apply andb_prop in Hu. destruct Hu as [Hx Hu].
    destruct fuel as [|fuel]; [lia|].
    change ((String x u) ++ tail) with (String x (u ++ tail)).
    cbn [greedy below eat Nat.leb]. destruct (same ic x c); [discriminate Hx|].
    rewrite (IH fuel (S n) Hu) by lia. reflexivity.
Qed.

Lemma match_star ic c ps cap u tail :
  eat ic (AnyBut c) tail = None -> avoids ic c u = true ->
  match_pieces ic (star (AnyBut c) :: ps) cap (u ++ tail)
  = last_hit (fun s' => match_pieces ic ps cap s') u tail.
Proof.
  intros Ht Hu. cbn [match_pieces star set lo hi group].
  apply greedy_star; [exact Ht | exact Hu |]. rewrite length_append. lia.
Qed.

Lemma match_captured_star ic c ps cap u tail :
  eat ic (AnyBut c) tail = None -> avoids ic c u = true ->
  match_pieces ic (captured (star (AnyBut c)) :: ps) cap (u ++ tail)
  = last_hit (fun s' => match_pieces ic ps (Some (prefix_of (u ++ tail) s')) s') u tail.
Proof.
  intros Ht Hu. cbn [match_pieces captured star set lo hi group].
  apply greedy_star; [exact Ht | exact Hu |]. rewrite length_append. lia.
Qed.

Lemma last_hit_longest {R : Type} (k : string -> option R) u tail r :
  k tail = Some r -> last_hit k u tail = Some r.
Proof. intros H. induction u as [|x u IH]; simpl; [exact H|]. now rewrite IH. Qed.

Lemma last_hit_needs_quote ps (capf : string -> option string) : forall u,
  avoids true DQ u = true ->
  last_hit (fun s' => match_pieces true (one (Only DQ) :: ps) (capf s') s') u "" = None.
Proof.
  induction u as [|x u IH]; intros Hu; cbn [last_hit]; [reflexivity|].
  cbn [avoids] in Hu. apply andb_prop in Hu. destruct Hu as [Hx Hu].
  rewrite (IH Hu).
  change (match_pieces true (one (Only DQ) :: ps) (capf (String x (u ++ "")))
            (String x (u ++ "")) = None).
  rewrite match_one.
  destruct (same true x DQ); [discriminate Hx | reflexivity].
Qed.

(** Behind the closing quote of the tag no second [src="..."] is found. *)
Lemma no_later_src w b cap :
  avoids true DQ w = true -> avoids true DQ b = true ->
  match_pieces true
    [one (Only "s"); one (Only "r"); one (Only "c"); one (Only "=");
     one (Only DQ); captured (star (AnyBut DQ)); one (Only DQ);
     star (AnyBut ">"); one (Only ">")]
    cap (w ++ String DQ (String ">" b)) = None.
Proof.
  intros Hw Hb.
  assert (Hq : forall ps capf,
             last_hit
               (fun s' => match_pieces true (one (Only DQ) :: ps) (capf s') s')
               (String ">" b) "" = None).
  { intros ps capf. apply last_hit_needs_quote. cbn [avoids]. now rewrite Hb. }
  destruct w as [|x1 [|x2 [|x3 [|x4 [|x5 w]]]]]; simpl append;
    repeat first
      [ rewrite match_one
      | match goal with
        | |- context [same true ?x ?c] => destruct (same true x c) eqn:?
        end ];
    try reflexivity; try discriminate.
  - rewrite <- (append_empty_r (String ">" b)).
    rewrite match_captured_star; [apply Hq | reflexivity |].
    cbn [avoids]. now rewrite Hb.
  - cbn [avoids] in Hw.
    repeat (apply andb_prop in Hw; destruct Hw as [? Hw]).
    match goal with
    | E : same true x5 DQ = true, N : negb (same true x5 DQ) = true |- _ =>
        rewrite E in N; discriminate N
    end.
Qed.
Lemma avoids_app ic c a b : avoids ic c (a ++ b) = avoids ic c a && avoids ic c b.
Proof.
  induction a as [|x a IH]; simpl; [reflexivity|]. now rewrite IH, andb_assoc.
Qed.

Lemma prefix_of_app u t : prefix_of (u ++ t) t = u.
Proof.
  unfold prefix_of. rewrite length_append.
  replace (String.length u + String.length t - String.length t) with (String.length u)
    by lia.
  induction u as [|x u IH]; simpl.
  - now destruct t.
  - now rewrite IH.
Qed.

(** The pieces of the image pattern behind [<img[^>]*]. *)
Lemma src_matches url b cap :
  avoids true DQ url = true ->
  match_pieces true
    [one (Only "s"); one (Only "r"); one (Only "c"); one (Only "=");
     one (Only DQ); captured (star (AnyBut DQ)); one (Only DQ);
     star (AnyBut ">"); one (Only ">")]
    cap
    (String "s" (String "r" (String "c" (String "="
       (String DQ (url ++ String DQ (String ">" b)))))))
  = Some (Some url, b).
Proof.
  intros Hu.
  do 5 (rewrite match_one;
        match goal with
        | |- context [same true ?x ?c] =>
            let v := eval vm_compute in (same true x c) in
            change (same true x c) with v
        end; cbv iota).
  rewrite match_captured_star; [|reflexivity | exact Hu].
  apply last_hit_longest.
  rewrite match_one. change (same true DQ DQ) with true. cbv iota.
  change (String ">" b) with ("" ++ String ">" b).
  rewrite match_star; [|reflexivity | reflexivity].
  cbn [last_hit]. rewrite match_one. change (same true ">" ">") with true. cbv iota.
  cbn [match_pieces]. change ("" ++ String ">" b) with (String ">" b).
  now rewrite prefix_of_app.
Qed.

Lemma no_src_from_the_quote url b cap :
  avoids true DQ url = true -> avoids true DQ b = true ->
  last_hit
    (fun s' =>
       match_pieces true
         [one (Only "s"); one (Only "r"); one (Only "c"); one (Only "=");
          one (Only DQ); captured (star (AnyBut DQ)); one (Only DQ);
          star (AnyBut ">"); one (Only ">")]
         cap s')
    (url ++ String DQ "") (String ">" b) = None.
Proof.
  intros Hu Hb. induction url as [|x url IH].
  - cbn [append last_hit]. rewrite !match_one.
    change (same true ">" "s") with false. change (same true DQ "s") with false.
    reflexivity.
  - change (String x url ++ String DQ "") with (String x (url ++ String DQ "")).
    cbn [last_hit]. cbn [avoids] in Hu.
    apply andb_prop in Hu. destruct Hu as [Hx Hu]. rewrite (IH Hu).
    replace (String x (url ++ String DQ "") ++ String ">" b)
      with (String x url ++ String DQ (String ">" b))
      by (simpl; now rewrite append_assoc).
    apply no_later_src; [|exact Hb]. cbn [avoids]. now rewrite Hx, Hu.
Qed.

(** The image pattern on a tag [<img src="url">] and what follows it. *)
Lemma match_img url b :
  avoids true DQ url = true -> avoids true ">" url = true ->
  avoids true DQ b = true ->
  match_at re_img (img_tag url ++ b) = Some (Some url, b).
Proof.
  intros Hq Hg Hb. unfold match_at, img_tag.
  change (ignoreCase re_img) with true.
  change (pieces re_img)
    with [one (Only "<"); one (Only "i"); one (Only "m"); one (Only "g");
          star (AnyBut ">");
          one (Only "s"); one (Only "r"); one (Only "c"); one (Only "=");
          one (Only DQ); captured (star (AnyBut DQ)); one (Only DQ);
          star (AnyBut ">"); one (Only ">")].
  replace (("<img src=" ++ dq ++ url ++ dq ++ ">") ++ b)
    with (String "<" (String "i" (String "m" (String "g"
            ((String " " (String "s" (String "r" (String "c" (String "="
                (String DQ (url ++ String DQ ""))))))) ++ String ">" b)))))
    by (unfold dq; simpl; now rewrite !append_assoc).
  do 4 (rewrite match_one;
        match goal with
        | |- context [same true ?x ?c] =>
            let v := eval vm_compute in (same true x c) in
            change (same true x c) with v
        end; cbv iota).
  rewrite match_star; [|reflexivity|].
  - cbn [last_hit].
    rewrite (no_src_from_the_quote url b None Hq Hb).
    cbn [append]. rewrite !match_one.
    change (same true DQ "s") with false.
    change (same true "=" "s") with false.
    change (same true "c" "s") with false.
    change (same true "r" "s") with false.
    cbv iota.
    replace ((url ++ String DQ "") ++ String ">" b)
      with (url ++ String DQ (String ">" b)) by now rewrite append_assoc.
    pose proof (src_matches url b None Hq) as M.
    rewrite !match_one in M. rewrite M. reflexivity.
  - cbn [avoids]. rewrite avoids_app, Hg. reflexivity.
Qed.
Lemma replace_prefix re repl c a t :
  starts_with c re ->
  (forall x, same (ignoreCase re) x c = true -> x = c) ->
  occurs c a = false ->
  replace_from re repl 0 (a ++ t) = a ++ replace_from re repl 0 t.
Proof.
  intros Hre Hsame. induction a as [|x a IH]; intros Hocc; [reflexivity|].
  simpl in Hocc. apply orb_false_iff in Hocc. destruct Hocc as [Hx Ha].
  change (String x a ++ t) with (String x (a ++ t)). cbn [replace_from].
  rewrite (match_first_fails re c x (a ++ t) Hre).
  - rewrite (IH Ha). reflexivity.
  - destruct (same (ignoreCase re) x c) eqn:E; [|reflexivity].
    apply Hsame in E. subst. now rewrite Ascii.eqb_refl in Hx.
Qed.

Lemma replace_skip re repl p b :
  replace_from re repl (String.length p) (p ++ b) = replace_from re repl 0 b.
Proof. induction p as [|x p IH]; [reflexivity|]. simpl. exact IH. Qed.

Lemma plain_occurs s : plain s = true -> occurs "<" s = false /\ occurs "&" s = false.
Proof.
  unfold plain. intros H. apply andb_prop in H. destruct H as [H1 H2].
  split; [now destruct (occurs "<" s) | now destruct (occurs "&" s)].
Qed.

(** The first replacement of [stripHtml] on an image tag amid plain text. *)
Lemma replace_img a url b :
  occurs "<" a = false ->
  occurs DQ url = false -> occurs ">" url = false ->
  occurs "<" b = false -> occurs DQ b = false ->
  replace re_img img_marker (a ++ img_tag url ++ b)
  = a ++ img_marker (Some url) ++ b.
Proof.
  intros Ha Hq Hg Hb Hbq. unfold replace.
  destruct starts_with_lt as (L1 & _).
  rewrite (replace_prefix re_img _ "<" a _ L1 (same_lt _) Ha). f_equal.
  set (tag' := "img src=" ++ dq ++ url ++ dq ++ ">").
  change (img_tag url ++ b) with (String "<" (tag' ++ b)).
  cbn [replace_from].
  change (String "<" (tag' ++ b)) with (img_tag url ++ b).
  rewrite (match_img url b).
  - replace (String.length (img_tag url ++ b) - String.length b)
      with (S (String.length tag')).
    + rewrite replace_skip.
      change (replace_from re_img img_marker 0 b) with (replace re_img img_marker b).
      now rewrite (replace_without_first re_img _ "<" b L1 (same_lt _) Hb).
    + rewrite length_append. change (img_tag url) with (String "<" tag').
      simpl String.length. lia.
  - apply avoids_occurs; [apply same_dq | exact Hq].
  - apply avoids_occurs; [apply same_gt | exact Hg].
  - apply avoids_occurs; [apply same_dq | exact Hbq].
Qed.

(** X23: [stripHtml] keeps the link of an image: a tag [<img src="url">]
    amid text without markup becomes the marker of its source, and the
    result is tidied like any text without markup: runs of line feeds are cut
    down to two and the ends are trimmed.  (The source holds none of the
    characters that end it or that the later steps rewrite, and the text
    behind the tag holds no double quote.) *)
Theorem image_tag_becomes_marker :
  forall before url behind,
    plain before = true ->
    plain url = true -> occurs DQ url = false -> occurs ">" url = false ->
    plain behind = true -> occurs DQ behind = false ->
    stripHtml (before ++ img_tag url ++ behind)
    = trim (collapse (before ++ "[图片](" ++ url ++ ")" ++ behind)).
Proof.
  intros a url b Ha Hu Hq Hg Hb Hbq.
  destruct (plain_occurs _ Ha) as [Ha1 Ha2].
  destruct (plain_occurs _ Hu) as [Hu1 Hu2].
  destruct (plain_occurs _ Hb) as [Hb1 Hb2].
  unfold stripHtml.
  replace (a ++ img_tag url ++ b =? "") with false by now destruct a.
  cbv zeta. rewrite (replace_img a url b Ha1 Hq Hg Hb1 Hbq).
  assert (E : a ++ img_marker (Some url) ++ b = a ++ "[图片](" ++ url ++ ")" ++ b).
  { unfold img_marker. now rewrite !append_assoc. }
  rewrite E. clear E.
  set (s := a ++ "[图片](" ++ url ++ ")" ++ b).
  assert (Hlt : occurs "<" s = false).
  { subst s. rewrite !occurs_app, Ha1, Hu1, Hb1. reflexivity. }
  assert (Hamp : occurs "&" s = false).
  { subst s. rewrite !occurs_app, Ha2, Hu2, Hb2. reflexivity. }
  destruct starts_with_lt as (_ & L2 & L3 & L4).
  destruct starts_with_amp as (A1 & A2 & A3 & A4).
  rewrite (replace_without_first re_br _ "<" s L2 (same_lt _) Hlt).
  rewrite (replace_without_first re_p_close _ "<" s L3 (same_lt _) Hlt).
  rewrite (replace_without_first re_tag _ "<" s L4 (same_lt _) Hlt).
  rewrite (replace_without_first re_nbsp _ "&" s A1 (same_amp _) Hamp).
  rewrite (replace_without_first re_lt _ "&" s A2 (same_amp _) Hamp).
  rewrite (replace_without_first re_gt _ "&" s A3 (same_amp _) Hamp).
  rewrite (replace_without_first re_amp _ "&" s A4 (same_amp _) Hamp).
  reflexivity.
Qed.

Lemma image_tag_becomes_marker_witness :
  stripHtml ("see " ++ img_tag "https://atlas.pingcode.com/files/public/5f3c" ++ " here ")
  = trim (collapse ("see " ++ "[图片](" ++ "https://atlas.pingcode.com/files/public/5f3c"
                      ++ ")" ++ " here ")).
Proof. apply image_tag_becomes_marker; reflexivity. Defined.
(** ** The answers of the tracker *)

(** X24: once the credentials are valid, [getProjectMembers] does not fail:
    whatever goes wrong on the way is swallowed and answered with the
    directory as far as it got.  When the tracker refuses the request for the
    project, or the request for its members, the directory is empty. *)
Theorem member_lookup_never_fails :
  forall now credentials request projectIdentifier headers,
    PingCodeClient.getAuthHeaders now credentials = Ok headers ->
    (exists members,
        PingCodeClient.getProjectMembers now credentials request projectIdentifier
        = Ok members)
    /\ (forall status e,
           request ("/api/agile/projects/" ++ projectIdentifier) headers
           = Refused status e ->
           PingCodeClient.getProjectMembers now credentials request projectIdentifier
           = Ok [])
    /\ (forall projectId pid status e,
           PingCodeClient.getProjectId now credentials request projectIdentifier
           = Ok projectId ->
           to_string projectId = Ok pid ->
           request ("/api/agile/projects/" ++ pid ++ "/members") headers
           = Refused status e ->
           PingCodeClient.getProjectMembers now credentials request projectIdentifier
           = Ok []).
Proof.
  intros now credentials request projectIdentifier headers H.
  unfold PingCodeClient.getProjectMembers. rewrite H. cbn [bind].
  split; [|split].
  - match goal with
    | |- exists m, match ?c with Ok x => _ | Throw _ => _ end = _ => destruct c
    end; eauto.
  - intros status e R. unfold PingCodeClient.getProjectId. rewrite H. cbn [bind].
    rewrite R. reflexivity.
  - intros projectId pid status e P S R. rewrite P. cbn [bind].
    destruct (negb (truthy projectId)); [reflexivity|]. rewrite S. cbn [bind].
    rewrite R. reflexivity.
Qed.

Lemma member_lookup_never_fails_witness :
  (exists members,
      PingCodeClient.getProjectMembers 1700000000000 (Some sample_credentials)
        sample_tracker "LFY" = Ok members)
  /\ PingCodeClient.getProjectMembers 1700000000000 (Some sample_credentials)
       sample_tracker "#LFY" = Ok [].
Proof.
  destruct (member_lookup_never_fails 1700000000000 (Some sample_credentials)
              sample_tracker "LFY" _ eq_refl) as (H1 & _).
  destruct (member_lookup_never_fails 1700000000000 (Some sample_credentials)
              sample_tracker "#LFY" _ eq_refl) as (_ & H2 & _).
  split; [exact H1|].
  exact (H2 (Some 404%Z) (Rejected "Request failed with status code 404") eq_refl).
Defined.

Lemma or_else_truthy a b : truthy a = true -> a ||| b = a.
Proof. intros H. unfold or_else. now rewrite H. Qed.

Lemma or_else_falsy a b : truthy a = false -> a ||| b = b.
Proof. intros H. unfold or_else. now rewrite H. Qed.

(** X25: [getWorkItem] of the client takes the item out of any of the three
    wrappings in which the tracker may answer, [{data: {value: item}}],
    [{value: item}] and the bare item, and hands on only an item with an
    [_id]: for an answer without one it comes back with [null], as for the
    status 404. *)
Theorem client_unwraps_the_item :
  forall now credentials request identifier headers item body,
    PingCodeClient.getAuthHeaders now credentials = Ok headers ->
    request ("/api/agile/work-items/" ++ cleanId identifier) headers
    = Answered (VObj [("data", body)]) ->
    (truthy (prop item "_id") = true ->
     body = VObj [("data", VObj [("value", item)])]
     \/ body = VObj [("value", item)]
     \/ (body = item
         /\ truthy (get_opt (prop item "data") "value") = false
         /\ truthy (prop item "value") = false) ->
     PingCodeClient.getWorkItem now credentials request identifier = Ok item)
    /\ (truthy (get_opt (get_opt body "data") "value" ||| get_opt body "value" ||| body)
        = false
        \/ truthy (prop (get_opt (get_opt body "data") "value" ||| get_opt body "value"
                         ||| body) "_id") = false ->
        PingCodeClient.getWorkItem now credentials request identifier = Ok VNull).
Proof.
  intros now credentials request identifier headers item body H R.
  unfold PingCodeClient.getWorkItem. rewrite H. cbn [bind]. rewrite R.
  change (get (VObj [("data", body)]) "data") with (Ok body). cbn [bind].
  split.
  - intros Hid Hbody.
    assert (T : truthy item = true) by (destruct item; try discriminate Hid; reflexivity).
    destruct Hbody as [-> | [-> | (-> & H1 & H2)]].
    + change (get_opt (get_opt (VObj [("data", VObj [("value", item)])]) "data") "value")
        with item.
      rewrite (or_else_truthy item _ T), (or_else_truthy item _ T), T, Hid. reflexivity.
    + change (get_opt (get_opt (VObj [("value", item)]) "data") "value") with VUndef.
      change (get_opt (VObj [("value", item)]) "value") with item.
      rewrite (or_else_falsy VUndef item eq_refl), (or_else_truthy item _ T), T, Hid.
      reflexivity.
    + assert (O : exists fs, item = VObj fs).
      { destruct item as [| | | | | |fs|?]; try discriminate Hid. eauto. }
      destruct O as [fs ->].
      change (get_opt (VObj fs) "data") with (prop (VObj fs) "data").
      change (get_opt (VObj fs) "value") with (prop (VObj fs) "value").
      rewrite (or_else_falsy _ (prop (VObj fs) "value") H1), (or_else_falsy _ (VObj fs) H2).
      rewrite Hid. reflexivity.
  - intros [F | F]; rewrite F; [reflexivity|].
    now rewrite andb_false_r.
Qed.

Lemma client_unwraps_the_item_witness :
  PingCodeClient.getWorkItem 1700000000000 (Some sample_credentials) sample_tracker "#LFY-7 "
  = Ok fetched_item.
Proof.
  apply (proj1 (client_unwraps_the_item 1700000000000 (Some sample_credentials)
                  sample_tracker "#LFY-7 " _ fetched_item _ eq_refl eq_refl)).
  - reflexivity.
  - left. reflexivity.
Defined.
(** ** One member directory, two views *)

(** X26: for an item whose assignee is a member id, the release listing and
    the detail view read the same member directory and agree on a known id:
    both show the display name the directory has for it, the listing with
    [(我)] behind it when the id is that of the stored user.  On an id the
    directory does not know they part: the detail view shows [未设置], the
    listing [未知]. *)
Theorem assignee_in_listing_and_detail :
  forall host now credentials request images identifier item members item' wi
         currentUserId a,
    PingCodeClient.getWorkItem now credentials request identifier = Ok item ->
    PingCodeClient.getProjectMembers now credentials request
      (projectIdentifierOf identifier) = Ok members ->
    PingCodeClient.getWorkItemWithDetails now credentials request images identifier
    = Ok item' ->
    formatWorkItem host item' = Ok wi ->
    prop item "assignee" = VStr a ->
    a <> "" ->
    (forall n,
        map_get members (VStr a) = VStr n -> n <> "" ->
        value (assignee wi) = VStr n
        /\ getAssignee members currentUserId item
           = Ok (VStr (if a =? currentUserId then n ++ "(我)" else n)))
    /\ (truthy (map_get members (VStr a)) = false ->
        value (assignee wi) = VStr "未设置"
        /\ getAssignee members currentUserId item
           = Ok (VStr (if a =? currentUserId then "未知" ++ "(我)" else "未知"))).
Proof.
  intros host now credentials request images identifier item members item' wi
    me a Hitem Hmembers Hdetails Hformat Ea Na.
  assert (T : truthy item = true).
  { destruct item; try discriminate Ea; reflexivity. }
  assert (R : is_nullish item = false).
  { destruct item; try discriminate Ea; reflexivity. }
  assert (Ta : truthy (VStr a) = true).
  { simpl. destruct (a =? "") eqn:E; [apply String.eqb_eq in E; contradiction|].
    reflexivity. }
  destruct (details_frame _ _ _ _ _ _ _ _ Hitem T Hmembers Hdetails) as (F & Fa & _).
  destruct (formatWorkItem_fields _ _ _ Hformat) as (_ & _ & _ & _ & _ & Ha & _).
  assert (D : value (assignee wi) = map_get members (VStr a) ||| VStr "未设置").
  { rewrite Ha. unfold assigneeName.
    rewrite Fa, (prop_fill_name _ "assignee" _ _ _ eq_refl Ea Na), (F "assignee" eq_refl), Ea.
    unfold or_else. destruct (truthy (map_get members (VStr a))) eqn:M.
    - now rewrite M.
    - reflexivity. }
  assert (L : getAssignee members me item
              = (let name := map_get members (VStr a) ||| VStr "未知" in
                 if a =? me
                 then n <- to_string name ;; Ok (VStr (n ++ "(我)"))
                 else Ok name)).
  { unfold getAssignee, get. rewrite R. cbn [bind]. rewrite Ea, Ta. reflexivity. }
  split.
  - intros n M Nn. rewrite D, L, M.
    assert (Tn : truthy (VStr n) = true).
    { simpl. destruct (n =? "") eqn:E; [apply String.eqb_eq in E; contradiction|].
      reflexivity. }
    rewrite !(or_else_truthy _ _ Tn). cbv zeta.
    split; [reflexivity|]. now destruct (a =? me).
  - intros M. rewrite D, L, !(or_else_falsy _ _ M). cbv zeta.
    split; [reflexivity|]. now destruct (a =? me).
Qed.

Lemma assignee_in_listing_and_detail_witness :
  exists item' wi,
    PingCodeClient.getWorkItemWithDetails 1700000000000 (Some sample_credentials)
      sample_tracker no_images "LFY-7" = Ok item'
    /\ formatWorkItem demo_host item' = Ok wi
    /\ value (assignee wi) = VStr "Anna"
    /\ getAssignee (PingCodeClient.collect [] sample_members) "u1" fetched_item
       = Ok (VStr ("Anna" ++ "(我)")).
Proof.
  eexists _, _. split; [reflexivity|]. split; [reflexivity|].
  apply (proj1 (assignee_in_listing_and_detail demo_host 1700000000000
                  (Some sample_credentials) sample_tracker no_images "LFY-7"
                  fetched_item (PingCodeClient.collect [] sample_members) _ _ "u1" "u1"
                  eq_refl eq_refl eq_refl eq_refl eq_refl ltac:(discriminate))
           "Anna" eq_refl ltac:(discriminate)).
Defined.
